(** * Rendering of swarm tasks and checkpoints, and the service filter of
    [service ps]: a shallow embedding of

    - [cli/command/service/ps.go]   ([runPS], [createFilter]),
    - [cli/command/task/formatter.go] ([NewTaskFormat], [FormatWrite] and the
      accessors of [taskContext]),
    - [cli/command/checkpoint/formatter.go] ([NewFormat], [FormatWrite]).

    Go strings are byte strings: [string] with [String.length] for [len],
    and their characters are the code points of [unicode/utf8].  A Go [error]
    is its message and a panic is its value ([runtime.Result]).
    [filters.Args] is a map from a key to a set of values, a
    [gmap string (gset string)]; a Go map that is ranged over comes with the
    order of the visit ([gomap.Range]).  Output is the text written to the
    sink.  A call that reads the wall clock gets the reading of its moment
    ([time.Ambient]), and a run that makes several calls gets one reading per
    call ([time.Clock]).

    The package [cli/command/formatter] and the network view are not among
    the sources; what the development needs of them is modelled from the
    specification and marked so. *)

From Stdlib Require Import ZArith Ascii String List Lia DecimalString.
From stdpp Require Import base gmap strings list fin_maps sorting.

(** ** Strings of the Go standard library *)

Module strings.

(** The two control characters the formats use. *)
Definition tab : string := String (ascii_of_nat 9) "".
Definition newline : string := String (ascii_of_nat 10) "".

(** [strings.Join(elems, sep)]. *)
Fixpoint Join (elems : list string) (sep : string) : string :=
  match elems with
  | [] => ""
  | [e] => e
  | e :: rest => e +:+ sep +:+ Join rest sep
  end.

(** [strings.HasPrefix(s, prefix)]. *)
Definition HasPrefix (s prefix : string) : bool := String.prefix prefix s.

(** [strings.Contains(s, substr)]. *)
Fixpoint Contains (s substr : string) : bool :=
  String.prefix substr s ||
  match s with
  | "" => false
  | String _ s' => Contains s' substr
  end.

End strings.

(** A Go [error]: only its message is observed. *)
Definition error := string.

(** ** [filters.Args] *)

Module filters.

Definition Args := gmap string (gset string).

Definition NewArgs : Args := ∅.

(** [args.Add(key, value)]: the value joins the set stored under the key. *)
Definition Add (key value : string) (args : Args) : Args :=
  <[key := {[value]} ∪ default ∅ (args !! key)]> args.

(** [args.Get(key)] as a set. *)
Definition Get (key : string) (args : Args) : gset string :=
  default ∅ (args !! key).

(** [args.Contains(key)]. *)
Definition Contains (key : string) (args : Args) : bool :=
  bool_decide (is_Some (args !! key)).

(** [args.Del(key, value)]. *)
Definition Del (key value : string) (args : Args) : Args :=
  match args !! key with
  | Some values => <[key := values ∖ {[value]}]> args
  | None => args
  end.

End filters.

(** ** More of the Go standard library: case mapping, trimming, [%d] *)

Module text.

Definition isSpace (c : ascii) : bool := Ascii.eqb c " ".

Definition upperChar (c : ascii) : ascii :=
  let n := nat_of_ascii c in
  if (97 <=? n)%nat && (n <=? 122)%nat then ascii_of_nat (n - 32) else c.

Definition lowerChar (c : ascii) : ascii :=
  let n := nat_of_ascii c in
  if (65 <=? n)%nat && (n <=? 90)%nat then ascii_of_nat (n + 32) else c.

Fixpoint mapChars (f : ascii -> ascii) (s : string) : string :=
  match s with
  | "" => ""
  | String c s' => String (f c) (mapChars f s')
  end.

(** [strings.ToUpper] and [strings.ToLower] on ASCII text; bytes outside
    [a-z] and [A-Z] are kept. *)
Definition ToUpper : string -> string := mapChars upperChar.
Definition ToLower : string -> string := mapChars lowerChar.

Fixpoint TrimLeft (s : string) : string :=
  match s with
  | "" => ""
  | String c s' => if isSpace c then TrimLeft s' else s
  end.

Fixpoint TrimRight (s : string) : string :=
  match s with
  | "" => ""
  | String c s' =>
      let t := TrimRight s' in
      if isSpace c && String.eqb t "" then "" else String c t
  end.

(** [strings.Trim(s, " ")]. *)
Definition Trim (s : string) : string := TrimRight (TrimLeft s).

Fixpoint leadingSpaces (s : string) : nat :=
  match s with
  | "" => 0
  | String c s' => if isSpace c then S (leadingSpaces s') else 0
  end.

(** [s[n:]] for [n <= len(s)]. *)
Fixpoint drop (n : nat) (s : string) : string :=
  match n, s with
  | S n', String _ s' => drop n' s'
  | _, _ => s
  end.

(** [s[:n]]; the whole string when it is shorter. *)
Fixpoint take (n : nat) (s : string) : string :=
  match n, s with
  | S n', String c s' => String c (take n' s')
  | _, _ => ""
  end.

(** [%d] of an unsigned number. *)
Definition decimal (n : N) : string := NilZero.string_of_uint (N.to_uint n).

(** The double quote character. *)
Definition dquote : string := String (ascii_of_nat 34) "".

(** [fmt.Sprintf] with the format [%s] between two double quotes. *)
Definition quoted (s : string) : string := dquote +:+ s +:+ dquote.

End text.

(** ** Characters of a Go string ([unicode/utf8])

    A Go string holds bytes; its characters are the code points that the
    bytes encode in UTF-8.  A byte that starts no well-formed encoding counts
    as one character, the replacement character. *)

Module utf8.

Definition byte (c : ascii) : nat := nat_of_ascii c.

Definition within (lo hi : nat) (c : ascii) : bool :=
  (lo <=? byte c)%nat && (byte c <=? hi)%nat.

(** A continuation byte. *)
Definition continues (c : ascii) : bool := within 128 191 c.

(** The bytes a well-formed encoding has, by its first byte; [0] for a byte
    that starts none. *)
Definition size (b0 : ascii) : nat :=
  if (byte b0 <? 128)%nat then 1
  else if within 194 223 b0 then 2
  else if within 224 239 b0 then 3
  else if within 240 244 b0 then 4
  else 0.

(** The second byte of an encoding is in a range that its first byte
    sets: no overlong form, no surrogate, nothing beyond [U+10FFFF]. *)
Definition accepts (b0 b1 : ascii) : bool :=
  if (byte b0 =? 224)%nat then within 160 191 b1
  else if (byte b0 =? 237)%nat then within 128 159 b1
  else if (byte b0 =? 240)%nat then within 144 191 b1
  else if (byte b0 =? 244)%nat then within 128 143 b1
  else continues b1.

(** The encoding of [utf8.RuneError], [U+FFFD]. *)
Definition RuneError : string :=
  String (ascii_of_nat 239) (String (ascii_of_nat 191) (String (ascii_of_nat 189) "")).

(** [[]rune(s)], each character by its encoding. *)
Fixpoint runes (s : string) : list string :=
  match s with
  | "" => []
  | String b0 s1 =>
      match size b0 with
      | 1 => String b0 "" :: runes s1
      | 2 =>
          match s1 with
          | String b1 s2 =>
              if accepts b0 b1 then String b0 (String b1 "") :: runes s2
              else RuneError :: runes s1
          | _ => RuneError :: runes s1
          end
      | 3 =>
          match s1 with
          | String b1 (String b2 s3) =>
              if accepts b0 b1 && continues b2
              then String b0 (String b1 (String b2 "")) :: runes s3
              else RuneError :: runes s1
          | _ => RuneError :: runes s1
          end
      | 4 =>
          match s1 with
          | String b1 (String b2 (String b3 s4)) =>
              if accepts b0 b1 && continues b2 && continues b3
              then String b0 (String b1 (String b2 (String b3 ""))) :: runes s4
              else RuneError :: runes s1
          | _ => RuneError :: runes s1
          end
      | _ => RuneError :: runes s1
      end
  end.

(** [utf8.RuneCountInString(s)]. *)
Definition RuneCountInString (s : string) : nat := length (runes s).

(** [string(rs)] for a slice of characters. *)
Fixpoint encode (rs : list string) : string :=
  match rs with
  | [] => ""
  | r :: rest => r +:+ encode rest
  end.

End utf8.

(** ** Panics of the Go run time *)

Module runtime.

(** How a call ends: it returns, or it panics with a value, here the message
    of the value. *)
Inductive Result (A : Type) : Type :=
| Returns (a : A)
| Panics (value : string).

Arguments Returns {A} a.
Arguments Panics {A} value.

(** The panic of a nil pointer dereference. *)
Definition nilDereference : string :=
  "runtime error: invalid memory address or nil pointer dereference".

End runtime.

(** ** Wall-clock time *)

Module time.

(** A [time.Time] and a [time.Duration], both in nanoseconds. *)
Definition Time := Z.
Definition Duration := Z.

Definition Second : Duration := 1000000000%Z.

Definition minDuration : Duration := (- 2 ^ 63)%Z.
Definition maxDuration : Duration := (2 ^ 63 - 1)%Z.

(** [t.Sub(u)]: the difference, saturated to the range of an [int64]. *)
Definition Sub (t u : Time) : Duration :=
  let d := (t - u)%Z in
  if (d <? minDuration)%Z then minDuration
  else if (maxDuration <? d)%Z then maxDuration
  else d.

(** A computation that reads the process's wall clock ([time.Now()]): it is
    run with the reading of the clock at the moment of the call.  Nothing a
    caller passes in is of this type. *)
Definition Ambient (A : Type) : Type := Time -> A.

Definition Now : Ambient Time := fun wall => wall.

(** [time.Since(t)] is [time.Now().Sub(t)]. *)
Definition Since (t : Time) : Ambient Duration := fun wall => Sub (Now wall) t.

(** The wall clock over a run.  A run calls the methods of its views one
    after the other and time passes from one call to the next: [clock k] is
    the reading of the wall clock during the call number [k] of the run. *)
Definition Clock := nat -> Time.

(** A part of a run: from the number of the next call, what it yields and
    the number of the call that comes after it. *)
Definition Timed (A : Type) : Type := Clock -> nat -> A * nat.

End time.

(** ** The API types the task view reads *)

Module swarm.

(** [swarm.PortConfig]; the two ports are [uint32]. *)
Record PortConfig := {
  Protocol : string;
  TargetPort : N;
  PublishedPort : N
}.

Record PortStatus := { Ports : list PortConfig }.

Record TaskStatus := {
  Timestamp : time.Time;
  State : string;
  Err : string;
  PortStatus_ : PortStatus
}.

Record ContainerSpec := { Image : string }.

(** [ContainerSpec] is a pointer: [None] is [nil]. *)
Record TaskSpec := { ContainerSpec_ : option ContainerSpec }.

Record Task := {
  ID : string;
  Spec : TaskSpec;
  DesiredState : string;
  Status : TaskStatus
}.

End swarm.

(** ** Collaborators that are not part of the sources

    Functions and constants of other packages that the task view calls.  They
    are kept abstract; every statement below holds for each choice of them. *)

Class Collaborators := {
  (** [formatter.PrettyPrint] on a task state. *)
  PrettyPrint : string -> string;
  (** The chain [reference.ParseNormalizedNamed], [reference.NamedTagged],
      [reference.WithTag (reference.TrimNamed nt) (nt.Tag ())],
      [reference.FamiliarString] of [taskContext.Image]: the image without its
      digest when each step succeeds, [None] when one fails. *)
  FamiliarTagged : string -> option string;
  (** [units.HumanDuration]. *)
  HumanDuration : time.Duration -> string;
  (** [encoding/json] on a string scalar. *)
  jsonString : string -> string;
  (** Column titles of the [formatter] package. *)
  NameHeader : string;
  ImageHeader : string;
  ErrorHeader : string;
  PortsHeader : string;
  (** Length of a short identifier. *)
  shortLen : nat
}.

(** ** The template evaluator

    The evaluator is Go's [text/template] with the functions the client
    registers.  It is modelled on the part of the language that the formats of
    this development use: literal text, [{{.Field}}], [{{json .}}],
    [{{json .Field}}], [{{nil}}], and the lookup of the name of a function in
    an action made of fields and of calls.  A format that uses anything else
    is outside the model: [parse] answers [None]. *)

Module template.

Inductive Node :=
| TextNode (text : string)
| FieldNode (line col : nat) (name : string)
| JSONDotNode (line col : nat)
| JSONFieldNode (line col : nat) (name : string)
| NilNode (line col : nat).

Definition Template := list Node.

Definition between (lo hi : nat) (c : ascii) : bool :=
  let n := nat_of_ascii c in (lo <=? n)%nat && (n <=? hi)%nat.

Definition isIdentStart (c : ascii) : bool :=
  between 65 90 c || between 97 122 c || Ascii.eqb c "_".

Definition isIdentChar (c : ascii) : bool :=
  isIdentStart c || between 48 57 c.

Fixpoint allChars (p : ascii -> bool) (s : string) : bool :=
  match s with
  | "" => true
  | String c s' => p c && allChars p s'
  end.

Definition isIdentifier (s : string) : bool :=
  match s with
  | "" => false
  | String c s' => isIdentStart c && allChars isIdentChar s'
  end.

(** Words the lexer does not read as identifiers. *)
Definition keywords : list string :=
  ["block"; "break"; "continue"; "define"; "else"; "end"; "if"; "range";
   "nil"; "template"; "with"; "true"; "false"].

(** The keywords that open an action and are followed by a pipeline. *)
Definition controls : list string := ["if"; "range"; "with"].

(** The functions a template can name: the built-in ones and the ones the
    client registers. *)
Definition definedFunctions : list string :=
  ["and"; "call"; "html"; "index"; "slice"; "js"; "len"; "not"; "or";
   "print"; "printf"; "println"; "urlquery";
   "eq"; "ge"; "gt"; "le"; "lt"; "ne";
   "json"; "split"; "join"; "title"; "lower"; "upper"; "pad"; "truncate"].

Definition member (s : string) (l : list string) : bool :=
  existsb (String.eqb s) l.

Definition natDecimal (n : nat) : string := text.decimal (N.of_nat n).

Definition undefinedFunction (line : nat) (name : string) : error :=
  "template: :" +:+ natDecimal line +:+ ": function " +:+ text.quoted name
    +:+ " not defined".

Definition unclosedAction (line : nat) : error :=
  "template: :" +:+ natDecimal line +:+ ": unclosed action".

(** *** The words of an action

    The parser takes the tokens of an action from left to right and looks an
    identifier up among the functions when it takes it: the first name that
    is not defined is reported, whatever follows it.  The tokens followed
    here are blanks, fields, identifiers and pipes. *)

(** The bytes after which the lexer ends an identifier or a field; the end
    of the action ends it too. *)
Definition isTerminator (c : ascii) : bool :=
  text.isSpace c || between 9 10 c || Ascii.eqb c (ascii_of_nat 13)
  || Ascii.eqb c "." || Ascii.eqb c "," || Ascii.eqb c "|"
  || Ascii.eqb c ":" || Ascii.eqb c ")" || Ascii.eqb c "(".

(** Where a token starts: at the start of the action, at the start of a
    command after a pipe, or after an operand of the command. *)
Inductive Place := AtStart | AtCommand | AfterOperand.

(** The state of the reading: between two tokens, in an identifier, in
    a field after its dot.  A field is chained when its dot comes right after
    an operand; a dot that starts a token and has no name is the dot
    operand. *)
Inductive Reading :=
| Blank (place : Place)
| Word (first : bool) (w : string)
| Field (chained : bool) (name : string).

Inductive Step :=
| Next (r : Reading)
| Found (name : string)
| Stuck.

(** What comes after an operand. *)
Definition afterOperand (c : ascii) : Step :=
  if text.isSpace c then Next (Blank AfterOperand)
  else if Ascii.eqb c "|" then Next (Blank AtCommand)
  else if Ascii.eqb c "." then Next (Field true "")
  else Stuck.

(** An identifier that has been read to its end. *)
Definition endOfWord (first : bool) (w : string) (next : option ascii) : Step :=
  if first && member w controls then
    match next with
    | Some c => if text.isSpace c then Next (Blank AtCommand) else Stuck
    | None => Stuck
    end
  else if member w keywords then Stuck
  else if negb (member w definedFunctions) then Found w
  else match next with
       | Some c => afterOperand c
       | None => Stuck
       end.

Definition step (r : Reading) (c : ascii) : Step :=
  match r with
  | Blank place =>
      if text.isSpace c then Next (Blank place)
      else if Ascii.eqb c "." then Next (Field false "")
      else if isIdentStart c then
        Next (Word (match place with AtStart => true | _ => false end) (String c ""))
      else if Ascii.eqb c "|" then
        match place with
        | AfterOperand => Next (Blank AtCommand)
        | _ => Stuck
        end
      else Stuck
  | Word first w =>
      if isIdentChar c then Next (Word first (w +:+ String c ""))
      else if isTerminator c then endOfWord first w (Some c)
      else Stuck
  | Field chained name =>
      if isIdentChar c then
        if String.eqb name "" && negb (isIdentStart c) then Stuck
        else Next (Field chained (name +:+ String c ""))
      else if isTerminator c then
        if String.eqb name "" && (chained || Ascii.eqb c ".") then Stuck
        else afterOperand c
      else Stuck
  end.

(** The first name of the action that is not the name of a function, when
    the tokens before it are of the kinds followed here. *)
Fixpoint firstUndefined (s : string) (r : Reading) : option string :=
  match s with
  | "" =>
      match r with
      | Word first w =>
          match endOfWord first w None with
          | Found name => Some name
          | _ => None
          end
      | _ => None
      end
  | String c s' =>
      match step r c with
      | Next r' => firstUndefined s' r'
      | Found name => Some name
      | Stuck => None
      end
  end.

(** The reading after a text made of whole tokens, none of them a name that
    is not defined. *)
Fixpoint reading (s : string) (r : Reading) : option Reading :=
  match s with
  | "" => Some r
  | String c s' =>
      match step r c with
      | Next r' => reading s' r'
      | _ => None
      end
  end.

(** A text that can stand before a function name in an action: fields and
    calls of defined functions, the last token followed by a blank or a
    pipe. *)
Definition leads (s : string) : bool :=
  match reading s (Blank AtStart) with
  | Some (Blank _) => true
  | _ => false
  end.

(** A text that can follow a function name: nothing, or a text that starts
    with a byte that ends the name. *)
Definition terminated (s : string) : bool :=
  match s with
  | "" => true
  | String c _ => isTerminator c
  end.

(** The body of one action, between its delimiters; [col] is the offset of
    the body in its line. *)
Definition parseAction (line col : nat) (body : string) : option (error + Node) :=
  let b := text.Trim body in
  let pos := col + text.leadingSpaces body in
  match firstUndefined body (Blank AtStart) with
  | Some name => Some (inl (undefinedFunction line name))
  | None =>
      if String.eqb b "nil" then Some (inr (NilNode line pos))
      else if String.prefix "." b then
        if isIdentifier (text.drop 1 b) then Some (inr (FieldNode line pos (text.drop 1 b)))
        else None
      else if String.prefix "json ." b then
        let name := text.drop 6 b in
        if String.eqb name "" then Some (inr (JSONDotNode line pos))
        else if isIdentifier name then Some (inr (JSONFieldNode line (pos + 5) name))
        else None
      else None
  end.

Definition textNode (acc : string) (rest : Template) : Template :=
  if String.eqb acc "" then rest else TextNode acc :: rest.

Definition isNewline (c : ascii) : bool := Ascii.eqb c (ascii_of_nat 10).

(** One pass over the source.  [line] and [col] locate the next byte;
    [actLine] and [actCol] locate the body of the action being read and
    [acc] is the text, or the body, read so far.  The first error, in the
    order of the source, is the one reported; an action that the source does
    not close is reported once its tokens have been taken. *)
Fixpoint scan (s : string) (inAction : bool) (line col actLine actCol : nat)
    (acc : string) : option (error + Template) :=
  match s with
  | "" => if inAction then
            match parseAction actLine actCol acc with
            | Some (inr _) => Some (inl (unclosedAction line))
            | Some (inl err) => Some (inl err)
            | None => None
            end
          else Some (inr (textNode acc []))
  | String c s' =>
      let continue :=
        if isNewline c
        then scan s' inAction (S line) 0 actLine actCol (acc +:+ String c "")
        else scan s' inAction line (S col) actLine actCol (acc +:+ String c "") in
      match s' with
      | String c' s'' =>
          if negb inAction && Ascii.eqb c "{" && Ascii.eqb c' "{" then
            match scan s'' true line (col + 2) line (col + 2) "" with
            | Some (inr nodes) => Some (inr (textNode acc nodes))
            | r => r
            end
          else if inAction && Ascii.eqb c "}" && Ascii.eqb c' "}" then
            match parseAction actLine actCol acc with
            | Some (inr node) =>
                match scan s'' false line (col + 2) line (col + 2) "" with
                | Some (inr nodes) => Some (inr (node :: nodes))
                | r => r
                end
            | Some (inl err) => Some (inl err)
            | None => None
            end
          else continue
      | "" => continue
      end
  end.

(** [template.New("").Parse(format)]. *)
Definition parse (format : string) : option (error + Template) :=
  scan format false 1 0 1 0 "".

(** The text of an action: what follows its opening delimiter, up to the
    closing delimiter or to the end of the source. *)
Fixpoint actionBody (s : string) : string :=
  match s with
  | "" => ""
  | String c s' =>
      match s' with
      | String c' _ =>
          if Ascii.eqb c "}" && Ascii.eqb c' "}" then ""
          else String c (actionBody s')
      | "" => String c ""
      end
  end.

(** The line breaks of a text. *)
Fixpoint newlines (s : string) : nat :=
  match s with
  | "" => 0
  | String c s' => if isNewline c then S (newlines s') else newlines s'
  end.

(** A text that ends with an opening brace. *)
Fixpoint endsOpen (s : string) : bool :=
  match s with
  | "" => false
  | String c "" => Ascii.eqb c "{"
  | String _ s' => endsOpen s'
  end.

(** What evaluation sees of the value a template is run on: its Go type,
    its zero-argument methods by name, each a call that may read the wall
    clock and may panic, and its [MarshalJSON]. *)
Record Data := {
  typeName : string;
  method : string -> option (time.Ambient (runtime.Result string));
  marshalJSON : time.Timed (runtime.Result string)
}.

Definition location (line col : nat) : string :=
  "template: :" +:+ natDecimal line +:+ ":" +:+ natDecimal col
    +:+ ": executing " +:+ text.quoted "" +:+ " at <".

Definition noField (line col : nat) (name : string) (d : Data) : error :=
  location line col +:+ "." +:+ name +:+ ">: can't evaluate field " +:+ name
    +:+ " in type " +:+ typeName d.

Definition nilCommand (line col : nat) : error :=
  location line col +:+ "nil>: nil is not a command".

(** The evaluator recovers the panic of a call and reports it. *)
Definition callError (line col : nat) (node name value : string) : error :=
  location line col +:+ node +:+ ">: error calling " +:+ name +:+ ": " +:+ value.

Section Exec.
Context `{Collaborators}.

(** The call of the method [name] of the value, at the next moment of the
    run. *)
Definition callMethod (d : Data) (line col : nat) (name : string)
    : time.Timed (error + string) :=
  fun clock k =>
    match method d name with
    | Some m =>
        match m (clock k) with
        | runtime.Returns v => (inr v, S k)
        | runtime.Panics value =>
            (inl (callError line col ("." +:+ name) name value), S k)
        end
    | None => (inl (noField line col name d), k)
    end.

Definition execNode (d : Data) (n : Node) : time.Timed (error + string) :=
  fun clock k =>
    match n with
    | TextNode t => (inr t, k)
    | FieldNode line col name => callMethod d line col name clock k
    | JSONDotNode line col =>
        match marshalJSON d clock k with
        | (runtime.Returns v, k') => (inr v, k')
        | (runtime.Panics value, k') =>
            (inl (callError line col "json" "json" value), k')
        end
    | JSONFieldNode line col name =>
        match callMethod d line col name clock k with
        | (inr v, k') => (inr (jsonString v), k')
        | (inl err, k') => (inl err, k')
        end
    | NilNode line col => (inl (nilCommand line col), k)
    end.

(** [tmpl.Execute]: the text of one record, or the first error. *)
Fixpoint execute (tmpl : Template) (d : Data) : time.Timed (error + string) :=
  fun clock k =>
    match tmpl with
    | [] => (inr "", k)
    | n :: rest =>
        match execNode d n clock k with
        | (inl err, k') => (inl err, k')
        | (inr s, k') =>
            match execute rest d clock k' with
            | (inl err, k'') => (inl err, k'')
            | (inr s', k'') => (inr (s +:+ s'), k'')
            end
        end
    end.
End Exec.

End template.

(** ** The [formatter] package

    The package [cli/command/formatter] is not among the sources: the views
    of tasks and of checkpoints call it.  Its definitions below follow the
    specification, and the tests of the network view where they pin a
    detail. *)

Module formatter.

(** Modelled from the spec: the reserved alias [table] of a format, the
    constant [formatter.TableFormatKey]. *)
Definition TableFormatKey : string := "table".

(** Modelled from the spec: the reserved alias [raw] of a format, the
    constant [formatter.RawFormatKey]. *)
Definition RawFormatKey : string := "raw".

(** Modelled from the spec: the quiet default of a kind is identifier-only,
    the constant [formatter.DefaultQuietFormat]. *)
Definition DefaultQuietFormat : string := "{{.ID}}".

(** Modelled from the spec: [formatter.TruncateID], missing from the
    sources, returns a fixed-length prefix of the identifier. *)
Definition TruncateID `{Collaborators} (id : string) : string :=
  text.take shortLen id.

(** Modelled from the spec: the mark that closes an ellipsized text, here
    the three bytes of the horizontal ellipsis. *)
Definition ellipsisMark : string :=
  String (ascii_of_nat 226) (String (ascii_of_nat 128) (String (ascii_of_nat 166) "")).

(** Modelled from the spec: [formatter.Ellipsis], missing from the sources,
    ellipsizes a text beyond a maximum length and keeps a text that fits.
    The length is counted in characters; a text that is cut keeps one
    character less than the maximum and gets the mark. *)
Definition Ellipsis (s : string) (maxDisplayWidth : nat) : string :=
  if (utf8.RuneCountInString s <=? maxDisplayWidth)%nat then s
  else utf8.encode (take (maxDisplayWidth - 1) (utf8.runes s)) +:+ ellipsisMark.

(** *** The entity view *)

(** A zero-argument accessor of a view, as a call: it may read the wall
    clock and it may panic. *)
Definition Accessor : Type := time.Ambient (runtime.Result string).

(** Modelled from the spec: an entity view ([formatter.SubContext]) exposes
    named zero-argument accessors and a header mapping.  [methods] are the
    accessors, [MarshalJSON_] is the [MarshalJSON] method of the view and
    [Header] the [HeaderContext] it embeds. *)
Record SubContext := {
  typeName : string;
  methods : list (string * Accessor);
  MarshalJSON_ : time.Timed (runtime.Result string);
  Header : gmap string string
}.

(** The lookup of an entry by its name. *)
Definition call {A} (methods : list (string * A)) (name : string) : option A :=
  snd <$> List.find (fun m => String.eqb (fst m) name) methods.

(** What the evaluator sees of a view. *)
Definition data (sub : SubContext) : template.Data :=
  {| template.typeName := typeName sub;
     template.method := call (methods sub);
     template.marshalJSON := MarshalJSON_ sub |}.

(** *** JSON *)

(** The accessors are called one after the other, in the order of their
    names; the first panic ends the calls. *)
Fixpoint callAll (methods : list (string * Accessor))
    : time.Timed (runtime.Result (list (string * string))) :=
  fun clock k =>
    match methods with
    | [] => (runtime.Returns [], k)
    | (name, accessor) :: rest =>
        match accessor (clock k) with
        | runtime.Panics value => (runtime.Panics value, S k)
        | runtime.Returns v =>
            match callAll rest clock (S k) with
            | (runtime.Returns vs, k') => (runtime.Returns ((name, v) :: vs), k')
            | (runtime.Panics value, k') => (runtime.Panics value, k')
            end
        end
    end.

(** Modelled from the spec: [formatter.MarshalJSON], missing from the
    sources, builds a mapping from every declared accessor name to its
    string-rendered value; this is the mapping of the values returned. *)
Definition marshalMap (values : list (string * string)) : gmap string string :=
  fold_left (fun m kv => <[fst kv := snd kv]> m) values ∅.

(** The entries of a mapping in the order of their keys, the order in which
    [encoding/json] writes a map. *)
Definition sortedEntries (m : gmap string string) : list (string * string) :=
  merge_sort (fun a b => String.le (fst a) (fst b)) (map_to_list m).

(** The JSON object of a mapping from strings to strings. *)
Definition jsonObject `{Collaborators} (m : gmap string string) : string :=
  "{" +:+ strings.Join
            (List.map (fun kv => jsonString (fst kv) +:+ ":" +:+ jsonString (snd kv))
                      (sortedEntries m)) ","
      +:+ "}".

(** The mapping that [{{json .}}] serializes, built by calling the
    accessors. *)
Definition marshalled (methods : list (string * Accessor))
    : time.Timed (runtime.Result (gmap string string)) :=
  fun clock k =>
    match callAll methods clock k with
    | (runtime.Returns values, k') => (runtime.Returns (marshalMap values), k')
    | (runtime.Panics value, k') => (runtime.Panics value, k')
    end.

(** Modelled from the spec: [formatter.MarshalJSON] serializes the mapping
    of the accessors. *)
Definition MarshalJSON `{Collaborators} (methods : list (string * Accessor))
    : time.Timed (runtime.Result string) :=
  fun clock k =>
    match marshalled methods clock k with
    | (runtime.Returns m, k') => (runtime.Returns (jsonObject m), k')
    | (runtime.Panics value, k') => (runtime.Panics value, k')
    end.

(** *** The render context *)

(** Modelled from the spec: the output sink is a byte-stream writer, here
    the text written so far; a step of the render pass
    writes to it and returns a value or an error. *)
Definition Sink := string.

(** A step of the render pass: a state and error monad over the sink and
    the number of the next call of the run, under the wall clock. *)
Definition M (A : Type) : Type :=
  time.Clock -> nat -> Sink -> nat * Sink * (error + A).

(** A step that returns a value and writes nothing. *)
Definition ret {A} (a : A) : M A := fun _ k out => (k, out, inr a).

(** A step that returns an error. *)
Definition fail {A} (err : error) : M A := fun _ k out => (k, out, inl err).

(** A step that writes a text to the sink. *)
Definition write (s : string) : M unit := fun _ k out => (k, out +:+ s, inr tt).

(** One step, then the next unless the first returned an error. *)
Definition bind {A B} (m : M A) (f : A -> M B) : M B :=
  fun clock k out =>
    match m clock k out with
    | (k', out', inr a) => f a clock k' out'
    | (k', out', inl err) => (k', out', inl err)
    end.

(** A [for] loop over a slice that returns at the first error. *)
Fixpoint forEach {A} (l : list A) (body : A -> M unit) : M unit :=
  match l with
  | [] => ret tt
  | x :: rest => bind (body x) (fun _ => forEach rest body)
  end.

(** [SubFormat]: the callback that feeds each entity to the row writer. *)
Definition SubFormat : Type := (SubContext -> M unit) -> M unit.

(** Modelled from the spec: the render context holds the resolved format
    and the truncation flag; its output sink is the result of [Write].  The
    tests of the network view build a context from a format alone and get a
    header for an inline-column table format resolved with quiet set: the
    quiet flag reaches the context through the resolved format only. *)
Record Context := { Format : string; Trunc : bool }.

(** Modelled from the spec: a format is of the table layout when it starts
    with the alias [table], alone or followed by inline columns. *)
Definition IsTable (format : string) : bool :=
  strings.HasPrefix format TableFormatKey.

(** The escapes [\t] and [\n] of a format stand for a tab and a newline: the
    raw formats of the sources are written with them and the tests expect
    line breaks. *)
Fixpoint unescape (s : string) : string :=
  match s with
  | "" => ""
  | String c rest =>
      match rest with
      | String c' rest' =>
          if Ascii.eqb c "\" && Ascii.eqb c' "t" then strings.tab +:+ unescape rest'
          else if Ascii.eqb c "\" && Ascii.eqb c' "n" then strings.newline +:+ unescape rest'
          else String c (unescape rest)
      | "" => String c ""
      end
  end.

(** Modelled from the spec: the template of a format is the format without
    the leading [table] of a table layout; the tests of the network view pin
    that the blanks around it are dropped. *)
Definition preFormat (c : Context) : string :=
  let finalFormat :=
    if IsTable (Format c)
    then text.drop (String.length TableFormatKey) (Format c)
    else Format c in
  unescape (text.Trim finalFormat).

(** Modelled from the spec: a parse failure or an unknown function produces
    a [template parsing error] that carries the text of the evaluator's error
    (4.3, step 1). *)
Definition parseFormat (c : Context) : option (error + template.Template) :=
  match template.parse (preFormat c) with
  | None => None
  | Some (inl err) => Some (inl ("template parsing error: " +:+ err))
  | Some (inr tmpl) => Some (inr tmpl)
  end.

(** Modelled from the spec: the column separator of a table, the tab that
    separates the columns of the default formats. *)
Definition columnSeparator : string := strings.tab.

(** Modelled from the spec: the fields a template refers to, each once, in the order of their first
    reference. *)
Fixpoint referenced (tmpl : template.Template) (seen : list string) : list string :=
  match tmpl with
  | [] => []
  | template.FieldNode _ _ name :: rest =>
      if template.member name seen then referenced rest seen
      else name :: referenced rest (name :: seen)
  | _ :: rest => referenced rest seen
  end.

(** Modelled from the spec: the header row is made of the titles that
    [Header] gives to the fields the column template refers to, each in upper
    case, joined with the column separator (4.3, step 2). *)
Definition headerRow (tmpl : template.Template) (sub : SubContext) : string :=
  strings.Join
    (List.map text.ToUpper
       (omap (fun name => Header sub !! name) (referenced tmpl [])))
    columnSeparator.

(** Modelled from the spec: the header is written for the table layout
    only, once, before the rows. *)
Definition writeHeader (c : Context) (tmpl : template.Template) (sub : SubContext)
    : M unit :=
  if IsTable (Format c) then write (headerRow tmpl sub +:+ strings.newline)
  else ret tt.

(** Modelled from the spec: each entity is evaluated and its record ends
    with a newline; a failure aborts the call (4.3, steps 3 and 4).  The
    tests of the network view pin the prefix of the error. *)
Definition contextFormat `{Collaborators} (tmpl : template.Template)
    (subContext : SubContext) : M unit :=
  fun clock k out =>
    match template.execute tmpl (data subContext) clock k with
    | (inl err, k') => fail ("template parsing error: " +:+ err) clock k' out
    | (inr row, k') => write (row +:+ strings.newline) clock k' out
    end.

(** Modelled from the spec: [Context.Write], missing from the sources,
    parses the format, returns at once if that fails, writes the header of a
    table and then the rows (4.3).  The result is what the call wrote to a
    fresh sink and the error it returned, under the wall clock of the run;
    [None] when the format is outside the modelled language. *)
Definition Write `{Collaborators} (c : Context) (sub : SubContext) (f : SubFormat)
    (clock : time.Clock) : option (Sink * option error) :=
  match parseFormat c with
  | None => None
  | Some (inl err) => Some ("", Some err)
  | Some (inr tmpl) =>
      let '(_, out, r) :=
        bind (writeHeader c tmpl sub) (fun _ => f (contextFormat tmpl)) clock 0 "" in
      Some (out, match r with inl err => Some err | inr _ => None end)
  end.

End formatter.

(** ** The task view ([cli/command/task]) *)

Module task.

Import formatter.

Definition defaultTaskTableFormat : string :=
  "table {{.ID}}" +:+ strings.tab +:+ "{{.Name}}" +:+ strings.tab +:+
  "{{.Image}}" +:+ strings.tab +:+ "{{.Node}}" +:+ strings.tab +:+
  "{{.DesiredState}}" +:+ strings.tab +:+ "{{.CurrentState}}" +:+ strings.tab +:+
  "{{.Error}}" +:+ strings.tab +:+ "{{.Ports}}".

Definition nodeHeader : string := "NODE".
Definition taskIDHeader : string := "ID".
Definition desiredStateHeader : string := "DESIRED STATE".
Definition currentStateHeader : string := "CURRENT STATE".

Definition maxErrLength : nat := 30.

(** [NewTaskFormat]; the raw formats are written with the escape [\n]. *)
Definition NewTaskFormat (source : string) (quiet : bool) : string :=
  if String.eqb source TableFormatKey then
    if quiet then DefaultQuietFormat else defaultTaskTableFormat
  else if String.eqb source RawFormatKey then
    if quiet then "id: {{.ID}}"
    else "id: {{.ID}}\nname: {{.Name}}\nimage: {{.Image}}\nnode: {{.Node}}\ndesired_state: {{.DesiredState}}\ncurrent_state: {{.CurrentState}}\nerror: {{.Error}}\nports: {{.Ports}}\n"
  else source.

Record taskContext := {
  Header : gmap string string;   (* the embedded [formatter.HeaderContext] *)
  trunc : bool;
  task : swarm.Task;
  name : string;
  node : string
}.

Section Accessors.
Context `{Collaborators}.

Definition ID (c : taskContext) : string :=
  if trunc c then TruncateID (swarm.ID (task c)) else swarm.ID (task c).

Definition Name (c : taskContext) : string := name c.

(** [Image]; the container spec is a pointer that the accessor does not
    check, and reading [Image] through a nil pointer panics. *)
Definition Image (c : taskContext) : runtime.Result string :=
  match swarm.ContainerSpec_ (swarm.Spec (task c)) with
  | None => runtime.Panics runtime.nilDereference
  | Some spec =>
      let image := swarm.Image spec in
      runtime.Returns
        (if trunc c then
           match FamiliarTagged image with
           | Some familiar => familiar
           | None => image
           end
         else image)
  end.

Definition Node (c : taskContext) : string := node c.

Definition DesiredState (c : taskContext) : string :=
  PrettyPrint (swarm.DesiredState (task c)).

(** [CurrentState] reads the wall clock through [time.Since]. *)
Definition CurrentState (c : taskContext) : time.Ambient string :=
  fun wall =>
    PrettyPrint (swarm.State (swarm.Status (task c))) +:+ " " +:+
    text.ToLower
      (HumanDuration (time.Since (swarm.Timestamp (swarm.Status (task c))) wall))
    +:+ " ago".

Definition Error (c : taskContext) : string :=
  let taskErr := swarm.Err (swarm.Status (task c)) in
  let taskErr := if trunc c then Ellipsis taskErr maxErrLength else taskErr in
  if (0 <? String.length taskErr)%nat then text.quoted taskErr else taskErr.

(** One entry of [Ports]: the format [*:%d->%d/%s]. *)
Definition portEntry (pConfig : swarm.PortConfig) : string :=
  "*:" +:+ text.decimal (swarm.PublishedPort pConfig) +:+ "->" +:+
  text.decimal (swarm.TargetPort pConfig) +:+ "/" +:+ swarm.Protocol pConfig.

Definition Ports (c : taskContext) : string :=
  let configs := swarm.Ports (swarm.PortStatus_ (swarm.Status (task c))) in
  if (length configs =? 0)%nat then ""
  else
    let ports := fold_left (fun ports pConfig => ports ++ [portEntry pConfig])
                           configs [] in
    strings.Join ports ",".

(** An accessor that returns whatever the clock reads. *)
Definition returns (f : taskContext -> string) (c : taskContext) : Accessor :=
  fun _ => runtime.Returns (f c).

(** The accessors of [taskContext], by name. *)
Definition accessors : list (string * (taskContext -> Accessor)) :=
  [ ("CurrentState", fun c wall => runtime.Returns (CurrentState c wall));
    ("DesiredState", returns DesiredState);
    ("Error", returns Error);
    ("ID", returns ID);
    ("Image", fun c _ => Image c);
    ("Name", returns Name);
    ("Node", returns Node);
    ("Ports", returns Ports) ].

Definition methods (c : taskContext) : list (string * Accessor) :=
  List.map (fun a => (fst a, snd a c)) accessors.

(** [taskContext.MarshalJSON]. *)
Definition MarshalJSON (c : taskContext) : time.Timed (runtime.Result string) :=
  formatter.MarshalJSON (methods c).

(** The view the evaluator gets of a [*taskContext]. *)
Definition subContext (c : taskContext) : SubContext :=
  {| typeName := "*task.taskContext";
     formatter.methods := methods c;
     MarshalJSON_ := MarshalJSON c;
     formatter.Header := Header c |}.

(** The zero value of [swarm.Task]; the zero [time.Time] is the first
    instant of year 1. *)
Definition zeroTask : swarm.Task :=
  {| swarm.ID := "";
     swarm.Spec := {| swarm.ContainerSpec_ := None |};
     swarm.DesiredState := "";
     swarm.Status :=
       {| swarm.Timestamp := (-62135596800 * 1000000000)%Z;
          swarm.State := ""; swarm.Err := "";
          swarm.PortStatus_ := {| swarm.Ports := [] |} |} |}.

(** The header mapping that [FormatWrite] gives to the view of the header. *)
Definition taskHeader : gmap string string :=
  <["ID" := taskIDHeader]> (
  <["Name" := NameHeader]> (
  <["Image" := ImageHeader]> (
  <["Node" := nodeHeader]> (
  <["DesiredState" := desiredStateHeader]> (
  <["CurrentState" := currentStateHeader]> (
  <["Error" := ErrorHeader]> (
  <["Ports" := PortsHeader]> ∅))))))).

(** [FormatWrite]; a missing key of [names] or [nodes] reads as [""]. *)
Definition FormatWrite (ctx : Context) (tasks : list swarm.Task)
    (names nodes : gmap string string) (clock : time.Clock)
    : option (Sink * option error) :=
  let render : SubFormat := fun format =>
    forEach tasks (fun task =>
      let taskCtx :=
        {| Header := ∅; trunc := Trunc ctx; task := task;
           name := default "" (names !! swarm.ID task);
           node := default "" (nodes !! swarm.ID task) |} in
      format (subContext taskCtx)) in
  let taskCtx :=
    {| Header := taskHeader; trunc := false; task := zeroTask;
       name := ""; node := "" |} in
  Write ctx (subContext taskCtx) render clock.

End Accessors.

End task.

(** ** The checkpoint view ([cli/command/checkpoint]) *)

Module apicheckpoint.

(** [checkpoint.Summary] of the API: the name of the checkpoint. *)
Record Summary := { Name : string }.

End apicheckpoint.

Module checkpoint.

Import formatter.

Definition defaultCheckpointFormat : string := "table {{.Name}}".
Definition checkpointNameHeader : string := "CHECKPOINT NAME".

Definition NewFormat (source : string) : string :=
  if String.eqb source TableFormatKey then defaultCheckpointFormat
  else source.

Record checkpointContext := {
  Header : gmap string string;   (* the embedded [formatter.HeaderContext] *)
  c : apicheckpoint.Summary
}.

Definition newCheckpointContext : checkpointContext :=
  {| Header := <["Name" := checkpointNameHeader]> ∅;
     c := {| apicheckpoint.Name := "" |} |}.

Definition Name (cp : checkpointContext) : string := apicheckpoint.Name (c cp).

(** The accessors of [checkpointContext], by name. *)
Definition accessors : list (string * (checkpointContext -> string)) :=
  [ ("Name", Name) ].

Section Write.
Context `{Collaborators}.

Definition methods (cp : checkpointContext) : list (string * Accessor) :=
  List.map (fun a => (fst a, fun _ => runtime.Returns (snd a cp))) accessors.

Definition MarshalJSON (cp : checkpointContext) : time.Timed (runtime.Result string) :=
  formatter.MarshalJSON (methods cp).

Definition subContext (cp : checkpointContext) : SubContext :=
  {| typeName := "*checkpoint.checkpointContext";
     formatter.methods := methods cp;
     MarshalJSON_ := MarshalJSON cp;
     formatter.Header := Header cp |}.

Definition FormatWrite (ctx : Context) (checkpoints : list apicheckpoint.Summary)
    (clock : time.Clock) : option (Sink * option error) :=
  let render : SubFormat := fun format =>
    forEach checkpoints (fun cp =>
      format (subContext {| Header := ∅; c := cp |})) in
  Write ctx (subContext newCheckpointContext) render clock.
End Write.

End checkpoint.

(** ** Go maps *)

Module gomap.

(** The order in which one [range] loop visits the entries of a map.  Go
    leaves the order open and the run time varies it from one loop to the
    next. *)
Definition Range := gmap string string -> list (string * string).

(** What every such order does: it visits each entry of the map once. *)
Definition permitted (range : Range) : Prop :=
  forall m : gmap string string, range m ≡ₚ map_to_list m.

(** Two orders: by ascending key, and by descending key. *)
Definition ascending : Range :=
  fun m => merge_sort (fun a b => String.le (fst a) (fst b)) (map_to_list m).

Definition descending : Range := fun m => reverse (ascending m).

(** An order that visits one map as a given list tells. *)
Definition visiting (labels : gmap string string) (entries : list (string * string))
    : Range :=
  fun m => if decide (m = labels) then entries else map_to_list m.

(** The map that a literal builds, entry after entry. *)
Definition literal (entries : list (string * string)) : gmap string string :=
  fold_left (fun m kv => <[fst kv := snd kv]> m) entries ∅.

End gomap.

(** ** The labels of a network ([cli/command/network]) *)

Module apinetwork.

(** What the [Labels] accessor reads of a [network.Summary]: a Go map from
    label to value, as the literals of the tests build it. *)
Record Summary := { Labels : gmap string string }.

End apinetwork.

Module network.

Record networkContext := { trunc : bool; n : apinetwork.Summary }.

Definition labelEntry (kv : string * string) : string :=
  fst kv +:+ "=" +:+ snd kv.

(** Modelled from the spec: the [Labels] accessor of the network view,
    missing from the sources, renders the labels as a comma-joined string
    with one [key=value] entry per label.  The labels are a Go map, which
    keeps no order of insertion; the entries come in the order in which the
    accessor's loop over the map visits them. *)
Definition Labels (range : gomap.Range) (c : networkContext) : string :=
  strings.Join (List.map labelEntry (range (apinetwork.Labels (n c)))) ",".

End network.

(** ** [service ps] ([cli/command/service]) *)

Module service.

(** What [createFilter] reads of a [swarm.Service]: [s.ID] and
    [s.Spec.Annotations.Name]. *)
Record Service := { ID : string; Name : string }.

(** The part of the API client that [runPS] and [createFilter] call. *)
Record APIClient := {
  ServiceList : filters.Args -> error + list Service;
  TaskList : filters.Args -> error + list swarm.Task
}.

Record psOptions := {
  services : list string;
  quiet : bool;
  noResolve : bool;
  noTrunc : bool;
  format : string;
  filter : filters.Args   (* [options.filter.Value()] *)
}.

(** First loop of the body: [s.ID == service]. *)
Fixpoint matchFullID (service : string) (l : list Service) : option string :=
  match l with
  | [] => None
  | s :: l' => if String.eqb (ID s) service then Some (ID s)
               else matchFullID service l'
  end.

(** Second loop: [s.Spec.Annotations.Name == service]. *)
Fixpoint matchFullName (service : string) (l : list Service) : option string :=
  match l with
  | [] => None
  | s :: l' => if String.eqb (Name s) service then Some (ID s)
               else matchFullName service l'
  end.

(** Third loop, with its [found] flag and its early return.  [inl] is the
    [return filter, nil, errors.New(...)] in the loop. *)
Fixpoint matchPrefix (service : string) (l : list Service)
    (flt : filters.Args) (serviceCount : nat) (found : bool)
    : (filters.Args * error) + (filters.Args * nat * bool) :=
  match l with
  | [] => inr (flt, serviceCount, found)
  | s :: l' =>
      if strings.HasPrefix (ID s) service then
        if found then
          inl (flt, "multiple services found with provided prefix: " +:+ service)
        else
          matchPrefix service l' (filters.Add "service" (ID s) flt)
                      (S serviceCount) true
      else matchPrefix service l' flt serviceCount found
  end.

(** The labelled loop over [options.services].  [serviceCount] grows by at
    most one per requested service, so it stays below the length of the
    slice and the Go [int] cannot wrap. *)
Fixpoint matchLoop (svcs : list string) (serviceByIDList serviceByNameList : list Service)
    (flt : filters.Args) (notfound : list string) (serviceCount : nat)
    : (filters.Args * error) + (filters.Args * list string * nat) :=
  match svcs with
  | [] => inr (flt, notfound, serviceCount)
  | service :: rest =>
      match matchFullID service serviceByIDList with
      | Some id =>
          matchLoop rest serviceByIDList serviceByNameList
                    (filters.Add "service" id flt) notfound (S serviceCount)
      | None =>
      match matchFullName service serviceByNameList with
      | Some id =>
          matchLoop rest serviceByIDList serviceByNameList
                    (filters.Add "service" id flt) notfound (S serviceCount)
      | None =>
      match matchPrefix service serviceByIDList flt serviceCount false with
      | inl e => inl e
      | inr (flt', serviceCount', found) =>
          matchLoop rest serviceByIDList serviceByNameList flt'
                    (if found then notfound
                     else notfound ++ ["no such service: " +:+ service])
                    serviceCount'
      end end end
  end.

Definition serviceIDFilter (svcs : list string) : filters.Args :=
  fold_left (fun a s => filters.Add "id" s a) svcs filters.NewArgs.

Definition serviceNameFilter (svcs : list string) : filters.Args :=
  fold_left (fun a s => filters.Add "name" s a) svcs filters.NewArgs.

(** [createFilter]: the returned triple [(filter, notfound, err)]; a [nil]
    slice is the empty list and a [nil] error is [None]. *)
Definition createFilter (apiClient : APIClient) (options : psOptions)
    : filters.Args * list string * option error :=
  let flt := filter options in
  match ServiceList apiClient (serviceIDFilter (services options)) with
  | inl err => (flt, [], Some err)
  | inr serviceByIDList =>
  match ServiceList apiClient (serviceNameFilter (services options)) with
  | inl err => (flt, [], Some err)
  | inr serviceByNameList =>
  match matchLoop (services options) serviceByIDList serviceByNameList flt [] 0 with
  | inl (flt', err) => (flt', [], Some err)
  | inr (flt', notfound, serviceCount) =>
      if Nat.eqb serviceCount 0 then
        (flt', [], Some (strings.Join notfound strings.newline))
      else (flt', notfound, None)
  end end end.

(** The arguments of the call of [task.Print] in [runPS]; [noResolve] stands
    for the resolver [idresolver.New(apiClient, options.noResolve)]. *)
Record PrintCall := {
  printTasks : list swarm.Task;
  printNoResolve : bool;
  printTrunc : bool;
  printQuiet : bool;
  printFormat : string
}.

Section RunPS.

(** Collaborators of [runPS] that are not among the sources: the
    configuration file of the client with [task.DefaultFormat],
    [node.Reference] and [task.Print]. *)
Variable ConfigFile : Type.
Variable DefaultFormat : ConfigFile -> bool -> string.
Variable Reference : string -> error + string.
Variable Print : PrintCall -> option error.

(** The loop of [updateNodeFilter] over [filter.Get("node")]. *)
Fixpoint updateNodes (nodeFilters : list string) (flt : filters.Args)
    : error + filters.Args :=
  match nodeFilters with
  | [] => inr flt
  | nodeFilter :: rest =>
      match Reference nodeFilter with
      | inl err => inl err
      | inr nodeReference =>
          updateNodes rest
            (filters.Add "node" nodeReference (filters.Del "node" nodeFilter flt))
      end
  end.

(** [updateNodeFilter]; Go leaves the order of [filter.Get] unspecified, the
    values are taken in the order of [elements]. *)
Definition updateNodeFilter (flt : filters.Args) : error + filters.Args :=
  if filters.Contains "node" flt
  then updateNodes (elements (filters.Get "node" flt)) flt
  else inr flt.

(** Lines 76 to 83 of [runPS]: the format, then the override of
    [options.noTrunc], then the call. *)
Definition printCall (configFile : ConfigFile) (options : psOptions)
    (tasks : list swarm.Task) : PrintCall :=
  let format := format options in
  let format :=
    if (String.length format =? 0)%nat
    then DefaultFormat configFile (quiet options)
    else format in
  let noTrunc := if quiet options then true else noTrunc options in
  {| printTasks := tasks;
     printNoResolve := noResolve options;
     printTrunc := negb noTrunc;
     printQuiet := quiet options;
     printFormat := format |}.

(** [runPS]: the call of [task.Print] it makes, if it makes one, and the
    error it returns. *)
Definition runPS (configFile : ConfigFile) (apiClient : APIClient)
    (options : psOptions) : option PrintCall * option error :=
  match createFilter apiClient options with
  | (_, _, Some err) => (None, Some err)
  | (flt, notfound, None) =>
  match updateNodeFilter flt with
  | inl err => (None, Some err)
  | inr flt =>
  match TaskList apiClient flt with
  | inl err => (None, Some err)
  | inr tasks =>
      let call := printCall configFile options tasks in
      match Print call with
      | Some err => (Some call, Some err)
      | None =>
          if (length notfound =? 0)%nat then (Some call, None)
          else (Some call, Some (strings.Join notfound strings.newline))
      end
  end end end.

End RunPS.

End service.

(** ** A choice of the collaborators, for the examples

    [PrettyPrint] capitalises the first letter; [HumanDuration] is the scale
    of [go-units], computed on integers; [jsonString] quotes a text and
    escapes its quotes and backslashes; the image is kept as it is; short
    identifiers have twelve characters. *)

Module Sample.

Definition capitalize (s : string) : string :=
  match s with
  | "" => ""
  | String c s' => String (text.upperChar c) s'
  end.

Definition count (n : Z) (unit : string) : string :=
  text.decimal (Z.to_N n) +:+ " " +:+ unit.

Definition humanDuration (d : time.Duration) : string :=
  let seconds := (d ÷ time.Second)%Z in
  let minutes := (d ÷ (60 * time.Second))%Z in
  let hours := ((d + 1800 * time.Second) ÷ (3600 * time.Second))%Z in
  if (seconds <? 1)%Z then "Less than a second"
  else if (seconds =? 1)%Z then "1 second"
  else if (seconds <? 60)%Z then count seconds "seconds"
  else if (minutes =? 1)%Z then "About a minute"
  else if (minutes <? 60)%Z then count minutes "minutes"
  else if (hours =? 1)%Z then "About an hour"
  else if (hours <? 48)%Z then count hours "hours"
  else if (hours <? 24 * 7 * 2)%Z then count (hours ÷ 24) "days"
  else if (hours <? 24 * 30 * 2)%Z then count (hours ÷ 24 ÷ 7) "weeks"
  else if (hours <? 24 * 365 * 2)%Z then count (hours ÷ 24 ÷ 30) "months"
  else count (d ÷ (3600 * time.Second) ÷ 24 ÷ 365) "years".

Fixpoint escape (s : string) : string :=
  match s with
  | "" => ""
  | String c s' =>
      if Ascii.eqb c (ascii_of_nat 34) || Ascii.eqb c "\"
      then String "\" (String c (escape s'))
      else String c (escape s')
  end.

Definition jsonQuote (s : string) : string := text.quoted (escape s).

#[export] Instance collaborators : Collaborators := {|
  PrettyPrint := capitalize;
  FamiliarTagged := fun _ => None;
  HumanDuration := humanDuration;
  jsonString := jsonQuote;
  NameHeader := "NAME";
  ImageHeader := "IMAGE";
  ErrorHeader := "ERROR";
  PortsHeader := "PORTS";
  shortLen := 12
|}.

Definition mkTask (id image state : string) (timestamp : time.Time) (err : string)
    (ports : list swarm.PortConfig) : swarm.Task :=
  {| swarm.ID := id;
     swarm.Spec := {| swarm.ContainerSpec_ := Some {| swarm.Image := image |} |};
     swarm.DesiredState := state;
     swarm.Status :=
       {| swarm.Timestamp := timestamp; swarm.State := state; swarm.Err := err;
          swarm.PortStatus_ := {| swarm.Ports := ports |} |} |}.

Definition task1 : swarm.Task :=
  mkTask "taskID1" "nginx:latest" "running" 0%Z ""
    [ {| swarm.Protocol := "tcp"; swarm.TargetPort := 80; swarm.PublishedPort := 8080 |};
      {| swarm.Protocol := "udp"; swarm.TargetPort := 53; swarm.PublishedPort := 5353 |} ].

Definition task2 : swarm.Task :=
  mkTask "taskID2" "redis:7" "shutdown" 0%Z "task: non-zero exit (1)" [].

Definition names : gmap string string :=
  <["taskID1" := "web.1"]> (<["taskID2" := "web.2"]> ∅).

Definition nodes : gmap string string :=
  <["taskID1" := "node-a"]> (<["taskID2" := "node-b"]> ∅).

(** Three services of an engine, the answer of the engine to both queries of
    [createFilter], and a request. *)
Definition engineServices : list service.Service :=
  [ {| service.ID := "4kq1"; service.Name := "web" |};
    {| service.ID := "4kq2"; service.Name := "db" |};
    {| service.ID := "7xyz"; service.Name := "4kq1" |} ].

Definition apiClient : service.APIClient :=
  {| service.ServiceList := fun _ => inr engineServices;
     service.TaskList := fun _ => inr [task1; task2] |}.

Definition request (names : list string) (quiet noTrunc : bool) (format : string)
    : service.psOptions :=
  {| service.services := names;
     service.quiet := quiet;
     service.noResolve := false;
     service.noTrunc := noTrunc;
     service.format := format;
     service.filter := ∅ |}.

(** The labels of the test of the network view, as its literal builds
    them. *)
Definition labels : apinetwork.Summary :=
  {| apinetwork.Labels := gomap.literal [("label1", "value1"); ("label2", "value2")] |}.

(** A clock that reads five seconds at the first call of a run and one
    second more at each call that follows, and a clock that stands still. *)
Definition ticking : time.Clock :=
  fun k => ((5 + Z.of_nat k) * time.Second)%Z.

Definition still : time.Clock := fun _ => 0%Z.

(** A task that has no container spec. *)
Definition bare : swarm.Task :=
  {| swarm.ID := "taskID3";
     swarm.Spec := {| swarm.ContainerSpec_ := None |};
     swarm.DesiredState := "running";
     swarm.Status :=
       {| swarm.Timestamp := 0%Z; swarm.State := "running"; swarm.Err := "";
          swarm.PortStatus_ := {| swarm.Ports := [] |} |} |}.

(** Twenty characters of two bytes each. *)
Definition accents : string :=
  utf8.encode (replicate 20 (String (ascii_of_nat 195) (String (ascii_of_nat 169) ""))).

End Sample.

(** * Specifications *)

(** ** The resolution of a requested service, in the words of the
    specification: the full identifier first, then the full name, then an
    identifier prefix that only one service has. *)

Module resolution.

Import service.

Inductive Resolution :=
| Matched (id : string)
| Ambiguous (first : string)
| NotFound.

Definition resolve (serviceByIDList serviceByNameList : list Service)
    (name : string) : Resolution :=
  match List.find (fun s => String.eqb (ID s) name) serviceByIDList with
  | Some s => Matched (ID s)
  | None =>
  match List.find (fun s => String.eqb (Name s) name) serviceByNameList with
  | Some s => Matched (ID s)
  | None =>
  match List.filter (fun s => strings.HasPrefix (ID s) name) serviceByIDList with
  | [] => NotFound
  | [s] => Matched (ID s)
  | s :: _ :: _ => Ambiguous (ID s)
  end end end.

Definition matched (r : Resolution) : option string :=
  match r with Matched id => Some id | _ => None end.

Definition isNotFound (r : Resolution) : bool :=
  match r with NotFound => true | _ => false end.

Definition isAmbiguous (r : Resolution) : bool :=
  match r with Ambiguous _ => true | _ => false end.

(** The identifiers of the requested services that resolve, in the order of
    the request. *)
Definition matchedIDs (byID byName : list Service) (names : list string) : list string :=
  omap (fun name => matched (resolve byID byName name)) names.

(** The requested services that match nothing. *)
Definition missing (byID byName : list Service) (names : list string) : list string :=
  List.filter (fun name => isNotFound (resolve byID byName name)) names.

Definition unambiguous (byID byName : list Service) (names : list string) : Prop :=
  Forall (fun name => isAmbiguous (resolve byID byName name) = false) names.

Definition addServices (ids : list string) (flt : filters.Args) : filters.Args :=
  fold_left (fun f id => filters.Add "service" id f) ids flt.

Definition noSuchService (name : string) : string := "no such service: " +:+ name.

Definition multipleServices (name : string) : string :=
  "multiple services found with provided prefix: " +:+ name.

End resolution.

(** ** Layouts, in the words of the specification *)

Module layout.

(** One line of a raw block: a key, a colon and the field. *)
Definition rawLine (key field : string) : string :=
  key +:+ ": {{." +:+ field +:+ "}}".

(** A raw block: one line per field, each closed by the escape [\n]. *)
Fixpoint rawBlock (fields : list (string * string)) : string :=
  match fields with
  | [] => ""
  | (key, field) :: rest => rawLine key field +:+ "\n" +:+ rawBlock rest
  end.

(** The keys and the fields of the raw block of a task. *)
Definition taskFields : list (string * string) :=
  [ ("id", "ID"); ("name", "Name"); ("image", "Image"); ("node", "Node");
    ("desired_state", "DesiredState"); ("current_state", "CurrentState");
    ("error", "Error"); ("ports", "Ports") ].

(** The fields that the template of a format refers to. *)
Definition columns (format : string) : list string :=
  match formatter.parseFormat {| formatter.Format := format; formatter.Trunc := false |} with
  | Some (inr tmpl) => formatter.referenced tmpl []
  | _ => []
  end.

(** A text made of one line per entity, each line an identifier and nothing
    else. *)
Fixpoint lines (ids : list string) : string :=
  match ids with
  | [] => ""
  | id :: rest => id +:+ strings.newline +:+ lines rest
  end.

(** The view [task.FormatWrite] builds of one task. *)
Definition taskView (trunc : bool) (names nodes : gmap string string)
    (t : swarm.Task) : task.taskContext :=
  {| task.Header := ∅; task.trunc := trunc; task.task := t;
     task.name := default "" (names !! swarm.ID t);
     task.node := default "" (nodes !! swarm.ID t) |}.

(** The texts that an accessor returns for the tasks when it is called for
    each in turn, from the call number [k] of the run on; [None] when one of
    the calls panics. *)
Fixpoint fieldValues (accessor : task.taskContext -> formatter.Accessor)
    (trunc : bool) (names nodes : gmap string string) (clock : time.Clock)
    (k : nat) (tasks : list swarm.Task) : option (list string) :=
  match tasks with
  | [] => Some []
  | t :: rest =>
      match accessor (taskView trunc names nodes t) (clock k) with
      | runtime.Returns v =>
          match fieldValues accessor trunc names nodes clock (S k) rest with
          | Some vs => Some (v :: vs)
          | None => None
          end
      | runtime.Panics _ => None
      end
  end.

(** A task view that differs in the moment of the status only. *)
Definition atTimestamp (timestamp : time.Time) (c : task.taskContext) : task.taskContext :=
  let t := task.task c in
  let st := swarm.Status t in
  {| task.Header := task.Header c; task.trunc := task.trunc c;
     task.task :=
       {| swarm.ID := swarm.ID t; swarm.Spec := swarm.Spec t;
          swarm.DesiredState := swarm.DesiredState t;
          swarm.Status :=
            {| swarm.Timestamp := timestamp; swarm.State := swarm.State st;
               swarm.Err := swarm.Err st; swarm.PortStatus_ := swarm.PortStatus_ st |} |};
     task.name := task.name c; task.node := task.node c |}.

(** The options of [service ps] with another [--no-trunc]. *)
Definition withNoTrunc (noTrunc : bool) (options : service.psOptions) : service.psOptions :=
  {| service.services := service.services options;
     service.quiet := service.quiet options;
     service.noResolve := service.noResolve options;
     service.noTrunc := noTrunc;
     service.format := service.format options;
     service.filter := service.filter options |}.

End layout.

(** * [docker pull] ([cli/command/image]) *)

Module image.

(** [pullOptions]. *)
Record pullOptions := {
  remote : string;
  all : bool;
  platform : string;
  quiet : bool;
  untrusted : bool
}.

(** What a run of the command does that can be observed from outside: the
    lines it prints on [dockerCLI.Out()] and the calls it makes to the trust
    resolution, to the trusted pull and to the engine. *)
Inductive Event :=
| Printed (text : string)
| Resolved (ref : string)
| Trusted (ref : string)
| Pulled (ref registryAuth : string) (allTags : bool) (platforms : list string).

(** How a call ends: it returns [nil], it returns an error, or it panics. *)
Inductive Outcome :=
| Done
| Failed (err : error)
| Panicked.

(** [fmt.Fprintln] of one operand, and of two. *)
Definition line (s : string) : string := s +:+ strings.newline.
Definition line2 (s t : string) : string := s +:+ " " +:+ t +:+ strings.newline.

Section Pull.

(** Collaborators that are not among the sources.  [Named] is a
    [reference.Named]; [Tag] is the assertion to [reference.Tagged] and its
    tag, [IsCanonical] the assertion to [reference.Canonical].
    [platformsParse] is [platforms.Parse], of which only success or failure
    is used.  [GetImageReferencesAndAuth] gives the reference and the
    credentials of [imgRefAndAuth].  [trustedPull] is the function of this
    package in another file: what it prints and calls, and how it ends.
    [Display] is [jsonstream.Display]: the text it writes to its output and
    the error it returns. *)
Variables Named AuthConfig Body : Type.
Variable ParseNormalizedNamed : string -> error + Named.
Variable IsNameOnly : Named -> bool.
Variable TagNameOnly : Named -> Named.
Variable Tag : Named -> option string.
Variable IsCanonical : Named -> bool.
Variable RefString : Named -> string.
Variable FamiliarString : Named -> string.
Variable platformsParse : string -> option error.
Variable GetImageReferencesAndAuth : string -> error + (Named * AuthConfig).
Variable trustedPull : Named * AuthConfig -> pullOptions -> list Event * Outcome.
Variable Encode : AuthConfig -> error + string.
Variable ImagePull : string -> string -> bool -> list string -> error + Body.
Variable Display : Body -> string * option error.

(** [imagePullPrivileged].  [platforms.MustParse] panics where
    [platforms.Parse] fails; a parsed platform is passed on as the string it
    was parsed from. *)
Definition imagePullPrivileged (ref : Named) (authConfig : AuthConfig)
    (opts : pullOptions) : list Event * Outcome :=
  match Encode authConfig with
  | inl err => ([], Failed err)
  | inr encodedAuth =>
  match
    (if negb (String.eqb (platform opts) "") then
       match platformsParse (platform opts) with
       | None => Some [platform opts]
       | Some _ => None
       end
     else Some [])
  with
  | None => ([], Panicked)
  | Some ociPlatforms =>
      let call :=
        Pulled (FamiliarString ref) encodedAuth (all opts) ociPlatforms in
      match ImagePull (FamiliarString ref) encodedAuth (all opts) ociPlatforms with
      | inl err => ([call], Failed err)
      | inr responseBody =>
          let (text, err) := Display responseBody in
          ((if quiet opts then [call] else [call; Printed text]),
           match err with Some e => Failed e | None => Done end)
      end
  end end.

(** [runPull]. *)
Definition runPull (opts : pullOptions) : list Event * Outcome :=
  match ParseNormalizedNamed (remote opts) with
  | inl err => ([], Failed err)
  | inr parsed =>
  if all opts && negb (IsNameOnly parsed) then
    ([], Failed "tag can't be used with --all-tags/-a")
  else
    let distributionRef :=
      if negb (all opts) && IsNameOnly parsed then TagNameOnly parsed else parsed in
    let announce :=
      if negb (all opts) && IsNameOnly parsed then
        match Tag distributionRef with
        | Some tag =>
            if negb (quiet opts) then [Printed (line2 "Using default tag:" tag)] else []
        | None => []
        end
      else [] in
    match
      (if negb (String.eqb (platform opts) "") then platformsParse (platform opts)
       else None)
    with
    | Some err => (announce, Failed err)
    | None =>
    match GetImageReferencesAndAuth (RefString distributionRef) with
    | inl err => (announce ++ [Resolved (RefString distributionRef)], Failed err)
    | inr imgRefAndAuth =>
        let resolved := announce ++ [Resolved (RefString distributionRef)] in
        let (events, outcome) :=
          if negb (untrusted opts) && negb (IsCanonical distributionRef) then
            let (evs, out) := trustedPull imgRefAndAuth opts in
            (Trusted (RefString (fst imgRefAndAuth)) :: evs, out)
          else imagePullPrivileged (fst imgRefAndAuth) (snd imgRefAndAuth) opts in
        match outcome with
        | Done =>
            (resolved ++ events ++ [Printed (line (RefString (fst imgRefAndAuth)))],
             Done)
        | _ => (resolved ++ events, outcome)
        end
    end end
  end.

End Pull.

(** The texts printed, in order. *)
Definition printed (events : list Event) : list string :=
  omap (fun e => match e with Printed text => Some text | _ => None end) events.

(** The calls to the registry side: trust resolution, trusted pull, pull. *)
Definition isCall (e : Event) : bool :=
  match e with Printed _ => false | _ => true end.

End image.

(** * More definitions for the statements below *)

Module views.

(** A task view with other ports in its port status. *)
Definition withPorts (ports : list swarm.PortConfig) (c : task.taskContext)
    : task.taskContext :=
  let t := task.task c in
  let st := swarm.Status t in
  {| task.Header := task.Header c; task.trunc := task.trunc c;
     task.task :=
       {| swarm.ID := swarm.ID t; swarm.Spec := swarm.Spec t;
          swarm.DesiredState := swarm.DesiredState t;
          swarm.Status :=
            {| swarm.Timestamp := swarm.Timestamp st; swarm.State := swarm.State st;
               swarm.Err := swarm.Err st;
               swarm.PortStatus_ := {| swarm.Ports := ports |} |} |};
     task.name := task.name c; task.node := task.node c |}.

(** The options of [service ps] with other requested services. *)
Definition withServices (names : list string) (options : service.psOptions)
    : service.psOptions :=
  {| service.services := names;
     service.quiet := service.quiet options;
     service.noResolve := service.noResolve options;
     service.noTrunc := service.noTrunc options;
     service.format := service.format options;
     service.filter := service.filter options |}.

(** The view [checkpoint.FormatWrite] builds of one checkpoint. *)
Definition checkpointView (cp : apicheckpoint.Summary) : checkpoint.checkpointContext :=
  {| checkpoint.Header := ∅; checkpoint.c := cp |}.

(** A service matches a requested name when its identifier starts with the
    name, or when its name is the requested one. *)
Definition matches (byID byName : list service.Service) (name id : string) : Prop :=
  exists s : service.Service,
    service.ID s = id
    /\ ((s ∈ byID /\ strings.HasPrefix (service.ID s) name = true)
        \/ (s ∈ byName /\ service.Name s = name)).

(** The options of [docker pull] with another [--quiet]. *)
Definition withQuiet (quiet : bool) (opts : image.pullOptions) : image.pullOptions :=
  {| image.remote := image.remote opts;
     image.all := image.all opts;
     image.platform := image.platform opts;
     image.quiet := quiet;
     image.untrusted := image.untrusted opts |}.

(** The calls among the events, in order. *)
Definition calls (events : list image.Event) : list image.Event :=
  List.filter image.isCall events.


(** The filter that the loop of [createFilter] hands back, on either exit. *)
Definition loopFilter
    (r : (filters.Args * error) + (filters.Args * list string * nat)) : filters.Args :=
  match r with
  | inl (flt, _) => flt
  | inr (flt, _, _) => flt
  end.

End views.

(** * Data for the examples of the statements below *)

Module Fixture.

(** A filter of the user with two node values and a label. *)
Definition nodeFilter : filters.Args :=
  filters.Add "node" "self"
    (filters.Add "node" "worker1" (filters.Add "label" "tier=web" ∅)).

(** A resolution of nodes: [self] is the node [k3x9], [ghost] is unknown and
    any other value is its own reference. *)
Definition reference (n : string) : error + string :=
  if String.eqb n "self" then inr "k3x9"
  else if String.eqb n "ghost" then inl "no such node: ghost"
  else inr n.

(** The filter above with its nodes resolved. *)
Definition resolvedFilter : filters.Args :=
  filters.Add "node" "k3x9"
    (filters.Add "node" "worker1" (filters.Add "label" "tier=web" ∅)).

(** A filter whose node values are their own references. *)
Definition plainFilter : filters.Args :=
  filters.Add "node" "worker1" (filters.Add "node" "worker2" ∅).

(** A reference as [docker pull] sees it: a repository, a tag or none, a
    digest or none. *)
Record Ref := { repo : string; tag : option string; digest : option string }.

(** The references of the examples. *)
Definition parse (s : string) : error + Ref :=
  if String.eqb s "busybox" then
    inr {| repo := "docker.io/library/busybox"; tag := None; digest := None |}
  else if String.eqb s "busybox:1.36" then
    inr {| repo := "docker.io/library/busybox"; tag := Some "1.36"; digest := None |}
  else inl "invalid reference format".

Definition isNameOnly (r : Ref) : bool :=
  match tag r, digest r with None, None => true | _, _ => false end.

Definition tagNameOnly (r : Ref) : Ref :=
  if isNameOnly r then {| repo := repo r; tag := Some "latest"; digest := None |}
  else r.

Definition isCanonical (r : Ref) : bool :=
  match digest r with Some _ => true | None => false end.

Definition refString (r : Ref) : string :=
  repo r +:+ match tag r with Some t => ":" +:+ t | None => "" end
         +:+ match digest r with Some d => "@" +:+ d | None => "" end.

Definition familiarString (r : Ref) : string :=
  text.drop 18 (refString r).

Definition platformsParse (p : string) : option error :=
  if String.eqb p "linux/amd64" then None else Some "invalid platform".

(** The trust resolution hands back the reference it was given. *)
Definition getImageReferencesAndAuth (s : string) : error + (Ref * unit) :=
  if String.eqb s "docker.io/library/busybox:latest" then
    inr ({| repo := "docker.io/library/busybox"; tag := Some "latest";
            digest := None |}, tt)
  else if String.eqb s "docker.io/library/busybox:1.36" then
    inr ({| repo := "docker.io/library/busybox"; tag := Some "1.36";
            digest := None |}, tt)
  else inl "unknown reference".

Definition trustedPull (r : Ref * unit) (opts : image.pullOptions)
    : list image.Event * image.Outcome := ([], image.Done).

(** A trusted pull that panics. *)
Definition panickingPull (r : Ref * unit) (opts : image.pullOptions)
    : list image.Event * image.Outcome := ([], image.Panicked).

Definition pull (opts : image.pullOptions) : list image.Event * image.Outcome :=
  image.runPull Ref unit unit parse isNameOnly tagNameOnly tag isCanonical
    refString familiarString platformsParse getImageReferencesAndAuth trustedPull
    (fun _ => inr "e30=") (fun _ _ _ _ => inr tt)
    (fun _ => ("Status: Downloaded newer image for busybox:latest", None)) opts.

(** A printer that prints without error. *)
Definition print (call : service.PrintCall) : option error := None.

(** The default format of tasks, whatever the configuration. *)
Definition defaultFormat (configFile : unit) (quiet : bool) : string := "table".

End Fixture.

(** * Properties *)

(** ** [createFilter] *)

Section CreateFilter.

Import service resolution.

Variables serviceByIDList serviceByNameList : list Service.

Lemma matchFullID_find (name : string) (l : list Service) :
  matchFullID name l = ID <$> List.find (fun s => String.eqb (ID s) name) l.
Proof.
  induction l as [|s l IH]; simpl; [done|].
  destruct (String.eqb (ID s) name); [done|apply IH].
Qed.

Lemma matchFullName_find (name : string) (l : list Service) :
  matchFullName name l = ID <$> List.find (fun s => String.eqb (Name s) name) l.
Proof.
  induction l as [|s l IH]; simpl; [done|].
  destruct (String.eqb (Name s) name); [done|apply IH].
Qed.

(** Once a prefix match is found, a second one is the error. *)
Lemma matchPrefix_found (name : string) (l : list Service) (flt : filters.Args) (n : nat) :
  matchPrefix name l flt n true =
    match List.filter (fun s => strings.HasPrefix (ID s) name) l with
    | [] => inr (flt, n, true)
    | _ :: _ => inl (flt, multipleServices name)
    end.
Proof.
  induction l as [|s l IH]; simpl; [done|].
  destruct (strings.HasPrefix (ID s) name); [done|apply IH].
Qed.

Lemma matchPrefix_fresh (name : string) (l : list Service) (flt : filters.Args) (n : nat) :
  matchPrefix name l flt n false =
    match List.filter (fun s => strings.HasPrefix (ID s) name) l with
    | [] => inr (flt, n, false)
    | [s] => inr (filters.Add "service" (ID s) flt, S n, true)
    | s :: _ :: _ => inl (filters.Add "service" (ID s) flt, multipleServices name)
    end.
Proof.
  revert flt n. induction l as [|s l IH]; intros flt n; simpl; [done|].
  destruct (strings.HasPrefix (ID s) name); [|apply IH].
  rewrite matchPrefix_found.
  by destruct (List.filter _ l).
Qed.

(** One turn of the labelled loop is the resolution of its service. *)
Lemma matchLoop_step (name : string) (rest : list string)
    (flt : filters.Args) (notfound : list string) (n : nat) :
  matchLoop (name :: rest) serviceByIDList serviceByNameList flt notfound n =
    match resolve serviceByIDList serviceByNameList name with
    | Matched id =>
        matchLoop rest serviceByIDList serviceByNameList
                  (filters.Add "service" id flt) notfound (S n)
    | NotFound =>
        matchLoop rest serviceByIDList serviceByNameList flt
                  (notfound ++ [noSuchService name]) n
    | Ambiguous first =>
        inl (filters.Add "service" first flt, multipleServices name)
    end.
Proof.
  simpl. unfold resolve.
  rewrite matchFullID_find, matchFullName_find, matchPrefix_fresh.
  destruct (List.find _ serviceByIDList); simpl; [done|].
  destruct (List.find _ serviceByNameList); simpl; [done|].
  destruct (List.filter _ serviceByIDList) as [|s [|s' l]]; done.
Qed.

Lemma addServices_app (ids ids' : list string) (flt : filters.Args) :
  addServices (ids ++ ids') flt = addServices ids' (addServices ids flt).
Proof. apply fold_left_app. Qed.

Lemma matchLoop_unambiguous (names : list string) :
  unambiguous serviceByIDList serviceByNameList names ->
  forall (flt : filters.Args) (notfound : list string) (n : nat),
  matchLoop names serviceByIDList serviceByNameList flt notfound n =
    inr (addServices (matchedIDs serviceByIDList serviceByNameList names) flt,
         notfound ++ List.map noSuchService
                       (missing serviceByIDList serviceByNameList names),
         n + length (matchedIDs serviceByIDList serviceByNameList names)).
Proof.
  induction 1 as [|name names Hname _ IH]; intros flt notfound n.
  - simpl. by rewrite app_nil_r, Nat.add_0_r.
  - rewrite matchLoop_step. unfold matchedIDs, missing in *. simpl.
    destruct (resolve serviceByIDList serviceByNameList name) eqn:R;
      simpl in *; [|done|].
    + rewrite IH. simpl. by rewrite Nat.add_succ_r.
    + rewrite IH. simpl. by rewrite <- app_assoc.
Qed.

Lemma matchLoop_ambiguous (pre : list string) (name : string) (post : list string)
    (first : string) :
  unambiguous serviceByIDList serviceByNameList pre ->
  resolve serviceByIDList serviceByNameList name = Ambiguous first ->
  forall (flt : filters.Args) (notfound : list string) (n : nat),
  matchLoop (pre ++ name :: post) serviceByIDList serviceByNameList flt notfound n =
    inl (addServices (matchedIDs serviceByIDList serviceByNameList pre ++ [first]) flt,
         multipleServices name).
Proof.
  intros Hpre Hname. induction Hpre as [|p pre Hp _ IH]; intros flt notfound n.
  - simpl app. rewrite matchLoop_step, Hname. done.
  - change ((p :: pre) ++ name :: post) with (p :: (pre ++ name :: post)).
    rewrite matchLoop_step. unfold matchedIDs in *. simpl.
    destruct (resolve serviceByIDList serviceByNameList p) eqn:R;
      simpl in *; [|done|]; by rewrite IH.
Qed.

End CreateFilter.

Section CreateFilterResult.

Import service resolution.

(** C10.  When both queries of the engine succeed, [createFilter] resolves
    each requested service by its full identifier first, then by its full
    name, then by an identifier prefix that a single service has
    ([resolve]).  At the first requested service whose prefix several services
    share it returns the error [multiple services found with provided prefix:]
    and the name, the filter holding the services matched so far and the
    first service of that prefix, and nothing more.  When no prefix is shared,
    every service that matches nothing is recorded as [no such service:] and
    its name; the call returns these messages joined by newlines as its error
    when no requested service matched at all, and the filter with every match
    and the list of messages otherwise. *)
Theorem createFilter_precedence (apiClient : APIClient) (options : psOptions)
    (byID byName : list Service) :
  ServiceList apiClient (serviceIDFilter (services options)) = inr byID ->
  ServiceList apiClient (serviceNameFilter (services options)) = inr byName ->
  (forall (pre : list string) (name : string) (post : list string) (first : string),
      services options = pre ++ name :: post ->
      unambiguous byID byName pre ->
      resolve byID byName name = Ambiguous first ->
      createFilter apiClient options =
        (addServices (matchedIDs byID byName pre ++ [first]) (filter options),
         [], Some (multipleServices name)))
  /\ (unambiguous byID byName (services options) ->
      let ids := matchedIDs byID byName (services options) in
      let notfound := List.map noSuchService (missing byID byName (services options)) in
      createFilter apiClient options =
        if bool_decide (ids = [])
        then (filter options, [], Some (strings.Join notfound strings.newline))
        else (addServices ids (filter options), notfound, None)).
Proof.
  intros HbyID HbyName. unfold createFilter. rewrite HbyID, HbyName. split.
  - intros pre name post first -> Hpre Hname.
    by rewrite (matchLoop_ambiguous byID byName pre name post first Hpre Hname).
  - intros Hall. cbv zeta.
    rewrite (matchLoop_unambiguous byID byName _ Hall).
    destruct (matchedIDs byID byName (services options)) as [|id ids]; simpl.
    + done.
    + done.
Qed.

Lemma createFilter_precedence_witness :
  createFilter Sample.apiClient
      (Sample.request ["4kq1"; "db"; "7x"; "nope"] false false "") =
    (addServices ["4kq1"; "4kq2"; "7xyz"] ∅, ["no such service: nope"], None)
  /\ createFilter Sample.apiClient
      (Sample.request ["web"; "4kq"; "db"] false false "") =
    (addServices ["4kq1"; "4kq1"] ∅, [],
     Some "multiple services found with provided prefix: 4kq").
Proof.
  split.
  - destruct (createFilter_precedence Sample.apiClient
                (Sample.request ["4kq1"; "db"; "7x"; "nope"] false false "")
                Sample.engineServices Sample.engineServices eq_refl eq_refl)
      as [_ H].
    rewrite H; [reflexivity|]. repeat constructor.
  - destruct (createFilter_precedence Sample.apiClient
                (Sample.request ["web"; "4kq"; "db"] false false "")
                Sample.engineServices Sample.engineServices eq_refl eq_refl)
      as [H _].
    refine (eq_trans (H ["web"] "4kq" ["db"] "4kq1" eq_refl _ eq_refl) _);
      [repeat constructor | reflexivity].
Defined.

End CreateFilterResult.

(** ** Strings *)

Section Strings.

Lemma string_app_cons (c : ascii) (s t : string) : String c s +:+ t = String c (s +:+ t).
Proof. done. Qed.

Lemma string_app_nil_r (s : string) : s +:+ "" = s.
Proof. induction s as [|c s IH]; [done|]. by rewrite string_app_cons, IH. Qed.

Lemma string_app_assoc (s t u : string) : (s +:+ t) +:+ u = s +:+ (t +:+ u).
Proof. induction s as [|c s IH]; [done|]. by rewrite !string_app_cons, IH. Qed.

Lemma string_length_app (s t : string) :
  String.length (s +:+ t) = String.length s + String.length t.
Proof. induction s as [|c s IH]; [done|]. rewrite string_app_cons. simpl. by rewrite IH. Qed.

Lemma prefix_refl_app (s t : string) : String.prefix s (s +:+ t) = true.
Proof.
  induction s as [|c s IH]; [by destruct t|].
  rewrite string_app_cons. simpl. by destruct (ascii_dec c c).
Qed.

Lemma Contains_unfold (s t : string) :
  strings.Contains s t =
    String.prefix t s || match s with "" => false | String _ r => strings.Contains r t end.
Proof. by destruct s. Qed.

Lemma Contains_app (s t u : string) : strings.Contains (s +:+ t +:+ u) t = true.
Proof.
  induction s as [|c s IH].
  - change ("" +:+ t +:+ u) with (t +:+ u).
    by rewrite Contains_unfold, prefix_refl_app.
  - rewrite string_app_cons, Contains_unfold, IH. apply orb_true_r.
Qed.

End Strings.

(** ** The format resolvers *)

Section Resolvers.

Import formatter.

(** C3, as stated, fails for checkpoints: their resolver has no raw layout,
    [raw] comes back as it is, and it is not a [key: value] template. *)
Lemma checkpoint_NewFormat_raw_verbatim :
  checkpoint.NewFormat "raw" = "raw" /\
  ~ (exists key field rest : string,
        checkpoint.NewFormat "raw" = layout.rawLine key field +:+ rest).
Proof.
  split; [reflexivity|]. intros (key & field & rest & E).
  apply (f_equal String.length) in E. revert E.
  change (checkpoint.NewFormat "raw") with "raw". unfold layout.rawLine.
  rewrite !string_length_app. simpl. lia.
Qed.

(** C3, amended.  [NewTaskFormat] maps [table] to the default column template
    of tasks, which names each of the eight columns, or to the identifier-only
    format when quiet; it maps [raw] to a block of one [key: {{.Field}}] line
    per field, or to the single line of the identifier when quiet; it returns
    any other source as it is.  [NewFormat] of checkpoints takes no quiet
    flag, maps [table] to its default template and returns any other source,
    [raw] too, as it is. *)
Theorem NewFormat_resolution (source : string) (quiet : bool) :
  task.NewTaskFormat "table" false = task.defaultTaskTableFormat
  /\ layout.columns task.defaultTaskTableFormat =
       ["ID"; "Name"; "Image"; "Node"; "DesiredState"; "CurrentState"; "Error"; "Ports"]
  /\ task.NewTaskFormat "table" true = DefaultQuietFormat
  /\ layout.columns DefaultQuietFormat = ["ID"]
  /\ task.NewTaskFormat "raw" false = layout.rawBlock layout.taskFields
  /\ task.NewTaskFormat "raw" true = layout.rawLine "id" "ID"
  /\ (source <> "table" -> source <> "raw" -> task.NewTaskFormat source quiet = source)
  /\ checkpoint.NewFormat "table" = checkpoint.defaultCheckpointFormat
  /\ (source <> "table" -> checkpoint.NewFormat source = source).
Proof.
  repeat split; try reflexivity.
  - intros Htable Hraw. unfold task.NewTaskFormat.
    apply String.eqb_neq in Htable, Hraw.
    unfold TableFormatKey, RawFormatKey. by rewrite Htable, Hraw.
  - intros Htable. unfold checkpoint.NewFormat.
    apply String.eqb_neq in Htable. unfold TableFormatKey. by rewrite Htable.
Qed.

Lemma NewFormat_resolution_witness :
  task.NewTaskFormat "{{.Name}}" true = "{{.Name}}"
  /\ checkpoint.NewFormat "raw" = "raw".
Proof.
  destruct (NewFormat_resolution "{{.Name}}" true) as (_ & _ & _ & _ & _ & _ & Htask & _).
  destruct (NewFormat_resolution "raw" false) as (_ & _ & _ & _ & _ & _ & _ & _ & Hcp).
  split; [apply Htask | apply Hcp]; discriminate.
Defined.

End Resolvers.

(** ** Truncation *)

Section Truncation.

Import formatter.

Context `{Collaborators}.

Lemma take_all (n : nat) (s : string) : String.length s <= n -> text.take n s = s.
Proof.
  revert n. induction s as [|c s IH]; intros [|n] Hn; simpl in *; try done; [lia|].
  f_equal. apply IH. lia.
Qed.

Lemma length_take (n : nat) (s : string) : String.length (text.take n s) <= n.
Proof.
  revert n. induction s as [|c s IH]; intros [|n]; simpl; try lia.
  specialize (IH n). lia.
Qed.

Lemma Ellipsis_fits (s : string) (n : nat) :
  utf8.RuneCountInString s <= n -> Ellipsis s n = s.
Proof.
  intros Hn. unfold Ellipsis.
  by destruct (Nat.leb_spec (utf8.RuneCountInString s) n); [|lia].
Qed.

Lemma Ellipsis_long (s : string) (n : nat) :
  n < utf8.RuneCountInString s ->
  Ellipsis s n = utf8.encode (take (n - 1) (utf8.runes s)) +:+ ellipsisMark.
Proof.
  intros Hn. unfold Ellipsis.
  by destruct (Nat.leb_spec (utf8.RuneCountInString s) n); [lia|].
Qed.

Lemma Ellipsis_length (s : string) (n : nat) :
  s <> "" -> 0 < String.length (Ellipsis s n).
Proof.
  intros Hs. unfold Ellipsis. destruct (utf8.RuneCountInString s <=? n).
  - destruct s; [done|simpl; lia].
  - rewrite string_length_app. simpl. lia.
Qed.

(** One byte below 128 is one character, and so are the two bytes of a
    two-byte encoding. *)
Lemma RuneCount_ascii (c : ascii) (s : string) :
  (nat_of_ascii c < 128)%nat ->
  utf8.RuneCountInString (String c s) = S (utf8.RuneCountInString s).
Proof.
  intros Hc. unfold utf8.RuneCountInString. cbn [utf8.runes].
  assert (utf8.size c = 1) as ->; [|done].
  unfold utf8.size, utf8.byte. by destruct (Nat.ltb_spec (nat_of_ascii c) 128); [|lia].
Qed.

Lemma RuneCount_two_bytes (b0 b1 : ascii) (s : string) :
  (194 <= nat_of_ascii b0 <= 223)%nat ->
  (128 <= nat_of_ascii b1 <= 191)%nat ->
  utf8.RuneCountInString (String b0 (String b1 s)) = S (utf8.RuneCountInString s).
Proof.
  intros Hb0 Hb1. unfold utf8.RuneCountInString. cbn [utf8.runes].
  assert (utf8.size b0 = 2) as ->.
  { unfold utf8.size, utf8.within, utf8.byte.
    destruct (Nat.ltb_spec (nat_of_ascii b0) 128); [lia|].
    destruct (Nat.leb_spec 194 (nat_of_ascii b0)); [|lia].
    by destruct (Nat.leb_spec (nat_of_ascii b0) 223); [|lia]. }
  assert (utf8.accepts b0 b1 = true) as ->; [|done].
  unfold utf8.accepts, utf8.continues, utf8.within, utf8.byte.
  destruct (Nat.eqb_spec (nat_of_ascii b0) 224); [lia|].
  destruct (Nat.eqb_spec (nat_of_ascii b0) 237); [lia|].
  destruct (Nat.eqb_spec (nat_of_ascii b0) 240); [lia|].
  destruct (Nat.eqb_spec (nat_of_ascii b0) 244); [lia|].
  destruct (Nat.leb_spec 128 (nat_of_ascii b1)); [|lia].
  by destruct (Nat.leb_spec (nat_of_ascii b1) 191); [|lia].
Qed.

(** C6.  The [Error] accessor returns the empty string for an empty error
    message.  For any other message it returns the message between two
    double quotes, the byte 34, and under truncation the text between the
    quotes is the message ellipsized at [maxErrLength], which is 30: a
    message of at most 30 characters is kept, whatever its length in bytes,
    and a longer one is cut to its first 29 characters and the mark.  A byte
    below 128 is one character and a two-byte encoding is one character. *)
Theorem Error_quoted (c : task.taskContext) :
  let msg := swarm.Err (swarm.Status (task.task c)) in
  let shown := if task.trunc c then Ellipsis msg 30 else msg in
  task.maxErrLength = 30
  /\ (msg = "" -> task.Error c = "")
  /\ (msg <> "" ->
      task.Error c = String "034"%char (shown +:+ String "034"%char ""))
  /\ (utf8.RuneCountInString msg <= 30 -> Ellipsis msg 30 = msg)
  /\ (30 < utf8.RuneCountInString msg ->
      Ellipsis msg 30 = utf8.encode (take 29 (utf8.runes msg)) +:+ ellipsisMark
      /\ length (take 29 (utf8.runes msg)) = 29)
  /\ (forall (b : ascii) (s : string),
        (nat_of_ascii b < 128)%nat ->
        utf8.RuneCountInString (String b s) = S (utf8.RuneCountInString s))
  /\ (forall (b0 b1 : ascii) (s : string),
        (194 <= nat_of_ascii b0 <= 223)%nat ->
        (128 <= nat_of_ascii b1 <= 191)%nat ->
        utf8.RuneCountInString (String b0 (String b1 s))
        = S (utf8.RuneCountInString s)).
Proof.
  intros msg shown. split; [done|].
  split; [|split; [|split; [|split; [|split; [apply RuneCount_ascii
                                              |apply RuneCount_two_bytes]]]]].
  - intros Hmsg. unfold task.Error. fold msg. rewrite Hmsg.
    by destruct (task.trunc c).
  - intros Hmsg. unfold task.Error. fold msg. change task.maxErrLength with 30.
    unfold shown. destruct (task.trunc c).
    + pose proof (Ellipsis_length msg 30 Hmsg) as Hlen.
      by destruct (Nat.ltb_spec 0 (String.length (Ellipsis msg 30))); [|lia].
    + destruct msg; [done|]. done.
  - apply Ellipsis_fits.
  - intros Hlong. split; [by apply Ellipsis_long|].
    rewrite list.length_take. unfold utf8.RuneCountInString in Hlong. lia.
Qed.

(** C7.  Truncation keeps what is already short: under truncation the [ID]
    accessor returns an identifier of at most [shortLen] bytes as it is, and
    the ellipsis step of [Error] returns a message of at most 30 characters
    as it is, however many bytes the characters take (a two-byte encoding is
    one character), so that [Error] is the message between quotes.
    Truncating an identifier twice is truncating it once. *)
Theorem truncation_keeps_short (c : task.taskContext) :
  let id := swarm.ID (task.task c) in
  let msg := swarm.Err (swarm.Status (task.task c)) in
  (task.trunc c = true -> String.length id <= shortLen -> task.ID c = id)
  /\ (utf8.RuneCountInString msg <= task.maxErrLength ->
      Ellipsis msg task.maxErrLength = msg)
  /\ (task.trunc c = true -> utf8.RuneCountInString msg <= task.maxErrLength ->
      msg <> "" ->
      task.Error c = String "034"%char (msg +:+ String "034"%char ""))
  /\ TruncateID (TruncateID id) = TruncateID id
  /\ (forall (b0 b1 : ascii) (s : string),
        (194 <= nat_of_ascii b0 <= 223)%nat ->
        (128 <= nat_of_ascii b1 <= 191)%nat ->
        utf8.RuneCountInString (String b0 (String b1 s))
        = S (utf8.RuneCountInString s)).
Proof.
  intros id msg. split; [|split; [|split; [|split; [|apply RuneCount_two_bytes]]]].
  - intros Htrunc Hlen. unfold task.ID. rewrite Htrunc. by apply take_all.
  - apply Ellipsis_fits.
  - intros Htrunc Hlen Hmsg. unfold task.Error. fold msg.
    rewrite Htrunc, (Ellipsis_fits msg _ Hlen).
    destruct msg; [done|]. done.
  - unfold TruncateID. apply take_all, length_take.
Qed.

End Truncation.

Section TruncationExamples.

#[local] Existing Instance Sample.collaborators.

Lemma Error_quoted_witness :
  task.Error (layout.taskView true Sample.names Sample.nodes Sample.task2)
    = String "034"%char ("task: non-zero exit (1)" +:+ String "034"%char "")
  /\ task.Error (layout.taskView true Sample.names Sample.nodes Sample.task1) = ""
  /\ formatter.Ellipsis "the container failed its health check twice" 30
     = "the container failed its heal" +:+ formatter.ellipsisMark.
Proof.
  destruct (Error_quoted (layout.taskView true Sample.names Sample.nodes Sample.task2))
    as (_ & _ & Hquoted & _).
  destruct (Error_quoted (layout.taskView true Sample.names Sample.nodes Sample.task1))
    as (_ & Hempty & _).
  destruct (Error_quoted
              (layout.taskView true Sample.names Sample.nodes
                 (Sample.mkTask "taskID4" "nginx" "failed" 0%Z
                    "the container failed its health check twice" [])))
    as (_ & _ & _ & _ & Hcut & _).
  split; [rewrite Hquoted; [reflexivity|discriminate]|].
  split; [apply Hempty; reflexivity|].
  destruct Hcut as [Hcut _]; [vm_compute; lia|]. exact Hcut.
Defined.

Lemma truncation_keeps_short_witness :
  task.ID (layout.taskView true Sample.names Sample.nodes Sample.task2) = "taskID2"
  /\ formatter.Ellipsis "task: non-zero exit (1)" task.maxErrLength
       = "task: non-zero exit (1)"
  /\ task.Error (layout.taskView true Sample.names Sample.nodes Sample.task2)
       = String "034"%char ("task: non-zero exit (1)" +:+ String "034"%char "")
  /\ String.length Sample.accents = 40
  /\ formatter.Ellipsis Sample.accents task.maxErrLength = Sample.accents.
Proof.
  destruct (truncation_keeps_short
              (layout.taskView true Sample.names Sample.nodes Sample.task2))
    as (Hid & Hmsg & Herr & _).
  destruct (truncation_keeps_short
              (layout.taskView true Sample.names Sample.nodes
                 (Sample.mkTask "taskID4" "nginx" "failed" 0%Z Sample.accents [])))
    as (_ & Haccents & _).
  split; [|split; [|split; [|split]]].
  - apply Hid; [reflexivity | simpl; lia].
  - apply Hmsg. vm_compute. lia.
  - apply Herr; [reflexivity | vm_compute; lia | discriminate].
  - reflexivity.
  - apply Haccents. vm_compute. lia.
Defined.

End TruncationExamples.

(** ** Collections: ports and labels *)

Section Collections.

Context `{Collaborators}.

Lemma append_each {A} (f : A -> string) (l : list A) (init : list string) :
  fold_left (fun acc x => acc ++ [f x]) l init = init ++ List.map f l.
Proof.
  revert init. induction l as [|x l IH]; intros init; simpl.
  - by rewrite app_nil_r.
  - by rewrite IH, <- app_assoc.
Qed.

Lemma Ports_join (c : task.taskContext) :
  task.Ports c =
    strings.Join
      (List.map task.portEntry
         (swarm.Ports (swarm.PortStatus_ (swarm.Status (task.task c))))) ",".
Proof.
  unfold task.Ports.
  destruct (swarm.Ports (swarm.PortStatus_ (swarm.Status (task.task c)))) as [|p l];
    [done|].
  change (length (p :: l) =? 0) with false. cbv iota.
  by rewrite append_each.
Qed.

Lemma ascending_permitted : gomap.permitted gomap.ascending.
Proof. intros m. apply merge_sort_Permutation. Qed.

Lemma descending_permitted : gomap.permitted gomap.descending.
Proof.
  intros m. unfold gomap.descending.
  rewrite reverse_Permutation. apply ascending_permitted.
Qed.

Lemma visiting_permitted (labels : gmap string string)
    (entries : list (string * string)) :
  entries ≡ₚ map_to_list labels -> gomap.permitted (gomap.visiting labels entries).
Proof.
  intros Hentries m. unfold gomap.visiting.
  destruct (decide (m = labels)) as [->|]; done.
Qed.

(** C8, amended.  The [Ports] accessor joins with commas one
    [*:<published>-><target>/<protocol>] entry per port, in the order of the
    ports in the port status of the task, and returns the empty string for an
    empty list.  The labels of a network are a Go map: they render as one
    [key=value] entry per label joined with commas, in the order in which the
    loop of the accessor visits the map, and every order of the entries is
    the rendering under some order of visit. *)
Theorem collections_joined (c : task.taskContext) (nc : network.networkContext)
    (range : gomap.Range) :
  let configs := swarm.Ports (swarm.PortStatus_ (swarm.Status (task.task c))) in
  let labels := apinetwork.Labels (network.n nc) in
  task.Ports c = strings.Join (List.map task.portEntry configs) ","
  /\ (forall (i : nat) (p : swarm.PortConfig),
        configs !! i = Some p ->
        List.map task.portEntry configs !! i =
          Some ("*:" +:+ text.decimal (swarm.PublishedPort p) +:+ "->" +:+
                text.decimal (swarm.TargetPort p) +:+ "/" +:+ swarm.Protocol p))
  /\ (configs = [] -> task.Ports c = "")
  /\ (gomap.permitted range ->
      exists entries : list (string * string),
        NoDup (List.map fst entries)
        /\ (forall key value, (key, value) ∈ entries <-> labels !! key = Some value)
        /\ network.Labels range nc = strings.Join (List.map network.labelEntry entries) ",")
  /\ (forall entries : list (string * string),
        entries ≡ₚ map_to_list labels ->
        exists visit : gomap.Range,
          gomap.permitted visit
          /\ network.Labels visit nc
             = strings.Join (List.map network.labelEntry entries) ",").
Proof.
  intros configs labels. split; [apply Ports_join|]. split; [|split; [|split]].
  - intros i p Hp.
    change (List.map task.portEntry configs) with (task.portEntry <$> configs).
    by rewrite list_lookup_fmap, Hp.
  - intros Hnil. rewrite Ports_join. fold configs. by rewrite Hnil.
  - intros Hrange. exists (range labels). split; [|split].
    + change (List.map fst (range labels)) with ((range labels).*1).
      rewrite (Hrange labels). apply NoDup_fst_map_to_list.
    + intros key value. rewrite (Hrange labels). apply elem_of_map_to_list.
    + done.
  - intros entries Hentries. exists (gomap.visiting labels entries).
    split; [by apply visiting_permitted|].
    unfold network.Labels, gomap.visiting. fold labels.
    by rewrite decide_True.
Qed.

End Collections.

Section CollectionsExamples.

#[local] Existing Instance Sample.collaborators.

(** C8, as stated, fails for labels: the labels of the test of the network
    view, built in the order [label1], [label2], render in that order under
    one order of visit of the map and in the opposite order under another,
    and both are orders in which a loop may visit a Go map. *)
Lemma Labels_order_is_open :
  gomap.permitted gomap.ascending
  /\ gomap.permitted gomap.descending
  /\ network.Labels gomap.ascending
       {| network.trunc := false; network.n := Sample.labels |}
     = "label1=value1,label2=value2"
  /\ network.Labels gomap.descending
       {| network.trunc := false; network.n := Sample.labels |}
     = "label2=value2,label1=value1"
  /\ network.Labels gomap.descending
       {| network.trunc := false; network.n := Sample.labels |}
     <> network.Labels gomap.ascending
       {| network.trunc := false; network.n := Sample.labels |}.
Proof.
  assert (network.Labels gomap.ascending
            {| network.trunc := false; network.n := Sample.labels |}
          = "label1=value1,label2=value2") as Eup by (vm_compute; reflexivity).
  assert (network.Labels gomap.descending
            {| network.trunc := false; network.n := Sample.labels |}
          = "label2=value2,label1=value1") as Edown by (vm_compute; reflexivity).
  split; [apply ascending_permitted|]. split; [apply descending_permitted|].
  split; [exact Eup|]. split; [exact Edown|].
  rewrite Eup, Edown. discriminate.
Qed.

Lemma collections_joined_witness :
  task.Ports (layout.taskView false Sample.names Sample.nodes Sample.task1)
    = "*:8080->80/tcp,*:5353->53/udp"
  /\ task.Ports (layout.taskView false Sample.names Sample.nodes Sample.task2) = ""
  /\ exists entries : list (string * string),
       network.Labels gomap.descending
         {| network.trunc := false; network.n := Sample.labels |}
       = strings.Join (List.map network.labelEntry entries) ",".
Proof.
  destruct (collections_joined
              (layout.taskView false Sample.names Sample.nodes Sample.task1)
              {| network.trunc := false; network.n := Sample.labels |}
              gomap.descending)
    as (Hports & _ & _ & Hlabels & _).
  destruct (collections_joined
              (layout.taskView false Sample.names Sample.nodes Sample.task2)
              {| network.trunc := false; network.n := Sample.labels |}
              gomap.descending)
    as (_ & _ & Hempty & _).
  split; [rewrite Hports; vm_compute; reflexivity|].
  split; [apply Hempty; reflexivity|].
  destruct (Hlabels descending_permitted) as (entries & _ & _ & E).
  exists entries. exact E.
Defined.

End CollectionsExamples.

(** ** [CurrentState] and the wall clock *)

Section Clock.

Context `{Collaborators}.

Lemma Sub_shift (t u shift : Z) :
  time.Sub (t + shift)%Z (u + shift)%Z = time.Sub t u.
Proof. unfold time.Sub. by replace (t + shift - (u + shift))%Z with (t - u)%Z by lia. Qed.

(** C9, amended.  The [CurrentState] accessor renders the state of the task,
    a blank, a duration in lower case and [ago].  The duration is the time
    from the moment of the status to the reading of the wall clock at the
    call ([time.Since]); the view holds no reference moment of its own, and
    moving the status and the clock by the same amount leaves the text as it
    is. *)
Theorem CurrentState_since (c : task.taskContext) (wall : time.Time) :
  let status := swarm.Status (task.task c) in
  task.CurrentState c wall =
    PrettyPrint (swarm.State status) +:+ " " +:+
    text.ToLower (HumanDuration (time.Sub wall (swarm.Timestamp status))) +:+ " ago"
  /\ (exists duration : string,
        task.CurrentState c wall =
          PrettyPrint (swarm.State status) +:+ " " +:+ duration +:+ " ago")
  /\ (forall shift : Z,
        task.CurrentState
          (layout.atTimestamp (swarm.Timestamp status + shift)%Z c) (wall + shift)%Z
        = task.CurrentState c wall).
Proof.
  intros status. split; [done|]. split; [by eexists|].
  intros shift. unfold task.CurrentState, time.Since, time.Now. simpl.
  by rewrite Sub_shift.
Qed.

End Clock.

Section ClockExamples.

#[local] Existing Instance Sample.collaborators.

(** C9, as stated, fails: the same view, with all that a caller supplies,
    renders differently under two readings of the wall clock. *)
Lemma CurrentState_reads_wall_clock :
  task.CurrentState (layout.taskView false Sample.names Sample.nodes Sample.task1)
      (5 * time.Second)%Z = "Running 5 seconds ago"
  /\ task.CurrentState (layout.taskView false Sample.names Sample.nodes Sample.task1)
      (10 * time.Second)%Z = "Running 10 seconds ago"
  /\ task.CurrentState (layout.taskView false Sample.names Sample.nodes Sample.task1)
      (5 * time.Second)%Z
     <> task.CurrentState (layout.taskView false Sample.names Sample.nodes Sample.task1)
      (10 * time.Second)%Z.
Proof.
  assert (task.CurrentState (layout.taskView false Sample.names Sample.nodes Sample.task1)
            (5 * time.Second)%Z = "Running 5 seconds ago") as E5
    by (vm_compute; reflexivity).
  assert (task.CurrentState (layout.taskView false Sample.names Sample.nodes Sample.task1)
            (10 * time.Second)%Z = "Running 10 seconds ago") as E10
    by (vm_compute; reflexivity).
  split; [exact E5|]. split; [exact E10|]. rewrite E5, E10. discriminate.
Qed.

End ClockExamples.

(** ** [runPS]: quiet mode and truncation *)

Section Quiet.

Import service.

Variable ConfigFile : Type.
Variable DefaultFormat : ConfigFile -> bool -> string.
Variable Reference : string -> error + string.
Variable Print : PrintCall -> option error.

Lemma length_zero (s : string) : (String.length s =? 0) = bool_decide (s = "").
Proof. by destruct s. Qed.

(** C5, amended.  When quiet is requested, [runPS] overrides the
    no-truncate flag to true before it renders: [task.Print] is called with
    truncation off and quiet on, so the [ID] accessor gives the full
    identifier of each task, whatever truncation flag was requested.  The
    format handed over is the requested one, or the default format of tasks
    for quiet mode when none was requested. *)
Theorem quiet_forces_no_trunc `{Collaborators} (configFile : ConfigFile)
    (apiClient : APIClient) (options : psOptions) (tasks : list swarm.Task) :
  quiet options = true ->
  let call := printCall ConfigFile DefaultFormat configFile options tasks in
  printTrunc call = false
  /\ printQuiet call = true
  /\ (format options = "" -> printFormat call = DefaultFormat configFile true)
  /\ (format options <> "" -> printFormat call = format options)
  /\ (forall (names nodes : gmap string string) (t : swarm.Task),
        task.ID (layout.taskView (printTrunc call) names nodes t) = swarm.ID t)
  /\ (forall requested : bool,
        printCall ConfigFile DefaultFormat configFile
                  (layout.withNoTrunc requested options) tasks = call)
  /\ (forall requested : bool,
        runPS ConfigFile DefaultFormat Reference Print configFile apiClient
              (layout.withNoTrunc requested options)
        = runPS ConfigFile DefaultFormat Reference Print configFile apiClient options).
Proof.
  intros Hquiet call.
  assert (forall requested : bool,
             printCall ConfigFile DefaultFormat configFile
                       (layout.withNoTrunc requested options) tasks = call) as Hcall.
  { intros requested. unfold call, printCall. simpl. by rewrite Hquiet. }
  assert (printTrunc call = false) as Htrunc.
  { unfold call, printCall. simpl. by rewrite Hquiet. }
  split; [exact Htrunc|]. split; [exact Hquiet|]. split; [|split; [|split; [|split]]].
  - intros Hformat. unfold call, printCall. simpl. by rewrite Hformat, Hquiet.
  - intros Hformat. unfold call, printCall. simpl. rewrite length_zero.
    by rewrite bool_decide_eq_false_2.
  - intros names nodes t. rewrite Htrunc. done.
  - exact Hcall.
  - intros requested. unfold runPS.
    change (createFilter apiClient (layout.withNoTrunc requested options))
      with (createFilter apiClient options).
    destruct (createFilter apiClient options) as [[flt notfound] [err|]]; [done|].
    destruct (updateNodeFilter Reference flt) as [err|flt']; [done|].
    destruct (TaskList apiClient flt') as [err|tasks']; [done|].
    unfold printCall. simpl. by rewrite Hquiet.
Qed.

End Quiet.

Section QuietExamples.

#[local] Existing Instance Sample.collaborators.

(** C5, as stated, fails: with quiet requested and no [--no-trunc], the call
    of [task.Print] has truncation off, not on. *)
Lemma quiet_turns_truncation_off :
  service.printTrunc
    (service.printCall unit (fun _ _ => "table") tt
       (Sample.request ["web"] true false "") [Sample.task1; Sample.task2]) = false
  /\ service.printTrunc
    (service.printCall unit (fun _ _ => "table") tt
       (Sample.request ["web"] true false "") [Sample.task1; Sample.task2]) <> true.
Proof. split; [reflexivity|discriminate]. Qed.

Lemma quiet_forces_no_trunc_witness :
  service.printTrunc
    (service.printCall unit (fun _ _ => "table") tt
       (Sample.request ["web"] true false "") [Sample.task1; Sample.task2]) = false
  /\ service.printFormat
    (service.printCall unit (fun _ _ => "table") tt
       (Sample.request ["web"] true false "") [Sample.task1; Sample.task2]) = "table".
Proof.
  destruct (quiet_forces_no_trunc unit (fun _ _ => "table") (fun node => inr node)
              (fun _ => None) tt Sample.apiClient
              (Sample.request ["web"] true false "") [Sample.task1; Sample.task2]
              eq_refl)
    as (Htrunc & _ & Hdefault & _).
  split; [exact Htrunc | apply Hdefault; reflexivity].
Defined.

End QuietExamples.

(** ** JSON and the accessors *)

Section Marshal.

Import formatter.

Context `{Collaborators}.

Lemma call_cons {A} (k k' : string) (v : A) (ms : list (string * A)) :
  call ((k', v) :: ms) k = if String.eqb k' k then Some v else call ms k.
Proof. unfold call. simpl. by destruct (String.eqb k' k). Qed.



Lemma call_In {A} (ms : list (string * A)) (k : string) (v : A) :
  NoDup ms.*1 -> In (k, v) ms -> call ms k = Some v.
Proof.
  induction ms as [|[k' v'] ms IH]; intros Hnd Hin; [done|].
  rewrite fmap_cons, NoDup_cons in Hnd. destruct Hnd as [Hk' Hnd].
  rewrite call_cons. destruct Hin as [E|Hin].
  - inversion E; subst. by rewrite String.eqb_refl.
  - destruct (String.eqb_spec k' k) as [->|_]; [|by apply IH].
    exfalso. apply Hk'. simpl. apply list_elem_of_In in Hin.
    by apply (list_elem_of_fmap_2 fst ms (k, v)).
Qed.

Lemma task_methods_NoDup (c : task.taskContext) : NoDup (task.methods c).*1.
Proof.
  assert ((task.methods c).*1 = task.accessors.*1) as ->.
  { unfold task.methods. generalize task.accessors. intros l.
    induction l as [|a l IH]; [done|]. simpl. f_equal. exact IH. }
  apply (bool_decide_unpack _). by vm_compute.
Qed.

(** The call of an accessor of the task view through a field of a
    template. *)
Lemma task_field (c : task.taskContext) (name : string)
    (accessor : task.taskContext -> Accessor) (clock : time.Clock)
    (k line col : nat) (v : string) :
  In (name, accessor) task.accessors ->
  accessor c (clock k) = runtime.Returns v ->
  template.execNode (data (task.subContext c)) (template.FieldNode line col name) clock k
  = (inr v, S k).
Proof.
  intros Hin Hv. simpl. unfold template.callMethod. simpl.
  rewrite (call_In (task.methods c) name (accessor c) (task_methods_NoDup c)).
  - by rewrite Hv.
  - apply (in_map (fun a => (fst a, snd a c))) in Hin. exact Hin.
Qed.





End Marshal.

Section MarshalExamples.

#[local] Existing Instance Sample.collaborators.



End MarshalExamples.

(** ** Parsing the name of a function *)

Section Parsing.

Import template.

Lemma ident_char_plain (c : ascii) :
  isIdentChar c = true ->
  text.isSpace c = false /\ isNewline c = false /\ Ascii.eqb c "}" = false
  /\ Ascii.eqb c "{" = false /\ Ascii.eqb c "\" = false /\ Ascii.eqb c "." = false
  /\ Ascii.eqb c "|" = false /\ isTerminator c = false.
Proof.
  destruct c as [[] [] [] [] [] [] [] []]; vm_compute; intros E;
    try discriminate E; repeat split.
Qed.

Lemma ident_start_char (c : ascii) : isIdentStart c = true -> isIdentChar c = true.
Proof. intros E. unfold isIdentChar. by rewrite E. Qed.

Lemma allChars_app (p : ascii -> bool) (s t : string) :
  allChars p (s +:+ t) = allChars p s && allChars p t.
Proof.
  induction s as [|c s IH]; [done|].
  rewrite string_app_cons. simpl. by rewrite IH, andb_assoc.
Qed.

Lemma allChars_impl (p q : ascii -> bool) (s : string) :
  (forall c, p c = true -> q c = true) -> allChars p s = true -> allChars q s = true.
Proof.
  intros Hpq. induction s as [|c s IH]; [done|]. simpl.
  intros [Hc Hs]%andb_true_iff. by rewrite (Hpq c Hc), (IH Hs).
Qed.

Lemma prefix_allChars (q : ascii -> bool) (p s : string) :
  String.prefix p s = true -> allChars q s = true -> allChars q p = true.
Proof.
  revert s. induction p as [|c p IH]; intros [|d s]; simpl; try done.
  destruct (ascii_dec c d) as [->|]; [|done].
  intros Hp [Hd Hs]%andb_true_iff. by rewrite Hd, (IH s Hp Hs).
Qed.

Lemma identifier_chars (name : string) :
  isIdentifier name = true -> allChars isIdentChar name = true.
Proof.
  destruct name as [|c s]; [done|]. simpl.
  intros [Hc Hs]%andb_true_iff. by rewrite (ident_start_char c Hc), Hs.
Qed.

Lemma TrimRight_no_space (s : string) :
  allChars (fun c => negb (text.isSpace c)) s = true -> text.TrimRight s = s.
Proof.
  induction s as [|c s IH]; [done|]. simpl.
  intros [Hc Hs]%andb_true_iff. rewrite (IH Hs).
  apply negb_true_iff in Hc. by rewrite Hc.
Qed.

Lemma Trim_no_space (s : string) :
  allChars (fun c => negb (text.isSpace c)) s = true -> text.Trim s = s.
Proof.
  intros Hs. unfold text.Trim.
  assert (text.TrimLeft s = s) as ->; [|by apply TrimRight_no_space].
  destruct s as [|c s]; [done|]. simpl in *.
  apply andb_true_iff in Hs as [Hc _]. apply negb_true_iff in Hc. by rewrite Hc.
Qed.

Lemma unescape_no_backslash (s : string) :
  allChars (fun c => negb (Ascii.eqb c "\")) s = true -> formatter.unescape s = s.
Proof.
  induction s as [|c s IH]; [done|]. simpl.
  intros [Hc Hs]%andb_true_iff. apply negb_true_iff in Hc.
  rewrite Hc. simpl. destruct s as [|c' s']; [done|]. by rewrite (IH Hs).
Qed.

Lemma member_false (s x : string) (l : list string) :
  member s l = false -> In x l -> String.eqb s x = false.
Proof.
  intros Hm Hx. destruct (String.eqb s x) eqn:E; [|done].
  assert (member s l = true) as Hm'; [|congruence].
  apply existsb_exists. eauto.
Qed.

Lemma member_controls (w : string) :
  member w keywords = false -> member w controls = false.
Proof.
  intros Hkw. unfold controls, member. simpl.
  rewrite (member_false w "if" keywords Hkw) by (simpl; tauto).
  rewrite (member_false w "range" keywords Hkw) by (simpl; tauto).
  by rewrite (member_false w "with" keywords Hkw) by (simpl; tauto).
Qed.

(** The bytes of an identifier are read one after the other. *)
Lemma word_run (w2 : string) :
  allChars isIdentChar w2 = true ->
  forall (first : bool) (w1 tail : string),
    firstUndefined (w2 +:+ tail) (Word first w1)
    = firstUndefined tail (Word first (w1 +:+ w2)).
Proof.
  induction w2 as [|c w2 IH]; intros Hw first w1 tail.
  - by rewrite string_app_nil_r.
  - simpl in Hw. apply andb_true_iff in Hw as [Hc Hw].
    rewrite string_app_cons. cbn [firstUndefined step]. rewrite Hc.
    rewrite (IH Hw). by rewrite string_app_assoc.
Qed.

(** A name that is not defined is found where a token can start. *)
Lemma firstUndefined_name (name tail : string) (place : Place) :
  isIdentifier name = true ->
  member name keywords = false ->
  member name definedFunctions = false ->
  terminated tail = true ->
  firstUndefined (name +:+ tail) (Blank place) = Some name.
Proof.
  intros Hid Hkw Hfn Htail.
  destruct name as [|c name]; [done|].
  simpl in Hid. apply andb_true_iff in Hid as [Hc Hname].
  destruct (ident_char_plain c (ident_start_char c Hc))
    as (Hspace & _ & _ & _ & _ & Hdot & _).
  rewrite string_app_cons. cbn [firstUndefined step].
  rewrite Hspace, Hdot, Hc.
  rewrite (word_run name Hname).
  change (String c "" +:+ name) with (String c name).
  assert (forall (first : bool) (next : option ascii),
            endOfWord first (String c name) next = Found (String c name)) as Hend.
  { intros first next. unfold endOfWord.
    rewrite (member_controls _ Hkw), andb_false_r, Hkw, Hfn. done. }
  destruct tail as [|t tail].
  - cbn [firstUndefined]. by rewrite Hend.
  - simpl in Htail. cbn [firstUndefined step].
    assert (isIdentChar t = false) as ->.
    { destruct (isIdentChar t) eqn:E; [|done].
      destruct (ident_char_plain t E) as (_ & _ & _ & _ & _ & _ & _ & Hterm).
      congruence. }
    by rewrite Htail, Hend.
Qed.

(** Reading on after a text of whole tokens. *)
Lemma reading_app (pre : string) :
  forall (r r' : Reading) (rest : string),
    reading pre r = Some r' ->
    firstUndefined (pre +:+ rest) r = firstUndefined rest r'.
Proof.
  induction pre as [|c pre IH]; intros r r' rest Hpre.
  - by injection Hpre as ->.
  - rewrite string_app_cons. cbn [reading firstUndefined] in *.
    destruct (step r c); try done. by apply IH.
Qed.

(** An action in which the first name that is not defined comes after
    fields and calls of defined functions reports that name. *)
Lemma parseAction_undefined (words name tail : string) (line col : nat) :
  leads words = true ->
  isIdentifier name = true ->
  member name keywords = false ->
  member name definedFunctions = false ->
  terminated tail = true ->
  parseAction line col (words +:+ name +:+ tail)
  = Some (inl (undefinedFunction line name)).
Proof.
  unfold leads.
  destruct (reading words (Blank AtStart)) as [[place| |]|] eqn:Hwords; try done.
  intros _ Hid Hkw Hfn Htail. unfold parseAction.
  by rewrite (reading_app words _ _ _ Hwords),
             (firstUndefined_name name tail place Hid Hkw Hfn Htail).
Qed.

Lemma scan_one (c : ascii) (inAction : bool) (line col actLine actCol : nat)
    (acc : string) :
  scan (String c "") inAction line col actLine actCol acc =
    if isNewline c
    then scan "" inAction (S line) 0 actLine actCol (acc +:+ String c "")
    else scan "" inAction line (S col) actLine actCol (acc +:+ String c "").
Proof. reflexivity. Qed.

Lemma scan_two (c c' : ascii) (s : string) (inAction : bool)
    (line col actLine actCol : nat) (acc : string) :
  scan (String c (String c' s)) inAction line col actLine actCol acc =
    if negb inAction && Ascii.eqb c "{" && Ascii.eqb c' "{" then
      match scan s true line (col + 2) line (col + 2) "" with
      | Some (inr nodes) => Some (inr (textNode acc nodes))
      | r => r
      end
    else if inAction && Ascii.eqb c "}" && Ascii.eqb c' "}" then
      match parseAction actLine actCol acc with
      | Some (inr node) =>
          match scan s false line (col + 2) line (col + 2) "" with
          | Some (inr nodes) => Some (inr (node :: nodes))
          | r => r
          end
      | Some (inl err) => Some (inl err)
      | None => None
      end
    else if isNewline c
    then scan (String c' s) inAction (S line) 0 actLine actCol (acc +:+ String c "")
    else scan (String c' s) inAction line (S col) actLine actCol (acc +:+ String c "").
Proof. reflexivity. Qed.

Lemma scan_end_action (line col actLine actCol : nat) (acc : string)
    (nodes : Template) :
  scan "" true line col actLine actCol acc <> Some (inr nodes).
Proof. simpl. by destruct (parseAction actLine actCol acc) as [[err|node]|]. Qed.

Lemma actionBody_two (c c' : ascii) (s : string) :
  actionBody (String c (String c' s)) =
    if Ascii.eqb c "}" && Ascii.eqb c' "}" then ""
    else String c (actionBody (String c' s)).
Proof. reflexivity. Qed.

(** The error of the body of an action is the error of the scan, whether
    the action is closed or not. *)
Lemma scan_action_error (r : string) :
  forall (line col actLine actCol : nat) (acc : string) (err : error),
    parseAction actLine actCol (acc +:+ actionBody r) = Some (inl err) ->
    scan r true line col actLine actCol acc = Some (inl err).
Proof.
  induction r as [|c r IH]; intros line col actLine actCol acc err Hbody.
  - simpl in Hbody. rewrite string_app_nil_r in Hbody. simpl. by rewrite Hbody.
  - destruct r as [|c' r].
    + rewrite scan_one. simpl in Hbody.
      destruct (isNewline c); simpl; by rewrite Hbody.
    + rewrite scan_two. cbn [negb andb].
      rewrite actionBody_two in Hbody.
      destruct (Ascii.eqb c "}" && Ascii.eqb c' "}").
      * rewrite string_app_nil_r in Hbody. by rewrite Hbody.
      * assert (acc +:+ String c (actionBody (String c' r))
                = (acc +:+ String c "") +:+ actionBody (String c' r)) as E
          by (by rewrite string_app_assoc).
        rewrite E in Hbody. destruct (isNewline c); by apply IH.
Qed.

(** An error that follows a text which parses is the error of the whole:
    the scan reports the first error of the source. *)
Lemma scan_prefix_error (rest : string) (err : error) (final : nat) :
  (forall (col actLine actCol : nat) (acc : string),
     scan (String "{" (String "{" rest)) false final col actLine actCol acc
     = Some (inl err)) ->
  forall (n : nat) (pre : string) (inAction : bool) (line col actLine actCol : nat)
         (acc : string) (nodes : Template),
    String.length pre <= n ->
    scan pre inAction line col actLine actCol acc = Some (inr nodes) ->
    endsOpen pre = false ->
    line + newlines pre = final ->
    scan (pre +:+ String "{" (String "{" rest)) inAction line col actLine actCol acc
    = Some (inl err).
Proof.
  intros Hrest. induction n as [|n IH];
    intros pre inAction line col actLine actCol acc nodes Hlen Hpre Hopen Hline.
  - destruct pre; [|simpl in Hlen; lia].
    destruct inAction; [by apply scan_end_action in Hpre|].
    simpl in Hline. rewrite Nat.add_0_r in Hline. subst final. apply Hrest.
  - destruct pre as [|c pre].
    { destruct inAction; [by apply scan_end_action in Hpre|].
      simpl in Hline. rewrite Nat.add_0_r in Hline. subst final. apply Hrest. }
    destruct pre as [|c' pre].
    + rewrite scan_one in Hpre.
      assert (inAction = false) as ->.
      { destruct inAction; [|done].
        destruct (isNewline c); by apply scan_end_action in Hpre. }
      simpl in Hopen.
      change (String c "" +:+ String "{" (String "{" rest))
        with (String c (String "{" (String "{" rest))).
      rewrite scan_two. rewrite Hopen. cbn [negb andb].
      simpl in Hline. destruct (isNewline c).
      * replace (S line) with final by lia. apply Hrest.
      * replace line with final by lia. apply Hrest.
    + change (String c (String c' pre) +:+ String "{" (String "{" rest))
        with (String c (String c' (pre +:+ String "{" (String "{" rest)))).
      rewrite scan_two in Hpre |- *.
      simpl in Hlen.
      destruct (negb inAction && Ascii.eqb c "{" && Ascii.eqb c' "{") eqn:Hstart.
      * apply andb_true_iff in Hstart as [Hstart Hc'].
        apply andb_true_iff in Hstart as [_ Hc].
        apply Ascii.eqb_eq in Hc, Hc'. subst c c'.
        destruct (scan pre true line (col + 2) line (col + 2) "")
          as [[e|nodes']|] eqn:Hbody; try done.
        rewrite (IH pre true line (col + 2) line (col + 2) "" nodes');
          [done | lia | exact Hbody | | exact Hline].
        destruct pre as [|d pre]; [by apply scan_end_action in Hbody|exact Hopen].
      * destruct (inAction && Ascii.eqb c "}" && Ascii.eqb c' "}") eqn:Hclose.
        -- apply andb_true_iff in Hclose as [Hclose Hc'].
           apply andb_true_iff in Hclose as [_ Hc].
           apply Ascii.eqb_eq in Hc, Hc'. subst c c'.
           destruct (parseAction actLine actCol acc) as [[e|node]|]; try done.
           destruct (scan pre false line (col + 2) line (col + 2) "")
             as [[e|nodes']|] eqn:Htail; try done.
           rewrite (IH pre false line (col + 2) line (col + 2) "" nodes');
             [done | lia | exact Htail | | exact Hline].
           destruct pre as [|d pre]; [done|exact Hopen].
        -- change (endsOpen (String c (String c' pre)))
             with (endsOpen (String c' pre)) in Hopen.
           cbn [newlines] in Hline.
           destruct (isNewline c).
           ++ apply (IH (String c' pre) inAction (S line) 0 actLine actCol _ nodes);
                [simpl; lia | exact Hpre | exact Hopen | simpl; lia].
           ++ apply (IH (String c' pre) inAction line (S col) actLine actCol _ nodes);
                [simpl; lia | exact Hpre | exact Hopen | exact Hline].
Qed.

(** A template in which an action names a function that is not defined,
    after a text that parses, does not parse: the error names the function
    and the line of the action. *)
Lemma parse_undefined (pre rest words name tail : string) (nodes : Template) :
  parse pre = Some (inr nodes) ->
  endsOpen pre = false ->
  actionBody rest = words +:+ name +:+ tail ->
  leads words = true ->
  isIdentifier name = true ->
  member name keywords = false ->
  member name definedFunctions = false ->
  terminated tail = true ->
  parse (pre +:+ "{{" +:+ rest)
  = Some (inl (undefinedFunction (1 + newlines pre) name)).
Proof.
  intros Hpre Hopen Hbody Hwords Hid Hkw Hfn Htail. unfold parse.
  change ("{{" +:+ rest) with (String "{" (String "{" rest)).
  apply (scan_prefix_error rest _ (1 + newlines pre)) with (n := String.length pre)
                                                           (nodes := nodes);
    [|lia|exact Hpre|exact Hopen|done].
  intros col actLine actCol acc. rewrite scan_two. cbn [negb andb Ascii.eqb].
  change (Ascii.eqb "{" "{") with true. cbn [andb].
  rewrite (scan_action_error rest _ _ _ _ _ (undefinedFunction (1 + newlines pre) name));
    [done|].
  change ("" +:+ actionBody rest) with (actionBody rest). rewrite Hbody.
  by apply parseAction_undefined.
Qed.

(** The body of an action made of a name alone. *)
Lemma actionBody_name (name : string) :
  allChars isIdentChar name = true -> actionBody (name +:+ "}}") = name.
Proof.
  induction name as [|c name IH]; intros Hname; [done|].
  simpl in Hname. apply andb_true_iff in Hname as [Hc Hname].
  destruct (ident_char_plain c Hc) as (_ & _ & Hclose & _).
  rewrite string_app_cons.
  destruct (name +:+ "}}") as [|c' rest] eqn:E.
  { destruct name; discriminate E. }
  rewrite actionBody_two, Hclose. cbn [andb]. by rewrite (IH Hname).
Qed.

Lemma preFormat_name (name : string) (trunc : bool) :
  isIdentifier name = true ->
  formatter.preFormat
    {| formatter.Format := "{{" +:+ name +:+ "}}"; formatter.Trunc := trunc |}
  = "{{" +:+ name +:+ "}}".
Proof.
  intros Hid. pose proof (identifier_chars name Hid) as Hchars.
  unfold formatter.preFormat. simpl formatter.Format.
  change ("{{" +:+ name +:+ "}}") with (String "{" (String "{" (name +:+ "}}"))).
  change (formatter.IsTable (String "{" (String "{" (name +:+ "}}")))) with false.
  cbv iota.
  rewrite Trim_no_space, unescape_no_backslash; [done| |].
  - simpl. rewrite allChars_app, andb_true_iff. split; [|done].
    revert Hchars. apply allChars_impl.
    intros c Hc. destruct (ident_char_plain c Hc) as (_ & _ & _ & _ & -> & _). done.
  - simpl. rewrite allChars_app, andb_true_iff. split; [|done].
    revert Hchars. apply allChars_impl.
    intros c Hc. destruct (ident_char_plain c Hc) as (-> & _). done.
Qed.

(** The template [{{name}}] of a function that is not defined does not
    parse, whatever the name. *)
Lemma parse_undefined_alone (name : string) (trunc : bool) :
  isIdentifier name = true ->
  member name keywords = false ->
  member name definedFunctions = false ->
  parse (formatter.preFormat
           {| formatter.Format := "{{" +:+ name +:+ "}}"; formatter.Trunc := trunc |})
  = Some (inl (undefinedFunction 1 name)).
Proof.
  intros Hid Hkw Hfn. rewrite (preFormat_name name trunc Hid).
  apply (parse_undefined "" (name +:+ "}}") "" name "" []); try done.
  rewrite (actionBody_name name (identifier_chars name Hid)).
  by rewrite string_app_nil_r.
Qed.

End Parsing.

(** ** The render pass *)

Section Render.

Import formatter.

Context `{Collaborators}.

(** A format that does not parse writes nothing. *)
Lemma Write_parse_error (ctx : Context) (sub : SubContext) (f : SubFormat)
    (clock : time.Clock) (err : error) :
  template.parse (preFormat ctx) = Some (inl err) ->
  Write ctx sub f clock = Some ("", Some ("template parsing error: " +:+ err)).
Proof. intros Hparse. unfold Write, parseFormat. by rewrite Hparse. Qed.

(** C2.  A template in which an action names a function that is not
    defined makes the render pass, of tasks and of checkpoints alike and for
    every list of entities, return the error [template parsing error:
    template: :<line>: function "<name>" not defined], whose text contains
    the name of the function, and write no byte to the sink.  The template is
    the format without its table alias; the action may come after any text
    and actions that parse, may name the function after fields and calls of
    defined functions, may give it arguments and may be followed by
    anything. *)
Theorem undefined_function_error (ctx : Context) (pre rest words name tail : string)
    (before : template.Template)
    (tasks : list swarm.Task) (names nodes : gmap string string) (clock : time.Clock)
    (checkpoints : list apicheckpoint.Summary) :
  preFormat ctx = pre +:+ "{{" +:+ rest ->
  template.parse pre = Some (inr before) ->
  template.endsOpen pre = false ->
  template.actionBody rest = words +:+ name +:+ tail ->
  template.leads words = true ->
  template.isIdentifier name = true ->
  template.member name template.keywords = false ->
  template.member name template.definedFunctions = false ->
  template.terminated tail = true ->
  let err := "template parsing error: template: :"
               +:+ template.natDecimal (1 + template.newlines pre)
               +:+ ": function " +:+ String "034"%char (name +:+ String "034"%char "")
               +:+ " not defined" in
  task.FormatWrite ctx tasks names nodes clock = Some ("", Some err)
  /\ checkpoint.FormatWrite ctx checkpoints clock = Some ("", Some err)
  /\ strings.Contains err name = true.
Proof.
  intros Hformat Hpre Hopen Hbody Hwords Hid Hkw Hfn Htail err.
  assert (template.parse (preFormat ctx)
          = Some (inl (template.undefinedFunction (1 + template.newlines pre) name)))
    as Hparse.
  { rewrite Hformat.
    by apply (parse_undefined pre rest words name tail before). }
  split; [|split].
  - unfold task.FormatWrite. by rewrite (Write_parse_error _ _ _ _ _ Hparse).
  - unfold checkpoint.FormatWrite. by rewrite (Write_parse_error _ _ _ _ _ Hparse).
  - assert (err = ("template parsing error: template: :"
                     +:+ template.natDecimal (1 + template.newlines pre)
                     +:+ ": function " +:+ String "034"%char "")
                  +:+ name +:+ (String "034"%char "" +:+ " not defined")) as ->.
    { unfold err.
      rewrite (string_app_cons "034" (name +:+ String "034"%char "") " not defined").
      rewrite !string_app_assoc. reflexivity. }
    apply Contains_app.
Qed.

Lemma execute_field (d : template.Data) (line col : nat) (name v : string)
    (clock : time.Clock) (k k' : nat) :
  template.execNode d (template.FieldNode line col name) clock k = (inr v, k') ->
  template.execute [template.FieldNode line col name] d clock k = (inr v, k').
Proof.
  intros Hv. cbn [template.execute]. rewrite Hv. by rewrite string_app_nil_r.
Qed.

(** The rows of a template made of one field, while every call returns. *)
Lemma field_rows (name : string) (accessor : task.taskContext -> Accessor)
    (trunc : bool) (names nodes : gmap string string) (clock : time.Clock)
    (tasks : list swarm.Task) :
  In (name, accessor) task.accessors ->
  forall (k : nat) (out : Sink) (rows : list string),
    layout.fieldValues accessor trunc names nodes clock k tasks = Some rows ->
    forEach tasks
      (fun t => contextFormat [template.FieldNode 1 2 name]
                  (task.subContext (layout.taskView trunc names nodes t))) clock k out
    = (length tasks + k, out +:+ layout.lines rows, inr tt).
Proof.
  intros Hin. induction tasks as [|t tasks IH]; intros k out rows Hrows.
  - injection Hrows as <-. simpl. by rewrite string_app_nil_r.
  - cbn [layout.fieldValues] in Hrows.
    destruct (accessor (layout.taskView trunc names nodes t) (clock k))
      as [v|value] eqn:Hv; [|done].
    destruct (layout.fieldValues accessor trunc names nodes clock (S k) tasks)
      as [vs|] eqn:Hvs; [|done].
    injection Hrows as <-.
    cbn [forEach]. unfold bind at 1. unfold contextFormat at 1.
    rewrite (execute_field _ 1 2 name v clock k (S k)
               (task_field _ name accessor clock k 1 2 v Hin Hv)).
    unfold write at 1. rewrite (IH (S k) _ vs Hvs).
    cbn [layout.lines length]. rewrite !string_app_assoc.
    by rewrite Nat.add_succ_r.
Qed.

(** The rows up to the first call that panics, and the error. *)
Lemma field_rows_panic (name : string) (accessor : task.taskContext -> Accessor)
    (trunc : bool) (names nodes : gmap string string) (clock : time.Clock)
    (tasks : list swarm.Task) :
  In (name, accessor) task.accessors ->
  forall (k : nat) (out : Sink),
    layout.fieldValues accessor trunc names nodes clock k tasks = None ->
    exists (k' : nat) (out' : Sink) (err : error),
      forEach tasks
        (fun t => contextFormat [template.FieldNode 1 2 name]
                    (task.subContext (layout.taskView trunc names nodes t))) clock k out
      = (k', out', inl err).
Proof.
  intros Hin. induction tasks as [|t tasks IH]; intros k out Hrows; [done|].
  cbn [layout.fieldValues] in Hrows. cbn [forEach]. unfold bind at 1.
  unfold contextFormat at 1.
  destruct (accessor (layout.taskView trunc names nodes t) (clock k))
    as [v|value] eqn:Hv.
  - rewrite (execute_field _ 1 2 name v clock k (S k)
               (task_field _ name accessor clock k 1 2 v Hin Hv)).
    unfold write at 1.
    destruct (layout.fieldValues accessor trunc names nodes clock (S k) tasks)
      as [vs|] eqn:Hvs; [done|].
    apply (IH (S k) _ Hvs).
  - cbn [template.execute template.execNode]. unfold template.callMethod.
    cbn [data template.method task.subContext methods].
    rewrite (call_In (task.methods (layout.taskView trunc names nodes t)) name
               (accessor (layout.taskView trunc names nodes t))
               (task_methods_NoDup _)).
    + rewrite Hv. unfold fail. by eexists _, _, _.
    + apply (in_map (fun a => (fst a, snd a (layout.taskView trunc names nodes t))))
        in Hin. exact Hin.
Qed.

Lemma fieldValues_returns (f : task.taskContext -> string) (trunc : bool)
    (names nodes : gmap string string) (clock : time.Clock) (tasks : list swarm.Task) :
  forall k : nat,
    layout.fieldValues (task.returns f) trunc names nodes clock k tasks
    = Some (List.map (fun t => f (layout.taskView trunc names nodes t)) tasks).
Proof.
  induction tasks as [|t tasks IH]; intros k; [done|].
  cbn [layout.fieldValues List.map]. unfold task.returns at 1. by rewrite IH.
Qed.

(** C1, amended.  With quiet set and the format alias [table], the resolved
    format is the identifier-only one and the render pass writes exactly one
    line per task, made of the identifier of the task and nothing else, with
    no header line; without truncation, as [service ps] renders in quiet
    mode, the identifier is the full one.  For another format string quiet
    mode does not select the identifier-only format: the alias [raw] gives
    the line [id: {{.ID}}] and any other format string is used as it is. *)
Theorem quiet_table_prints_identifiers (trunc : bool) (tasks : list swarm.Task)
    (names nodes : gmap string string) (clock : time.Clock) (source : string) :
  task.FormatWrite {| Format := task.NewTaskFormat "table" true; Trunc := trunc |}
                   tasks names nodes clock
    = Some (layout.lines
              (List.map (fun t => task.ID (layout.taskView trunc names nodes t)) tasks),
            None)
  /\ task.FormatWrite {| Format := task.NewTaskFormat "table" true; Trunc := false |}
                      tasks names nodes clock
    = Some (layout.lines (List.map swarm.ID tasks), None)
  /\ task.NewTaskFormat "raw" true = layout.rawLine "id" "ID"
  /\ (source <> "table" -> source <> "raw" -> task.NewTaskFormat source true = source).
Proof.
  assert (forall tr : bool,
    task.FormatWrite {| Format := task.NewTaskFormat "table" true; Trunc := tr |}
                     tasks names nodes clock
    = Some (layout.lines
              (List.map (fun t => task.ID (layout.taskView tr names nodes t)) tasks),
            None)) as Hrender.
  { intros tr. unfold task.FormatWrite, Write.
    change (parseFormat {| Format := task.NewTaskFormat "table" true; Trunc := tr |})
      with (Some (inr [template.FieldNode 1 2 "ID"]) : option (error + template.Template)).
    cbv iota beta. unfold bind at 1. unfold writeHeader.
    change (IsTable (Format {| Format := task.NewTaskFormat "table" true; Trunc := tr |}))
      with false.
    cbv iota beta. unfold ret at 1. cbv iota beta.
    simpl Trunc.
    pose proof (field_rows "ID" (task.returns task.ID) tr names nodes clock tasks
                  (ltac:(do 3 right; by left)) 0 "" _
                  (fieldValues_returns task.ID tr names nodes clock tasks 0)) as Hrows.
    unfold layout.taskView in Hrows |- *. by rewrite Hrows. }
  split; [apply Hrender|]. split; [apply Hrender|]. split; [done|].
  intros Htable Hraw. unfold task.NewTaskFormat.
  apply String.eqb_neq in Htable, Hraw.
  unfold TableFormatKey, RawFormatKey. by rewrite Htable, Hraw.
Qed.

End Render.

Section RenderExamples.

#[local] Existing Instance Sample.collaborators.

(** C1, as stated, fails: with quiet set, a custom template prints what it
    names, the alias [raw] prints a key before each identifier, and a table
    with inline columns prints its header and its columns. *)
Lemma quiet_keeps_other_formats :
  task.FormatWrite
    {| formatter.Format := task.NewTaskFormat "{{.Name}}" true; formatter.Trunc := false |}
    [Sample.task1; Sample.task2] Sample.names Sample.nodes Sample.still
    = Some (layout.lines ["web.1"; "web.2"], None)
  /\ task.FormatWrite
    {| formatter.Format := task.NewTaskFormat "raw" true; formatter.Trunc := false |}
    [Sample.task1; Sample.task2] Sample.names Sample.nodes Sample.still
    = Some (layout.lines ["id: taskID1"; "id: taskID2"], None)
  /\ task.FormatWrite
    {| formatter.Format := task.NewTaskFormat "table {{.Name}}" true;
       formatter.Trunc := false |}
    [Sample.task1; Sample.task2] Sample.names Sample.nodes Sample.still
    = Some (layout.lines ["NAME"; "web.1"; "web.2"], None)
  /\ task.FormatWrite
    {| formatter.Format := task.NewTaskFormat "{{.Name}}" true; formatter.Trunc := false |}
    [Sample.task1; Sample.task2] Sample.names Sample.nodes Sample.still
    <> Some (layout.lines ["taskID1"; "taskID2"], None).
Proof.
  assert (task.FormatWrite
    {| formatter.Format := task.NewTaskFormat "{{.Name}}" true; formatter.Trunc := false |}
    [Sample.task1; Sample.task2] Sample.names Sample.nodes Sample.still
    = Some (layout.lines ["web.1"; "web.2"], None)) as E by (vm_compute; reflexivity).
  split; [exact E|]. split; [vm_compute; reflexivity|].
  split; [vm_compute; reflexivity|]. rewrite E. vm_compute. discriminate.
Qed.

Lemma undefined_function_error_witness :
  task.FormatWrite
    {| formatter.Format := "{{InvalidFunction}}"; formatter.Trunc := false |}
    [Sample.task1; Sample.task2] Sample.names Sample.nodes Sample.still
  = Some ("", Some ("template parsing error: template: :1: function "
                    +:+ String "034"%char ("InvalidFunction" +:+ String "034"%char "")
                    +:+ " not defined"))
  /\ task.FormatWrite
    {| formatter.Format := "table {{.ID}}: {{.Node | InvalidFunction .Name}} on {{.Node}}";
       formatter.Trunc := false |}
    [Sample.task1; Sample.task2] Sample.names Sample.nodes Sample.still
  = Some ("", Some ("template parsing error: template: :1: function "
                    +:+ String "034"%char ("InvalidFunction" +:+ String "034"%char "")
                    +:+ " not defined")).
Proof.
  split.
  - apply (undefined_function_error
             {| formatter.Format := "{{InvalidFunction}}"; formatter.Trunc := false |}
             "" "InvalidFunction}}" "" "InvalidFunction" "" []
             [Sample.task1; Sample.task2] Sample.names Sample.nodes Sample.still []);
      reflexivity.
  - apply (undefined_function_error
             {| formatter.Format :=
                  "table {{.ID}}: {{.Node | InvalidFunction .Name}} on {{.Node}}";
                formatter.Trunc := false |}
             "{{.ID}}: " ".Node | InvalidFunction .Name}} on {{.Node}}"
             ".Node | " "InvalidFunction" " .Name"
             [template.FieldNode 1 2 "ID"; template.TextNode ": "]
             [Sample.task1; Sample.task2] Sample.names Sample.nodes Sample.still []);
      reflexivity.
Defined.

Lemma quiet_table_prints_identifiers_witness :
  task.FormatWrite
    {| formatter.Format := task.NewTaskFormat "table" true; formatter.Trunc := false |}
    [Sample.task1; Sample.task2] Sample.names Sample.nodes Sample.still
    = Some (layout.lines ["taskID1"; "taskID2"], None)
  /\ task.NewTaskFormat "{{.Name}}" true = "{{.Name}}".
Proof.
  destruct (quiet_table_prints_identifiers false [Sample.task1; Sample.task2]
              Sample.names Sample.nodes Sample.still "{{.Name}}")
    as (_ & Hfull & _ & Hother).
  split; [exact Hfull | apply Hother; discriminate].
Defined.

Lemma CurrentState_since_witness :
  task.CurrentState (layout.taskView false Sample.names Sample.nodes Sample.task1)
    (5 * time.Second)%Z = "Running 5 seconds ago".
Proof.
  destruct (CurrentState_since
              (layout.taskView false Sample.names Sample.nodes Sample.task1)
              (5 * time.Second)%Z) as (E & _).
  rewrite E. vm_compute. reflexivity.
Defined.

End RenderExamples.

(** * Further properties of the sources *)

(** ** [filters.Args] *)

Section Args.

Lemma Get_Add (key value : string) (args : filters.Args) :
  filters.Get key (filters.Add key value args) = {[value]} ∪ filters.Get key args.
Proof.
  unfold filters.Get, filters.Add, filters.Args in *. by rewrite lookup_insert_eq.
Qed.

Lemma lookup_Add_ne (key key' value : string) (args : filters.Args) :
  key' ≠ key -> filters.Add key value args !! key' = args !! key'.
Proof.
  intros Hne. unfold filters.Add, filters.Args in *. by rewrite lookup_insert_ne.
Qed.

Lemma Add_comm (key v1 v2 : string) (args : filters.Args) :
  filters.Add key v1 (filters.Add key v2 args)
  = filters.Add key v2 (filters.Add key v1 args).
Proof.
  apply map_eq. intros k. destruct (decide (k = key)) as [->|Hne].
  - unfold filters.Add, filters.Args in *. rewrite !lookup_insert_eq. simpl.
    f_equal. by rewrite !(assoc_L (∪)), (comm_L (∪) {[v1]} {[v2]}).
  - by rewrite !lookup_Add_ne.
Qed.

Lemma fold_Add_lookup_ne (key key' : string) (values : list string) (args : filters.Args) :
  key' ≠ key ->
  fold_left (fun a v => filters.Add key v a) values args !! key' = args !! key'.
Proof.
  intros Hne. revert args. induction values as [|v values IH]; intros args; [done|].
  simpl. by rewrite IH, lookup_Add_ne.
Qed.

Lemma fold_Add_Get (key : string) (values : list string) (args : filters.Args) :
  filters.Get key (fold_left (fun a v => filters.Add key v a) values args)
  = list_to_set values ∪ filters.Get key args.
Proof.
  revert args. induction values as [|v values IH]; intros args; simpl.
  - by rewrite union_empty_l_L.
  - rewrite IH, Get_Add.
    by rewrite (assoc_L (∪)), (comm_L (∪) (list_to_set values)).
Qed.

Lemma fold_Add_perm (key : string) (l l' : list string) :
  l ≡ₚ l' ->
  forall args : filters.Args,
  fold_left (fun a v => filters.Add key v a) l args
  = fold_left (fun a v => filters.Add key v a) l' args.
Proof.
  induction 1 as [|x l l' _ IH|x y l|l l' l'' _ IH1 _ IH2]; intros args; simpl.
  - done.
  - apply IH.
  - by rewrite Add_comm.
  - by rewrite IH1, IH2.
Qed.

End Args.

(** ** [createFilter]: the queries and the filter *)

Section CreateFilterMore.

Import service resolution views.

(** X1.  The two queries that [createFilter] sends to the engine ask for
    exactly the requested services, the first under the key [id] and the
    second under the key [name], and set no other key. *)
Theorem query_filters (svcs : list string) (key : string) :
  filters.Get "id" (serviceIDFilter svcs) = list_to_set svcs
  /\ filters.Get "name" (serviceNameFilter svcs) = list_to_set svcs
  /\ (key ≠ "id" -> serviceIDFilter svcs !! key = None)
  /\ (key ≠ "name" -> serviceNameFilter svcs !! key = None).
Proof.
  unfold serviceIDFilter, serviceNameFilter, filters.NewArgs. repeat split.
  - rewrite fold_Add_Get. unfold filters.Get, filters.Args.
    rewrite lookup_empty. simpl. by rewrite union_empty_r_L.
  - rewrite fold_Add_Get. unfold filters.Get, filters.Args.
    rewrite lookup_empty. simpl. by rewrite union_empty_r_L.
  - intros Hne. by rewrite fold_Add_lookup_ne.
  - intros Hne. by rewrite fold_Add_lookup_ne.
Qed.

Lemma query_filters_witness :
  serviceIDFilter ["web"; "db"] !! "name" = None
  /\ serviceNameFilter ["web"; "db"] !! "id" = None.
Proof.
  destruct (query_filters ["web"; "db"] "name") as (_ & _ & Hid & _).
  destruct (query_filters ["web"; "db"] "id") as (_ & _ & _ & Hname).
  split; [apply Hid | apply Hname]; discriminate.
Defined.

Lemma resolve_Matched (byID byName : list Service) (name id : string) :
  resolve byID byName name = Matched id -> matches byID byName name id.
Proof.
  unfold resolve, matches.
  destruct (List.find _ byID) as [s|] eqn:Eid.
  { intros [= <-]. apply find_some in Eid as [Hin Heq].
    apply String.eqb_eq in Heq. exists s. split; [done|]. left.
    split; [by apply list_elem_of_In|].
    unfold strings.HasPrefix. rewrite <- Heq. clear.
    induction (ID s) as [|c r IH]; [done|]. simpl. by destruct (ascii_dec c c). }
  destruct (List.find _ byName) as [s|] eqn:Ename.
  { intros [= <-]. apply find_some in Ename as [Hin Heq].
    apply String.eqb_eq in Heq. exists s. split; [done|]. right.
    split; [by apply list_elem_of_In|done]. }
  destruct (List.filter _ byID) as [|s [|s' l]] eqn:Epre; [done| |done].
  intros [= <-].
  assert (In s (List.filter (fun s => strings.HasPrefix (ID s) name) byID)) as Hin
    by (rewrite Epre; by left).
  apply filter_In in Hin as [Hin Hpre]. exists s. split; [done|]. left.
  split; [by apply list_elem_of_In|done].
Qed.

Lemma resolve_Ambiguous (byID byName : list Service) (name first : string) :
  resolve byID byName name = Ambiguous first -> matches byID byName name first.
Proof.
  unfold resolve, matches.
  destruct (List.find _ byID); [done|]. destruct (List.find _ byName); [done|].
  destruct (List.filter _ byID) as [|s [|s' l]] eqn:Epre; [done..|].
  intros [= <-].
  assert (In s (List.filter (fun s => strings.HasPrefix (ID s) name) byID)) as Hin
    by (rewrite Epre; by left).
  apply filter_In in Hin as [Hin Hpre]. exists s. split; [done|]. left.
  split; [by apply list_elem_of_In|done].
Qed.

(** On either exit of the loop, the filter is the one it started from with
    identifiers of matching services added. *)
Lemma matchLoop_adds (byID byName : list Service) (names : list string) :
  forall (flt : filters.Args) (notfound : list string) (n : nat),
  exists ids : list string,
    loopFilter (matchLoop names byID byName flt notfound n) = addServices ids flt
    /\ Forall (fun id => exists name, name ∈ names /\ matches byID byName name id) ids.
Proof.
  induction names as [|name names IH]; intros flt notfound n.
  - exists []. by split.
  - rewrite matchLoop_step.
    destruct (resolve byID byName name) as [id|first|] eqn:R.
    + destruct (IH (filters.Add "service" id flt) notfound (S n)) as (ids & -> & Hids).
      exists (id :: ids). split; [done|]. constructor.
      * exists name. split; [by left|by apply resolve_Matched].
      * eapply Forall_impl; [exact Hids|]. intros x (m & Hm & Hx).
        exists m. split; [by right|done].
    + exists [first]. split; [done|]. constructor; [|done].
      exists name. split; [by left|by apply resolve_Ambiguous].
    + destruct (IH flt (notfound ++ [noSuchService name]) n) as (ids & -> & Hids).
      exists ids. split; [done|].
      eapply Forall_impl; [exact Hids|]. intros x (m & Hm & Hx).
      exists m. split; [by right|done].
Qed.

Lemma createFilter_loop (apiClient : APIClient) (options : psOptions)
    (byID byName : list Service) :
  ServiceList apiClient (serviceIDFilter (services options)) = inr byID ->
  ServiceList apiClient (serviceNameFilter (services options)) = inr byName ->
  (createFilter apiClient options).1.1
  = loopFilter (matchLoop (services options) byID byName (filter options) [] 0).
Proof.
  intros HbyID HbyName. unfold createFilter. rewrite HbyID, HbyName.
  destruct (matchLoop _ _ _ _ _ _) as [[flt err]|[[flt nf] n]]; [done|].
  simpl. by destruct (n =? 0).
Qed.

(** X2.  Whatever the engine answers and however the call ends,
    [createFilter] leaves every key of the filter other than [service] as
    the user set it, and drops no service that was already in the filter. *)
Theorem createFilter_keeps_filter (apiClient : APIClient) (options : psOptions)
    (key : string) :
  let flt := (createFilter apiClient options).1.1 in
  (key ≠ "service" -> flt !! key = filter options !! key)
  /\ filters.Get "service" (filter options) ⊆ filters.Get "service" flt.
Proof.
  intros flt.
  assert (exists ids, flt = addServices ids (filter options)) as [ids ->].
  { unfold flt.
    destruct (ServiceList apiClient (serviceIDFilter (services options)))
      as [err|byID] eqn:HbyID.
    { exists []. unfold createFilter. by rewrite HbyID. }
    destruct (ServiceList apiClient (serviceNameFilter (services options)))
      as [err|byName] eqn:HbyName.
    { exists []. unfold createFilter. by rewrite HbyID, HbyName. }
    rewrite (createFilter_loop _ _ _ _ HbyID HbyName).
    destruct (matchLoop_adds byID byName (services options) (filter options) [] 0)
      as (ids & Hids & _). by exists ids. }
  unfold addServices. split.
  - intros Hne. by apply fold_Add_lookup_ne.
  - rewrite fold_Add_Get. set_solver.
Qed.

Lemma createFilter_keeps_filter_witness :
  (createFilter Sample.apiClient
     (Sample.request ["web"; "nope"] false false "")).1.1 !! "node" = None.
Proof.
  destruct (createFilter_keeps_filter Sample.apiClient
              (Sample.request ["web"; "nope"] false false "") "node") as [Hkey _].
  rewrite Hkey; [reflexivity|discriminate].
Defined.

(** X3.  Every service that [createFilter] adds to the filter is a service
    the engine returned for one of the requested names: its identifier starts
    with the name, or its name is the requested one. *)
Theorem createFilter_adds_matches (apiClient : APIClient) (options : psOptions)
    (byID byName : list Service) (id : string) :
  ServiceList apiClient (serviceIDFilter (services options)) = inr byID ->
  ServiceList apiClient (serviceNameFilter (services options)) = inr byName ->
  id ∈ filters.Get "service" (createFilter apiClient options).1.1 ->
  id ∈ filters.Get "service" (filter options)
  \/ exists name : string, name ∈ services options /\ matches byID byName name id.
Proof.
  intros HbyID HbyName. rewrite (createFilter_loop _ _ _ _ HbyID HbyName).
  destruct (matchLoop_adds byID byName (services options) (filter options) [] 0)
    as (ids & -> & Hids).
  unfold addServices. rewrite fold_Add_Get, elem_of_union, elem_of_list_to_set.
  intros [Hid|Hid]; [right|by left].
  rewrite Forall_forall in Hids. by apply Hids.
Qed.

Lemma createFilter_adds_matches_witness :
  "4kq2" ∈ filters.Get "service" (∅ : filters.Args)
  \/ exists name : string,
       name ∈ ["db"; "nope"]
       /\ matches Sample.engineServices Sample.engineServices name "4kq2".
Proof.
  apply (createFilter_adds_matches Sample.apiClient
           (Sample.request ["db"; "nope"] false false "")
           Sample.engineServices Sample.engineServices "4kq2" eq_refl eq_refl).
  vm_compute. reflexivity.
Defined.

End CreateFilterMore.

(** ** [createFilter]: how the call ends *)

Section CreateFilterEnds.

Import service resolution views.

(** The loop runs to its end only if no requested prefix is shared. *)
Lemma matchLoop_inr (byID byName : list Service) (names : list string) :
  forall (flt : filters.Args) (notfound : list string) (n : nat)
         (r : filters.Args * list string * nat),
  matchLoop names byID byName flt notfound n = inr r ->
  unambiguous byID byName names.
Proof.
  induction names as [|name names IH]; intros flt notfound n r; [by constructor|].
  rewrite matchLoop_step.
  destruct (resolve byID byName name) as [id|first|] eqn:R; [|done|].
  - intros Hr. constructor; [by rewrite R|]. by eapply IH.
  - intros Hr. constructor; [by rewrite R|]. by eapply IH.
Qed.

(** The result of the call when no requested prefix is shared. *)
Lemma createFilter_resolved (apiClient : APIClient) (options : psOptions)
    (byID byName : list Service) :
  ServiceList apiClient (serviceIDFilter (services options)) = inr byID ->
  ServiceList apiClient (serviceNameFilter (services options)) = inr byName ->
  unambiguous byID byName (services options) ->
  createFilter apiClient options =
    match matchedIDs byID byName (services options) with
    | [] =>
        (filter options, [],
         Some (strings.Join
                 (List.map noSuchService (missing byID byName (services options)))
                 strings.newline))
    | ids =>
        (addServices ids (filter options),
         List.map noSuchService (missing byID byName (services options)), None)
    end.
Proof.
  intros HbyID HbyName Hall. unfold createFilter. rewrite HbyID, HbyName.
  rewrite (matchLoop_unambiguous byID byName _ Hall).
  by destruct (matchedIDs byID byName (services options)).
Qed.

(** X4.  [createFilter] returns no error only when both queries were
    answered, no requested prefix was shared by several services and at
    least one requested service matched.  Then every requested service is
    accounted for: it resolved to a service whose identifier is in the
    filter, or it matched nothing and its [no such service] message is in the
    list handed back. *)
Theorem createFilter_success (apiClient : APIClient) (options : psOptions)
    (flt : filters.Args) (notfound : list string) :
  createFilter apiClient options = (flt, notfound, None) ->
  exists byID byName : list Service,
    ServiceList apiClient (serviceIDFilter (services options)) = inr byID
    /\ ServiceList apiClient (serviceNameFilter (services options)) = inr byName
    /\ unambiguous byID byName (services options)
    /\ matchedIDs byID byName (services options) <> []
    /\ (forall name : string, name ∈ services options ->
          (resolve byID byName name = NotFound /\ noSuchService name ∈ notfound)
          \/ (exists id : string,
                resolve byID byName name = Matched id
                /\ id ∈ filters.Get "service" flt)).
Proof.
  intros Hresult.
  destruct (ServiceList apiClient (serviceIDFilter (services options)))
    as [err|byID] eqn:HbyID.
  { unfold createFilter in Hresult. by rewrite HbyID in Hresult. }
  destruct (ServiceList apiClient (serviceNameFilter (services options)))
    as [err|byName] eqn:HbyName.
  { unfold createFilter in Hresult. by rewrite HbyID, HbyName in Hresult. }
  assert (unambiguous byID byName (services options)) as Hall.
  { unfold createFilter in Hresult. rewrite HbyID, HbyName in Hresult.
    destruct (matchLoop _ _ _ _ _ _) as [[f e]|r] eqn:Hloop; [done|].
    by eapply matchLoop_inr. }
  rewrite (createFilter_resolved _ _ _ _ HbyID HbyName Hall) in Hresult.
  exists byID, byName. split; [done|]. split; [done|]. split; [done|].
  assert (matchedIDs byID byName (services options) <> []
          /\ flt = addServices (matchedIDs byID byName (services options))
                               (filter options)
          /\ notfound = List.map noSuchService
                          (missing byID byName (services options)))
    as (Hne & -> & ->).
  { destruct (matchedIDs byID byName (services options)); [done|].
    by injection Hresult as <- <-. }
  split; [done|].
  intros name Hname. unfold unambiguous in Hall.
  rewrite Forall_forall in Hall. specialize (Hall name Hname).
  destruct (resolve byID byName name) as [id|first|] eqn:R; [|done|].
  - right. exists id. split; [done|].
    unfold addServices. rewrite fold_Add_Get, elem_of_union, elem_of_list_to_set.
    left. unfold matchedIDs. apply list_elem_of_omap.
    exists name. by rewrite R.
  - left. split; [done|].
    apply list_elem_of_In, in_map, filter_In. split; [by apply list_elem_of_In|].
    by rewrite R.
Qed.

Lemma createFilter_success_witness :
  exists byID byName : list Service,
    ServiceList Sample.apiClient (serviceIDFilter ["4kq1"; "db"; "7x"; "nope"]) = inr byID
    /\ ServiceList Sample.apiClient (serviceNameFilter ["4kq1"; "db"; "7x"; "nope"])
       = inr byName
    /\ unambiguous byID byName ["4kq1"; "db"; "7x"; "nope"]
    /\ matchedIDs byID byName ["4kq1"; "db"; "7x"; "nope"] <> []
    /\ (forall name : string, name ∈ ["4kq1"; "db"; "7x"; "nope"] ->
          (resolve byID byName name = NotFound
           /\ noSuchService name ∈ ["no such service: nope"])
          \/ (exists id : string,
                resolve byID byName name = Matched id
                /\ id ∈ filters.Get "service"
                          (addServices ["4kq1"; "4kq2"; "7xyz"] ∅))).
Proof.
  apply (createFilter_success Sample.apiClient
           (Sample.request ["4kq1"; "db"; "7x"; "nope"] false false "")).
  vm_compute. reflexivity.
Defined.

Lemma List_filter_perm {A} (f : A -> bool) (l l' : list A) :
  l ≡ₚ l' -> List.filter f l ≡ₚ List.filter f l'.
Proof.
  induction 1 as [|x l l' _ IH|x y l|l l' l'' _ IH1 _ IH2]; simpl.
  - done.
  - destruct (f x); [by constructor|done].
  - destruct (f x), (f y); try done. apply perm_swap.
  - by etrans.
Qed.

(** X5.  As long as no requested prefix is shared by several services, the
    order in which the services are requested does not matter to the filter:
    a reordered request gets the same filter, fails exactly when the original
    one fails, and reports the same missing services. *)
Theorem createFilter_order (apiClient : APIClient) (options : psOptions)
    (names : list string) (byID byName : list Service) :
  services options ≡ₚ names ->
  ServiceList apiClient (serviceIDFilter (services options)) = inr byID ->
  ServiceList apiClient (serviceNameFilter (services options)) = inr byName ->
  unambiguous byID byName (services options) ->
  let r := createFilter apiClient options in
  let r' := createFilter apiClient (withServices names options) in
  r'.1.1 = r.1.1
  /\ (r'.2 = None <-> r.2 = None)
  /\ (r.2 = None -> r'.1.2 ≡ₚ r.1.2).
Proof.
  intros Hperm HbyID HbyName Hall r r'.
  assert (serviceIDFilter names = serviceIDFilter (services options)) as EID
    by (symmetry; apply fold_Add_perm, Hperm).
  assert (serviceNameFilter names = serviceNameFilter (services options)) as ENAME
    by (symmetry; apply fold_Add_perm, Hperm).
  assert (unambiguous byID byName names) as Hall'.
  { unfold unambiguous in *. by rewrite <- Hperm. }
  assert (matchedIDs byID byName (services options) ≡ₚ matchedIDs byID byName names)
    as Hids by (unfold matchedIDs; by rewrite Hperm).
  assert (missing byID byName (services options) ≡ₚ missing byID byName names)
    as Hmiss by (by apply List_filter_perm).
  unfold r, r'.
  rewrite (createFilter_resolved _ _ _ _ HbyID HbyName Hall).
  rewrite (createFilter_resolved apiClient (withServices names options) byID byName);
    [|by simpl; rewrite EID|by simpl; rewrite ENAME|done].
  simpl services. simpl filter.
  destruct (matchedIDs byID byName (services options)) as [|id ids] eqn:E.
  - apply Permutation_nil_l in Hids. rewrite <- Hids. simpl.
    split; [done|]. split; [by split|done].
  - destruct (matchedIDs byID byName names) as [|id' ids'] eqn:E'.
    { by apply Permutation_nil_r in Hids. }
    simpl. split; [|split; [done|]].
    + exact (eq_sym (fold_Add_perm "service" (id :: ids) (id' :: ids') Hids
                                    (filter options))).
    + intros _. change (List.map noSuchService ?l) with (noSuchService <$> l).
      by rewrite Hmiss.
Qed.

Lemma createFilter_order_witness :
  (createFilter Sample.apiClient (Sample.request ["nope"; "db"; "web"] false false "")).1.1
  = (createFilter Sample.apiClient (Sample.request ["web"; "db"; "nope"] false false "")).1.1.
Proof.
  apply (createFilter_order Sample.apiClient
           (Sample.request ["web"; "db"; "nope"] false false "")
           ["nope"; "db"; "web"] Sample.engineServices Sample.engineServices).
  - exact (Permutation_rev ["web"; "db"; "nope"]).
  - reflexivity.
  - reflexivity.
  - repeat constructor.
Defined.

(** With no service requested, and the engine answering, the call
    matches nothing: it fails with an empty message and hands the filter back
    as it was. *)
Theorem createFilter_empty_request (apiClient : APIClient) (options : psOptions)
    (byID byName : list Service) :
  services options = [] ->
  ServiceList apiClient (serviceIDFilter []) = inr byID ->
  ServiceList apiClient (serviceNameFilter []) = inr byName ->
  createFilter apiClient options = (filter options, [], Some "").
Proof.
  intros Hnone HbyID HbyName. unfold createFilter.
  by rewrite Hnone, HbyID, HbyName.
Qed.

Lemma createFilter_empty_request_witness :
  createFilter Sample.apiClient (Sample.request [] false false "") = (∅, [], Some "").
Proof.
  apply (createFilter_empty_request Sample.apiClient
           (Sample.request [] false false "")
           Sample.engineServices Sample.engineServices); reflexivity.
Defined.

End CreateFilterEnds.

(** ** [updateNodeFilter] *)

Section NodeFilter.

Import service.

Variable Reference : string -> error + string.

Lemma lookup_Del_ne (key key' value : string) (args : filters.Args) :
  key' ≠ key -> filters.Del key value args !! key' = args !! key'.
Proof.
  intros Hne. unfold filters.Del, filters.Args in *.
  destruct (args !! key); [|done]. by rewrite lookup_insert_ne.
Qed.

Lemma Get_Del (key value : string) (args : filters.Args) :
  filters.Get key (filters.Del key value args) = filters.Get key args ∖ {[value]}.
Proof.
  unfold filters.Get, filters.Del, filters.Args in *.
  destruct (args !! key) as [values|] eqn:E.
  - by rewrite lookup_insert_eq.
  - rewrite E. simpl. by rewrite difference_disjoint_L by set_solver.
Qed.

Lemma Add_Del (key value : string) (args : filters.Args) :
  value ∈ filters.Get key args ->
  filters.Add key value (filters.Del key value args) = args.
Proof.
  unfold filters.Get, filters.Add, filters.Del, filters.Args in *.
  destruct (args !! key) as [values|] eqn:E; simpl; [|set_solver].
  intros Hin. rewrite lookup_insert_eq. simpl. rewrite insert_insert_eq.
  rewrite <- (union_difference_singleton_L value values Hin).
  by apply insert_id.
Qed.

Lemma updateNodes_other (key : string) (nodeFilters : list string) :
  key ≠ "node" ->
  forall flt flt' : filters.Args,
  updateNodes Reference nodeFilters flt = inr flt' -> flt' !! key = flt !! key.
Proof.
  intros Hne. induction nodeFilters as [|n rest IH]; intros flt flt'; simpl.
  - by intros [= ->].
  - destruct (Reference n) as [err|ref]; [done|]. intros Hrest.
    by rewrite (IH _ _ Hrest), lookup_Add_ne, lookup_Del_ne.
Qed.

Lemma updateNodes_values (nodeFilters : list string) :
  forall (flt flt' : filters.Args) (v : string),
  updateNodes Reference nodeFilters flt = inr flt' ->
  v ∈ filters.Get "node" flt' ->
  (v ∈ filters.Get "node" flt /\ v ∉ nodeFilters)
  \/ exists n : string, n ∈ nodeFilters /\ Reference n = inr v.
Proof.
  induction nodeFilters as [|n rest IH]; intros flt flt' v; simpl.
  - intros [= ->] Hv. left. split; [done|]. apply not_elem_of_nil.
  - destruct (Reference n) as [err|ref] eqn:Hn; [done|]. intros Hrest Hv.
    destruct (IH _ _ v Hrest Hv) as [[Hin Hnot]|(m & Hm & Href)].
    + rewrite Get_Add, Get_Del in Hin.
      apply elem_of_union in Hin as [Hin|Hin].
      * apply elem_of_singleton in Hin as ->. right. exists n.
        split; [by left|done].
      * apply elem_of_difference in Hin as [Hin Hne]. left. split; [done|].
        rewrite not_elem_of_cons. split; [|done].
        intros ->. apply Hne. by apply elem_of_singleton.
    + right. exists m. split; [by right|done].
Qed.

Lemma updateNodes_error (nodeFilters : list string) :
  forall (flt : filters.Args) (err : error),
  updateNodes Reference nodeFilters flt = inl err ->
  exists n : string, n ∈ nodeFilters /\ Reference n = inl err.
Proof.
  induction nodeFilters as [|n rest IH]; intros flt err; simpl; [done|].
  destruct (Reference n) as [e|ref] eqn:Hn.
  - intros [= ->]. exists n. split; [by left|done].
  - intros Hrest. destruct (IH _ _ Hrest) as (m & Hm & Href).
    exists m. split; [by right|done].
Qed.

Lemma updateNodes_fixed (nodeFilters : list string) :
  NoDup nodeFilters ->
  forall flt : filters.Args,
  (forall n, n ∈ nodeFilters -> Reference n = inr n /\ n ∈ filters.Get "node" flt) ->
  updateNodes Reference nodeFilters flt = inr flt.
Proof.
  induction 1 as [|n rest Hn Hnd IH]; intros flt Hall; [done|]. simpl.
  destruct (Hall n ltac:(by left)) as [-> Hin].
  rewrite Add_Del by done. apply IH.
  intros m Hm. apply Hall. by right.
Qed.

(** X6.  [updateNodeFilter] touches the key [node] only: when it succeeds,
    every other key of the filter is as before, and a filter without the key
    [node] is left as it is without resolving anything. *)
Theorem updateNodeFilter_other_keys (flt flt' : filters.Args) (key : string) :
  (updateNodeFilter Reference flt = inr flt' -> key ≠ "node" ->
   flt' !! key = flt !! key)
  /\ (flt !! "node" = None -> updateNodeFilter Reference flt = inr flt).
Proof.
  unfold updateNodeFilter, filters.Contains. split.
  - intros Hresult Hne. case_bool_decide; [|by injection Hresult as <-].
    by eapply updateNodes_other.
  - intros Hnone. rewrite bool_decide_eq_false_2; [done|].
    unfold filters.Args in *. rewrite Hnone. by intros [x Hx].
Qed.

(** X7.  What [updateNodeFilter] hands back comes from [node.Reference] on
    the node values of the filter: on success every value under [node] is the
    reference of one of the values the filter had, and an error is the error
    of [node.Reference] on one of them. *)
Theorem updateNodeFilter_references (flt : filters.Args) :
  (forall (flt' : filters.Args) (v : string),
      updateNodeFilter Reference flt = inr flt' ->
      v ∈ filters.Get "node" flt' ->
      exists n : string, n ∈ filters.Get "node" flt /\ Reference n = inr v)
  /\ (forall err : error,
      updateNodeFilter Reference flt = inl err ->
      exists n : string, n ∈ filters.Get "node" flt /\ Reference n = inl err).
Proof.
  unfold updateNodeFilter, filters.Contains. split.
  - intros flt' v Hresult Hv. case_bool_decide as Hnode.
    + destruct (updateNodes_values _ _ _ v Hresult Hv) as [[Hin Hnot]|(n & Hn & Href)].
      * exfalso. apply Hnot. by apply elem_of_elements.
      * exists n. split; [by apply elem_of_elements|done].
    + injection Hresult as <-. exfalso. apply Hnode.
      unfold filters.Get, filters.Args in *.
      destruct (flt !! "node"); [by eexists|]. by apply not_elem_of_empty in Hv.
  - intros err Hresult. case_bool_decide; [|done].
    destruct (updateNodes_error _ _ _ Hresult) as (n & Hn & Href).
    exists n. split; [by apply elem_of_elements|done].
Qed.

(** X8.  When every node value of the filter is its own reference,
    [updateNodeFilter] succeeds and hands the filter back unchanged: taking a
    value out and putting it back leaves the set as it was. *)
Theorem updateNodeFilter_fixed (flt : filters.Args) :
  (forall n : string, n ∈ filters.Get "node" flt -> Reference n = inr n) ->
  updateNodeFilter Reference flt = inr flt.
Proof.
  intros Hall. unfold updateNodeFilter. destruct (filters.Contains "node" flt); [|done].
  apply updateNodes_fixed; [apply NoDup_elements|].
  intros n Hn%elem_of_elements. split; [by apply Hall|done].
Qed.

End NodeFilter.

Section NodeFilterExamples.

Lemma updateNodeFilter_other_keys_witness :
  Fixture.resolvedFilter !! "label" = Fixture.nodeFilter !! "label"
  /\ service.updateNodeFilter Fixture.reference (filters.Add "label" "tier=web" ∅)
     = inr (filters.Add "label" "tier=web" ∅).
Proof.
  destruct (updateNodeFilter_other_keys Fixture.reference
              Fixture.nodeFilter Fixture.resolvedFilter "label") as [Hkeys _].
  destruct (updateNodeFilter_other_keys Fixture.reference
              (filters.Add "label" "tier=web" ∅) ∅ "label") as [_ Hnone].
  split; [apply Hkeys; [vm_compute; reflexivity|discriminate]
         |apply Hnone; vm_compute; reflexivity].
Defined.

Lemma updateNodeFilter_references_witness :
  (exists n : string,
      n ∈ filters.Get "node" Fixture.nodeFilter /\ Fixture.reference n = inr "k3x9")
  /\ (exists n : string,
      n ∈ filters.Get "node" (filters.Add "node" "ghost" ∅)
      /\ Fixture.reference n = inl "no such node: ghost").
Proof.
  destruct (updateNodeFilter_references Fixture.reference Fixture.nodeFilter)
    as [Hvalues _].
  destruct (updateNodeFilter_references Fixture.reference
              (filters.Add "node" "ghost" ∅)) as [_ Herror].
  split.
  - apply (Hvalues Fixture.resolvedFilter "k3x9"); vm_compute; reflexivity.
  - apply Herror. vm_compute. reflexivity.
Defined.

Lemma updateNodeFilter_fixed_witness :
  service.updateNodeFilter Fixture.reference Fixture.plainFilter
  = inr Fixture.plainFilter.
Proof.
  apply updateNodeFilter_fixed. intros n Hn.
  assert (n = "worker1" \/ n = "worker2") as [-> | ->]; [|reflexivity..].
  revert Hn. unfold Fixture.plainFilter. rewrite !Get_Add.
  rewrite !elem_of_union, !elem_of_singleton. unfold filters.Get, filters.Args.
  rewrite lookup_empty. simpl. rewrite elem_of_empty. tauto.
Defined.

End NodeFilterExamples.

(** ** [runPS] *)

Section RunPSMore.

Import service resolution views.

Variable ConfigFile : Type.
Variable DefaultFormat : ConfigFile -> bool -> string.
Variable Reference : string -> error + string.
Variable Print : PrintCall -> option error.

Lemma nothing_matched (byID byName : list Service) (names : list string) :
  unambiguous byID byName names ->
  matchedIDs byID byName names = [] ->
  missing byID byName names = names.
Proof.
  unfold matchedIDs, missing.
  induction 1 as [|name names Hname _ IH]; [done|]. simpl.
  destruct (resolve byID byName name); simpl in *; [done|done|].
  intros Hnone. by rewrite (IH Hnone).
Qed.

Lemma none_matched (byID byName : list Service) (names : list string) :
  (forall name : string, name ∈ names -> resolve byID byName name = NotFound) ->
  matchedIDs byID byName names = [].
Proof.
  unfold matchedIDs. induction names as [|name names IH]; intros Hnone; [done|].
  simpl. rewrite (Hnone name) by (by left). simpl. apply IH.
  intros m Hm. apply Hnone. by right.
Qed.

Lemma Contains_addServices (key : string) (ids : list string) (flt : filters.Args) :
  key ≠ "service" ->
  filters.Contains key (addServices ids flt) = filters.Contains key flt.
Proof.
  intros Hne. unfold filters.Contains, addServices.
  by rewrite fold_Add_lookup_ne.
Qed.

(** X9.  When the engine answers and none of the requested services
    matches, [runPS] lists no task and prints nothing: it fails with one
    [no such service] line for each requested service, in the order of the
    request. *)
Theorem runPS_nothing_matched (configFile : ConfigFile) (apiClient : APIClient)
    (options : psOptions) (byID byName : list Service) :
  ServiceList apiClient (serviceIDFilter (services options)) = inr byID ->
  ServiceList apiClient (serviceNameFilter (services options)) = inr byName ->
  (forall name : string, name ∈ services options ->
     resolve byID byName name = NotFound) ->
  runPS ConfigFile DefaultFormat Reference Print configFile apiClient options
  = (None,
     Some (strings.Join (List.map noSuchService (services options)) strings.newline)).
Proof.
  intros HbyID HbyName Hnone.
  assert (unambiguous byID byName (services options)) as Hall.
  { apply Forall_forall. intros name Hname. by rewrite (Hnone name Hname). }
  pose proof (none_matched byID byName _ Hnone) as Hids.
  unfold runPS.
  rewrite (createFilter_resolved _ _ _ _ HbyID HbyName Hall), Hids.
  by rewrite (nothing_matched _ _ _ Hall Hids).
Qed.

(** X10.  When some requested services match and no prefix is shared, and
    the filter of the user has no node value, [runPS] lists the tasks of the
    services found, prints them with one call of [task.Print], and then, if
    printing went well, still fails with the [no such service] lines of the
    services that are missing; it returns no error when none is missing. *)
Theorem runPS_prints_found (configFile : ConfigFile) (apiClient : APIClient)
    (options : psOptions) (byID byName : list Service) (tasks : list swarm.Task) :
  ServiceList apiClient (serviceIDFilter (services options)) = inr byID ->
  ServiceList apiClient (serviceNameFilter (services options)) = inr byName ->
  unambiguous byID byName (services options) ->
  matchedIDs byID byName (services options) <> [] ->
  filter options !! "node" = None ->
  TaskList apiClient
    (addServices (matchedIDs byID byName (services options)) (filter options))
    = inr tasks ->
  Print (printCall ConfigFile DefaultFormat configFile options tasks) = None ->
  runPS ConfigFile DefaultFormat Reference Print configFile apiClient options
  = (Some (printCall ConfigFile DefaultFormat configFile options tasks),
     match missing byID byName (services options) with
     | [] => None
     | absent => Some (strings.Join (List.map noSuchService absent) strings.newline)
     end).
Proof.
  intros HbyID HbyName Hall Hids Hnode Htasks Hprint. unfold runPS.
  rewrite (createFilter_resolved _ _ _ _ HbyID HbyName Hall).
  destruct (matchedIDs byID byName (services options)) as [|id ids] eqn:E; [done|].
  unfold updateNodeFilter.
  rewrite (Contains_addServices "node" (id :: ids) (filter options)) by done.
  assert (filters.Contains "node" (filter options) = false) as ->.
  { unfold filters.Contains, filters.Args in *. rewrite Hnode.
    apply bool_decide_eq_false_2. by intros [x Hx]. }
  rewrite Htasks, Hprint.
  by destruct (missing byID byName (services options)).
Qed.

End RunPSMore.

Section RunPSExamples.

Import service resolution.

Lemma runPS_nothing_matched_witness :
  runPS unit Fixture.defaultFormat Fixture.reference Fixture.print tt Sample.apiClient
        (Sample.request ["nope"; "none"] false false "")
  = (None, Some ("no such service: nope" +:+ strings.newline +:+ "no such service: none")).
Proof.
  apply (runPS_nothing_matched unit Fixture.defaultFormat Fixture.reference
           Fixture.print tt Sample.apiClient
           (Sample.request ["nope"; "none"] false false "")
           Sample.engineServices Sample.engineServices eq_refl eq_refl).
  intros name Hname.
  assert (name = "nope" \/ name = "none") as [-> | ->]; [|reflexivity..].
  revert Hname. simpl. rewrite !elem_of_cons, elem_of_nil. tauto.
Defined.

Lemma runPS_prints_found_witness :
  runPS unit Fixture.defaultFormat Fixture.reference Fixture.print tt Sample.apiClient
        (Sample.request ["web"; "nope"] false false "")
  = (Some (printCall unit Fixture.defaultFormat tt
             (Sample.request ["web"; "nope"] false false "")
             [Sample.task1; Sample.task2]),
     Some "no such service: nope").
Proof.
  apply (runPS_prints_found unit Fixture.defaultFormat Fixture.reference
           Fixture.print tt Sample.apiClient
           (Sample.request ["web"; "nope"] false false "")
           Sample.engineServices Sample.engineServices [Sample.task1; Sample.task2]
           eq_refl eq_refl).
  - repeat constructor.
  - discriminate.
  - reflexivity.
  - reflexivity.
  - reflexivity.
Defined.

End RunPSExamples.

(** ** The resolvers and the views, further *)

Section ViewsMore.

Import formatter views.

Context `{Collaborators}.

(** X11.  A resolved format is not resolved again: giving the result of
    [NewTaskFormat], or of the [NewFormat] of checkpoints, back to the
    resolver returns it as it is, whatever the quiet flag of the second
    call. *)
Theorem resolved_format_is_final (source : string) (quiet quiet' : bool) :
  task.NewTaskFormat (task.NewTaskFormat source quiet) quiet'
    = task.NewTaskFormat source quiet
  /\ checkpoint.NewFormat (checkpoint.NewFormat source) = checkpoint.NewFormat source.
Proof.
  split.
  - assert (String.eqb (task.NewTaskFormat source quiet) TableFormatKey = false
            /\ String.eqb (task.NewTaskFormat source quiet) RawFormatKey = false)
      as [Etable Eraw].
    { unfold task.NewTaskFormat.
      destruct (String.eqb source TableFormatKey) eqn:Etable;
        [destruct quiet; split; reflexivity|].
      destruct (String.eqb source RawFormatKey) eqn:Eraw;
        [destruct quiet; split; reflexivity|].
      by split. }
    unfold task.NewTaskFormat at 1. by rewrite Etable, Eraw.
  - assert (String.eqb (checkpoint.NewFormat source) TableFormatKey = false)
      as Etable.
    { unfold checkpoint.NewFormat.
      by destruct (String.eqb source TableFormatKey) eqn:Etable. }
    unfold checkpoint.NewFormat at 1. by rewrite Etable.
Qed.

Lemma Join_app (l1 l2 : list string) (sep : string) :
  l1 <> [] -> l2 <> [] ->
  strings.Join (l1 ++ l2) sep = strings.Join l1 sep +:+ sep +:+ strings.Join l2 sep.
Proof.
  intros Hl1 Hl2. induction l1 as [|e [|e' l1] IH]; [done|..].
  - destruct l2; [done|]. done.
  - change ((e :: e' :: l1) ++ l2) with (e :: ((e' :: l1) ++ l2)).
    change (strings.Join (e :: (e' :: l1) ++ l2) sep)
      with (e +:+ sep +:+ strings.Join ((e' :: l1) ++ l2) sep).
    rewrite IH by done.
    change (strings.Join (e :: e' :: l1) sep)
      with (e +:+ sep +:+ strings.Join (e' :: l1) sep).
    by rewrite !string_app_assoc.
Qed.

(** X12.  The [Ports] accessor follows the list of ports: the text of a
    port status made of two non-empty lists of ports, one after the other, is
    the text of the first, a comma, and the text of the second. *)
Theorem Ports_concat (c : task.taskContext) (ports1 ports2 : list swarm.PortConfig) :
  ports1 <> [] -> ports2 <> [] ->
  task.Ports (withPorts (ports1 ++ ports2) c)
  = task.Ports (withPorts ports1 c) +:+ "," +:+ task.Ports (withPorts ports2 c).
Proof.
  intros H1 H2. rewrite !Ports_join. simpl.
  rewrite List.map_app. apply Join_app.
  - by destruct ports1.
  - by destruct ports2.
Qed.

(** Every accessor of the task view returns, [Image] when the task has a
    container spec. *)
Lemma accessor_returns (name : string) (accessor : task.taskContext -> Accessor)
    (c : task.taskContext) (wall : time.Time) :
  In (name, accessor) task.accessors ->
  name <> "Image" \/ swarm.ContainerSpec_ (swarm.Spec (task.task c)) <> None ->
  exists v : string, accessor c wall = runtime.Returns v.
Proof.
  intros Hin Hspec. simpl in Hin.
  destruct Hin as [E|[E|[E|[E|[E|[E|[E|[E|[]]]]]]]]];
    injection E as <- <-; try by eexists.
  destruct Hspec as [Hname|Hspec]; [done|].
  unfold task.Image.
  destruct (swarm.ContainerSpec_ (swarm.Spec (task.task c))); [by eexists|done].
Qed.

Lemma fieldValues_total (name : string) (accessor : task.taskContext -> Accessor)
    (trunc : bool) (names nodes : gmap string string) (clock : time.Clock)
    (tasks : list swarm.Task) :
  In (name, accessor) task.accessors ->
  name <> "Image"
  \/ Forall (fun t => swarm.ContainerSpec_ (swarm.Spec t) <> None) tasks ->
  forall k : nat,
    exists rows : list string,
      layout.fieldValues accessor trunc names nodes clock k tasks = Some rows
      /\ length rows = length tasks.
Proof.
  intros Hin. induction tasks as [|t tasks IH]; intros Hspec k; [by exists []|].
  assert (name <> "Image" \/ swarm.ContainerSpec_ (swarm.Spec t) <> None) as Ht.
  { destruct Hspec as [Hname|Hall]; [by left|right].
    by apply Forall_cons in Hall as [Ht _]. }
  assert (name <> "Image"
          \/ Forall (fun t => swarm.ContainerSpec_ (swarm.Spec t) <> None) tasks)
    as Hrest.
  { destruct Hspec as [Hname|Hall]; [by left|right].
    by apply Forall_cons in Hall as [_ Hall]. }
  destruct (accessor_returns name accessor (layout.taskView trunc names nodes t)
              (clock k) Hin Ht) as [v Hv].
  destruct (IH Hrest (S k)) as (rows & Hrows & Hlen).
  exists (v :: rows). cbn [layout.fieldValues]. rewrite Hv, Hrows.
  split; [done|]. simpl. by rewrite Hlen.
Qed.

Lemma fieldValues_nil (trunc : bool) (names nodes : gmap string string)
    (clock : time.Clock) (tasks : list swarm.Task) :
  Exists (fun t => swarm.ContainerSpec_ (swarm.Spec t) = None) tasks ->
  forall k : nat,
    layout.fieldValues (fun c _ => task.Image c) trunc names nodes clock k tasks = None.
Proof.
  induction tasks as [|t tasks IH]; intros Hnil k.
  - by apply Exists_nil in Hnil.
  - cbn [layout.fieldValues]. unfold task.Image at 1. cbn [task.task layout.taskView].
    destruct (swarm.ContainerSpec_ (swarm.Spec t)) eqn:Hspec; [|done].
    apply Exists_cons in Hnil as [Hnil|Hnil]; [congruence|].
    by rewrite (IH Hnil).
Qed.

(** X13.  A template that names one accessor of the task view calls the
    accessor once for each task, in the order of the tasks and each call at
    its own reading of the clock.  While the calls return, the render pass
    writes one line per task, the text that the call returned, and returns
    no error; if a call panics the render pass returns an error.  Every
    accessor returns for every task, except [Image], which returns for the
    tasks that have a container spec and panics for the others.  The name
    and the node of a task are looked up by its identifier and are empty when
    it has no entry. *)
Theorem FormatWrite_field (name : string) (accessor : task.taskContext -> Accessor)
    (trunc : bool) (tasks : list swarm.Task) (names nodes : gmap string string)
    (clock : time.Clock) :
  In (name, accessor) task.accessors ->
  let ctx := {| Format := "{{." +:+ name +:+ "}}"; Trunc := trunc |} in
  let values := layout.fieldValues accessor trunc names nodes clock 0 tasks in
  (forall rows : list string,
     values = Some rows ->
     task.FormatWrite ctx tasks names nodes clock = Some (layout.lines rows, None))
  /\ (values = None ->
      exists (out : Sink) (err : error),
        task.FormatWrite ctx tasks names nodes clock = Some (out, Some err))
  /\ (name <> "Image"
      \/ Forall (fun t => swarm.ContainerSpec_ (swarm.Spec t) <> None) tasks ->
      exists rows : list string, values = Some rows /\ length rows = length tasks)
  /\ (name = "Image" ->
      Exists (fun t => swarm.ContainerSpec_ (swarm.Spec t) = None) tasks ->
      values = None).
Proof.
  intros Hin ctx values.
  assert (parseFormat ctx = Some (inr [template.FieldNode 1 2 name])) as Hparse.
  { unfold ctx. simpl in Hin.
    destruct Hin as [E|[E|[E|[E|[E|[E|[E|[E|[]]]]]]]]];
      injection E as <- _; reflexivity. }
  assert (task.FormatWrite ctx tasks names nodes clock
          = (let '(_, out, r) :=
               forEach tasks
                 (fun t => contextFormat [template.FieldNode 1 2 name]
                             (task.subContext (layout.taskView trunc names nodes t)))
                 clock 0 "" in
             Some (out, match r with inl err => Some err | inr _ => None end)))
    as Hwrite.
  { unfold task.FormatWrite, Write. rewrite Hparse.
    cbv iota beta. unfold bind at 1. unfold writeHeader.
    change (IsTable (Format ctx)) with false.
    cbv iota beta. unfold ret at 1. cbv iota beta. done. }
  split; [|split; [|split]].
  - intros rows Hrows. rewrite Hwrite.
    by rewrite (field_rows name accessor trunc names nodes clock tasks Hin 0 "" rows Hrows).
  - intros Hnone. rewrite Hwrite.
    destruct (field_rows_panic name accessor trunc names nodes clock tasks Hin 0 ""
                Hnone) as (k' & out' & err & ->).
    by exists out', err.
  - intros Hspec.
    apply (fieldValues_total name accessor trunc names nodes clock tasks Hin Hspec 0).
  - intros -> Hnil. unfold values.
    assert (accessor = fun c _ => task.Image c) as ->.
    { simpl in Hin.
      destruct Hin as [E|[E|[E|[E|[E|[E|[E|[E|[]]]]]]]]];
        try discriminate E. by injection E as <-. }
    by apply fieldValues_nil.
Qed.

(** X14.  The header of the task view gives a title to each accessor of the
    view and to nothing else, and the default table format and the raw format
    of tasks name exactly these accessors; the same holds for the checkpoint
    view, whose only accessor is [Name]. *)
Theorem headers_cover_accessors :
  dom task.taskHeader = list_to_set (task.accessors.*1)
  /\ list_to_set (layout.columns (task.NewTaskFormat "table" false))
     = dom task.taskHeader
  /\ list_to_set (layout.columns (task.NewTaskFormat "raw" false))
     = dom task.taskHeader
  /\ dom (checkpoint.Header checkpoint.newCheckpointContext)
     = list_to_set (checkpoint.accessors.*1)
  /\ list_to_set (layout.columns (checkpoint.NewFormat "table"))
     = dom (checkpoint.Header checkpoint.newCheckpointContext).
Proof.
  assert (dom task.taskHeader
          = list_to_set ["ID"; "Name"; "Image"; "Node"; "DesiredState";
                         "CurrentState"; "Error"; "Ports"]) as Hdom.
  { unfold task.taskHeader. rewrite !dom_insert_L, dom_empty_L.
    apply (bool_decide_unpack _). by vm_compute. }
  assert (dom (checkpoint.Header checkpoint.newCheckpointContext)
          = list_to_set ["Name"]) as Hcp.
  { simpl. rewrite dom_insert_L, dom_empty_L.
    apply (bool_decide_unpack _). by vm_compute. }
  rewrite Hdom, Hcp.
  repeat split; apply (bool_decide_unpack _); by vm_compute.
Qed.

Lemma checkpoint_rows (checkpoints : list apicheckpoint.Summary) (clock : time.Clock) :
  forall (k : nat) (out : Sink),
    forEach checkpoints
      (fun cp => contextFormat [template.FieldNode 1 2 "Name"]
                   (checkpoint.subContext (checkpointView cp))) clock k out
    = (length checkpoints + k,
       out +:+ layout.lines (List.map apicheckpoint.Name checkpoints), inr tt).
Proof.
  induction checkpoints as [|cp cps IH]; intros k out.
  - simpl. by rewrite string_app_nil_r.
  - cbn [forEach]. unfold bind at 1. unfold contextFormat at 1.
    rewrite (execute_field (data (checkpoint.subContext (checkpointView cp)))
               1 2 "Name" (apicheckpoint.Name cp) clock k (S k) eq_refl).
    unfold write at 1. rewrite IH. cbn [layout.lines List.map length].
    rewrite !string_app_assoc. by rewrite Nat.add_succ_r.
Qed.

(** X15.  With the format [table], the checkpoints are listed as the header
    line [CHECKPOINT NAME] followed by one line per checkpoint, in their
    order, holding its name; an empty list gives the header alone, and no
    error is returned. *)
Theorem checkpoint_table (trunc : bool) (checkpoints : list apicheckpoint.Summary)
    (clock : time.Clock) :
  checkpoint.FormatWrite {| Format := checkpoint.NewFormat "table"; Trunc := trunc |}
                         checkpoints clock
  = Some (layout.lines
            ("CHECKPOINT NAME" :: List.map apicheckpoint.Name checkpoints), None).
Proof.
  unfold checkpoint.FormatWrite, Write.
  change (parseFormat {| Format := checkpoint.NewFormat "table"; Trunc := trunc |})
    with (Some (inr [template.FieldNode 1 2 "Name"]) : option (error + template.Template)).
  cbv iota beta. unfold bind at 1. unfold writeHeader.
  change (IsTable (Format {| Format := checkpoint.NewFormat "table"; Trunc := trunc |}))
    with true.
  cbv iota beta. unfold write at 1.
  change (headerRow [template.FieldNode 1 2 "Name"]
            (checkpoint.subContext checkpoint.newCheckpointContext))
    with "CHECKPOINT NAME".
  pose proof (checkpoint_rows checkpoints clock 0
                ("" +:+ "CHECKPOINT NAME" +:+ strings.newline)) as Hrows.
  unfold checkpointView in Hrows. rewrite Hrows. simpl layout.lines.
  by rewrite !string_app_assoc.
Qed.

End ViewsMore.

Section ViewsExamples.

#[local] Existing Instance Sample.collaborators.

Lemma Ports_concat_witness :
  task.Ports
    (views.withPorts
       ([ {| swarm.Protocol := "tcp"; swarm.TargetPort := 80; swarm.PublishedPort := 8080 |} ]
        ++ [ {| swarm.Protocol := "udp"; swarm.TargetPort := 53; swarm.PublishedPort := 5353 |} ])
       (layout.taskView false Sample.names Sample.nodes Sample.task2))
  = "*:8080->80/tcp" +:+ "," +:+ "*:5353->53/udp".
Proof.
  rewrite Ports_concat; [vm_compute; reflexivity|discriminate..].
Defined.

Lemma FormatWrite_field_witness :
  task.FormatWrite {| formatter.Format := "{{.CurrentState}}"; formatter.Trunc := false |}
    [Sample.task1; Sample.task2; Sample.bare] Sample.names Sample.nodes Sample.ticking
  = Some (layout.lines ["Running 5 seconds ago"; "Shutdown 6 seconds ago";
                        "Running 7 seconds ago"], None)
  /\ exists (out : formatter.Sink) (err : error),
       task.FormatWrite {| formatter.Format := "{{.Image}}"; formatter.Trunc := false |}
         [Sample.task1; Sample.task2; Sample.bare] Sample.names Sample.nodes Sample.ticking
       = Some (out, Some err).
Proof.
  destruct (FormatWrite_field "CurrentState"
              (fun c wall => runtime.Returns (task.CurrentState c wall)) false
              [Sample.task1; Sample.task2; Sample.bare]
              Sample.names Sample.nodes Sample.ticking) as (Hrows & _);
    [left; reflexivity|].
  destruct (FormatWrite_field "Image" (fun c _ => task.Image c) false
              [Sample.task1; Sample.task2; Sample.bare]
              Sample.names Sample.nodes Sample.ticking) as (_ & Hpanic & _);
    [do 4 right; left; reflexivity|].
  split.
  - apply Hrows. vm_compute. reflexivity.
  - apply Hpanic. vm_compute. reflexivity.
Defined.

End ViewsExamples.

(** ** [runPull] *)

Section PullMore.

Import image.

Variables Named AuthConfig Body : Type.
Variable ParseNormalizedNamed : string -> error + Named.
Variable IsNameOnly : Named -> bool.
Variable TagNameOnly : Named -> Named.
Variable Tag : Named -> option string.
Variable IsCanonical : Named -> bool.
Variable RefString : Named -> string.
Variable FamiliarString : Named -> string.
Variable platformsParse : string -> option error.
Variable GetImageReferencesAndAuth : string -> error + (Named * AuthConfig).
Variable trustedPull : Named * AuthConfig -> pullOptions -> list Event * Outcome.
Variable Encode : AuthConfig -> error + string.
Variable ImagePull : string -> string -> bool -> list string -> error + Body.
Variable Display : Body -> string * option error.

Local Abbreviation run :=
  (runPull Named AuthConfig Body ParseNormalizedNamed IsNameOnly TagNameOnly Tag
     IsCanonical RefString FamiliarString platformsParse GetImageReferencesAndAuth
     trustedPull Encode ImagePull Display).

Local Abbreviation privileged :=
  (imagePullPrivileged Named AuthConfig Body FamiliarString platformsParse Encode
     ImagePull Display).

(** With [--all-tags], a reference that carries a tag or a digest is
    refused at once: [runPull] returns the error [tag can't be used with
    --all-tags/-a], prints nothing and calls neither the trust resolution nor
    the engine. *)
Theorem runPull_all_tags (opts : pullOptions) (ref : Named) :
  ParseNormalizedNamed (remote opts) = inr ref ->
  all opts = true ->
  IsNameOnly ref = false ->
  run opts = ([], Failed "tag can't be used with --all-tags/-a").
Proof.
  intros Hparse Hall Hname. unfold runPull. by rewrite Hparse, Hall, Hname.
Qed.

(** X16.  A platform that does not parse stops the pull before anything is
    asked of the registry or of the engine: [runPull] fails, with the error
    of [platforms.Parse] when the reference itself is accepted, and all it
    did before is printing. *)
Theorem runPull_bad_platform (opts : pullOptions) (err : error) :
  platform opts <> "" ->
  platformsParse (platform opts) = Some err ->
  (exists e : error, (run opts).2 = Failed e)
  /\ Forall (fun ev => isCall ev = false) (run opts).1
  /\ (forall ref : Named,
        ParseNormalizedNamed (remote opts) = inr ref ->
        all opts && negb (IsNameOnly ref) = false ->
        (run opts).2 = Failed err).
Proof.
  intros Hplatform Hparse. apply String.eqb_neq in Hplatform.
  unfold runPull. rewrite Hplatform, Hparse. simpl.
  destruct (ParseNormalizedNamed (remote opts)) as [perr|parsed].
  { split; [by eexists|]. split; [by constructor|done]. }
  destruct (all opts && negb (IsNameOnly parsed)) eqn:Hall.
  { split; [by eexists|]. split; [by constructor|].
    intros ref [= <-] Href. congruence. }
  simpl. split; [by eexists|]. split; [|done].
  destruct (negb (all opts) && IsNameOnly parsed); [|by constructor].
  destruct (Tag (TagNameOnly parsed)); [|by constructor].
  destruct (negb (quiet opts)); by repeat constructor.
Qed.

(** X17.  [runPull] checks its input before it reaches out: whenever it
    calls the trust resolution or the engine, the reference has parsed, it
    carries no tag or digest if [--all-tags] is given, and the platform, if
    one is given, has parsed. *)
Theorem runPull_validates_first (opts : pullOptions) (ev : Event) :
  In ev (run opts).1 ->
  isCall ev = true ->
  exists ref : Named,
    ParseNormalizedNamed (remote opts) = inr ref
    /\ (all opts = true -> IsNameOnly ref = true)
    /\ (platform opts = "" \/ platformsParse (platform opts) = None).
Proof.
  unfold runPull.
  destruct (ParseNormalizedNamed (remote opts)) as [perr|parsed]; [done|].
  destruct (all opts && negb (IsNameOnly parsed)) eqn:Hall; [done|].
  intros Hin Hcall. exists parsed. split; [done|]. split.
  { intros Hyes. rewrite Hyes in Hall. simpl in Hall.
    by destruct (IsNameOnly parsed). }
  destruct (String.eqb_spec (platform opts) "") as [Hempty|Hfull]; [by left|].
  right. simpl in Hin.
  destruct (platformsParse (platform opts)) as [err|]; [|done].
  exfalso. cbn [fst] in Hin.
  destruct (negb (all opts) && IsNameOnly parsed); [|done].
  destruct (Tag (TagNameOnly parsed)); [|done].
  destruct (negb (quiet opts)); [|done].
  destruct Hin as [<-|[]]. done.
Qed.

(** [imagePullPrivileged] panics only on a platform that does not parse. *)
Lemma privileged_panic (ref : Named) (authConfig : AuthConfig) (opts : pullOptions) :
  (privileged ref authConfig opts).2 = Panicked ->
  platform opts <> "" /\ exists err, platformsParse (platform opts) = Some err.
Proof.
  unfold imagePullPrivileged.
  destruct (Encode authConfig); [done|].
  destruct (String.eqb_spec (platform opts) "") as [Hempty|Hfull]; simpl.
  - destruct (ImagePull _ _ _ _); [done|]. destruct (Display _) as [text [e|]]; done.
  - destruct (platformsParse (platform opts)) as [err|]; [by eauto|].
    destruct (ImagePull _ _ _ _); [done|]. destruct (Display _) as [text [e|]]; done.
Qed.

(** X18.  [runPull] validates the platform before it pulls, so the
    [platforms.MustParse] of [imagePullPrivileged] cannot panic in it: a run
    of [runPull] panics only if [trustedPull] does. *)
Theorem runPull_panic (opts : pullOptions) :
  (run opts).2 = Panicked ->
  untrusted opts = false
  /\ exists (imgRefAndAuth : Named * AuthConfig) (events : list Event),
       trustedPull imgRefAndAuth opts = (events, Panicked).
Proof.
  unfold runPull.
  destruct (ParseNormalizedNamed (remote opts)) as [perr|parsed]; [done|].
  destruct (all opts && negb (IsNameOnly parsed)); [done|].
  destruct (negb (String.eqb (platform opts) "")) eqn:Hplatform.
  - destruct (platformsParse (platform opts)) as [err|] eqn:Hparse; [done|].
    destruct (GetImageReferencesAndAuth _) as [gerr|imgRefAndAuth]; [done|].
    destruct (negb (untrusted opts) && negb (IsCanonical _)) eqn:Htrust.
    + destruct (trustedPull imgRefAndAuth opts) as [evs out] eqn:Hpull.
      destruct out; try done. intros _.
      apply andb_true_iff in Htrust as [Hun _]. apply negb_true_iff in Hun.
      split; [done|]. by exists imgRefAndAuth, evs.
    + destruct (privileged imgRefAndAuth.1 imgRefAndAuth.2 opts) as [evs out] eqn:Hpriv.
      destruct out; try done. intros _. exfalso.
      destruct (privileged_panic imgRefAndAuth.1 imgRefAndAuth.2 opts)
        as (_ & err & Herr); [by rewrite Hpriv|congruence].
  - destruct (GetImageReferencesAndAuth _) as [gerr|imgRefAndAuth]; [done|].
    destruct (negb (untrusted opts) && negb (IsCanonical _)) eqn:Htrust.
    + destruct (trustedPull imgRefAndAuth opts) as [evs out] eqn:Hpull.
      destruct out; try done. intros _.
      apply andb_true_iff in Htrust as [Hun _]. apply negb_true_iff in Hun.
      split; [done|]. by exists imgRefAndAuth, evs.
    + destruct (privileged imgRefAndAuth.1 imgRefAndAuth.2 opts) as [evs out] eqn:Hpriv.
      destruct out; try done. intros _. exfalso.
      destruct (privileged_panic imgRefAndAuth.1 imgRefAndAuth.2 opts)
        as (Hne & _); [by rewrite Hpriv|].
      apply negb_false_iff, String.eqb_eq in Hplatform. done.
Qed.

(** In quiet mode [imagePullPrivileged] prints nothing. *)
Lemma privileged_quiet (ref : Named) (authConfig : AuthConfig) (opts : pullOptions) :
  quiet opts = true -> printed (privileged ref authConfig opts).1 = [].
Proof.
  intros Hquiet. unfold imagePullPrivileged. rewrite Hquiet.
  destruct (Encode authConfig); [done|].
  destruct (if negb (String.eqb (platform opts) "") then _ else _); [|done].
  destruct (ImagePull _ _ _ _); [done|]. by destruct (Display _).
Qed.

(** X19.  With [--quiet] and content trust off, a pull that succeeds prints
    one line and nothing else: the reference that the trust resolution handed
    back.  The default tag is not announced and the progress of the transfer
    is not shown. *)
Theorem runPull_quiet (opts : pullOptions) (events : list Event) :
  quiet opts = true ->
  untrusted opts = true ->
  run opts = (events, Done) ->
  exists (ref : Named) (authConfig : AuthConfig) (asked : string),
    GetImageReferencesAndAuth asked = inr (ref, authConfig)
    /\ printed events = [line (RefString ref)].
Proof.
  intros Hquiet Huntrusted. unfold runPull. rewrite Hquiet, Huntrusted. simpl.
  destruct (ParseNormalizedNamed (remote opts)) as [perr|parsed]; [done|].
  destruct (all opts && negb (IsNameOnly parsed)); [done|].
  destruct (if negb (String.eqb (platform opts) "") then _ else _); [done|].
  destruct (GetImageReferencesAndAuth _) as [gerr|[ref authConfig]] eqn:Hget; [done|].
  pose proof (privileged_quiet ref authConfig opts Hquiet) as Hsilent.
  simpl. destruct (privileged ref authConfig opts) as [evs out].
  destruct out; try done. intros [= <-]. exists ref, authConfig. eexists.
  split; [exact Hget|]. simpl in Hsilent. unfold printed in *.
  rewrite !omap_app, Hsilent.
  destruct (negb (all opts) && IsNameOnly parsed); [|done].
  by destruct (Tag (TagNameOnly parsed)).
Qed.

(** [--quiet] does not change what [imagePullPrivileged] asks of the engine
    nor how it ends. *)
Lemma privileged_quiet_same (ref : Named) (authConfig : AuthConfig)
    (opts : pullOptions) (q : bool) :
  (privileged ref authConfig (views.withQuiet q opts)).2
    = (privileged ref authConfig opts).2
  /\ views.calls (privileged ref authConfig (views.withQuiet q opts)).1
    = views.calls (privileged ref authConfig opts).1.
Proof.
  unfold imagePullPrivileged. simpl.
  destruct (Encode authConfig); [done|].
  destruct (if negb (String.eqb (platform opts) "") then _ else _); [|done].
  destruct (ImagePull _ _ _ _); [done|]. destruct (Display _) as [text err].
  by destruct q, (quiet opts).
Qed.

(** X20.  With content trust off, [--quiet] changes what is printed and
    nothing else: [runPull] makes the same calls to the trust resolution and
    to the engine, in the same order, and ends the same way, with the flag
    and without it. *)
Theorem runPull_quiet_same_calls (opts : pullOptions) (q : bool) :
  untrusted opts = true ->
  (run (views.withQuiet q opts)).2 = (run opts).2
  /\ views.calls (run (views.withQuiet q opts)).1 = views.calls (run opts).1.
Proof.
  intros Huntrusted. unfold runPull. simpl. rewrite Huntrusted. simpl.
  destruct (ParseNormalizedNamed (remote opts)) as [perr|parsed]; [done|].
  destruct (all opts && negb (IsNameOnly parsed)); [done|].
  set (distributionRef :=
         if negb (all opts) && IsNameOnly parsed then TagNameOnly parsed else parsed).
  assert (forall quiet0 : bool,
            views.calls
              (if negb (all opts) && IsNameOnly parsed
               then match Tag distributionRef with
                    | Some tag =>
                        if negb quiet0
                        then [Printed (line2 "Using default tag:" tag)] else []
                    | None => []
                    end
               else []) = []) as Hannounce.
  { intros quiet0. destruct (negb (all opts) && IsNameOnly parsed); [|done].
    destruct (Tag distributionRef); [|done]. by destruct quiet0. }
  destruct (if negb (String.eqb (platform opts) "")
            then platformsParse (platform opts) else None).
  { split; [done|]. cbn [fst]. by rewrite !Hannounce. }
  destruct (GetImageReferencesAndAuth _) as [gerr|[ref authConfig]].
  { split; [done|]. cbn [fst]. unfold views.calls in *.
    by rewrite !List.filter_app, !Hannounce. }
  cbn [fst snd].
  destruct (privileged_quiet_same ref authConfig opts q) as [Hout Hcalls].
  destruct (privileged ref authConfig (views.withQuiet q opts)) as [evs' out'].
  destruct (privileged ref authConfig opts) as [evs out].
  simpl in Hout, Hcalls. subst out'. unfold views.calls in *.
  destruct out; cbn [fst snd]; (split; [done|]);
    by rewrite !List.filter_app, !Hannounce, Hcalls.
Qed.

End PullMore.

Section PullExamples.

Import image.

Lemma runPull_all_tags_witness :
  Fixture.pull {| remote := "busybox:1.36"; all := true; platform := "";
                  quiet := false; untrusted := true |}
  = ([], Failed "tag can't be used with --all-tags/-a").
Proof.
  apply (runPull_all_tags Fixture.Ref unit unit Fixture.parse Fixture.isNameOnly
           Fixture.tagNameOnly Fixture.tag Fixture.isCanonical Fixture.refString
           Fixture.familiarString Fixture.platformsParse
           Fixture.getImageReferencesAndAuth Fixture.trustedPull _ _ _ _
           {| Fixture.repo := "docker.io/library/busybox"; Fixture.tag := Some "1.36";
              Fixture.digest := None |}); reflexivity.
Defined.

Lemma runPull_bad_platform_witness :
  Forall (fun ev => isCall ev = false)
    (Fixture.pull {| remote := "busybox"; all := false; platform := "plan9/vax";
                     quiet := false; untrusted := true |}).1
  /\ (Fixture.pull {| remote := "busybox"; all := false; platform := "plan9/vax";
                      quiet := false; untrusted := true |}).2
     = Failed "invalid platform".
Proof.
  destruct (runPull_bad_platform Fixture.Ref unit unit Fixture.parse
              Fixture.isNameOnly Fixture.tagNameOnly Fixture.tag Fixture.isCanonical
              Fixture.refString Fixture.familiarString Fixture.platformsParse
              Fixture.getImageReferencesAndAuth Fixture.trustedPull
              (fun _ => inr "e30=") (fun _ _ _ _ => inr tt)
              (fun _ => ("Status: Downloaded newer image for busybox:latest", None))
              {| remote := "busybox"; all := false; platform := "plan9/vax";
                 quiet := false; untrusted := true |}
              "invalid platform" ltac:(discriminate) eq_refl)
    as (_ & Hevents & Herr).
  split; [exact Hevents|].
  apply (Herr {| Fixture.repo := "docker.io/library/busybox"; Fixture.tag := None;
                 Fixture.digest := None |}); reflexivity.
Defined.

Lemma runPull_quiet_witness :
  exists (ref : Fixture.Ref) (authConfig : unit) (asked : string),
    Fixture.getImageReferencesAndAuth asked = inr (ref, authConfig)
    /\ printed
         [Resolved "docker.io/library/busybox:latest";
          Pulled "busybox:latest" "e30=" false ["linux/amd64"];
          Printed (line "docker.io/library/busybox:latest")]
       = [line (Fixture.refString ref)].
Proof.
  apply (runPull_quiet Fixture.Ref unit unit Fixture.parse Fixture.isNameOnly
           Fixture.tagNameOnly Fixture.tag Fixture.isCanonical Fixture.refString
           Fixture.familiarString Fixture.platformsParse
           Fixture.getImageReferencesAndAuth Fixture.trustedPull
           (fun _ => inr "e30=") (fun _ _ _ _ => inr tt)
           (fun _ => ("Status: Downloaded newer image for busybox:latest", None))
           {| remote := "busybox"; all := false; platform := "linux/amd64";
              quiet := true; untrusted := true |}); reflexivity.
Defined.

Lemma runPull_validates_first_witness :
  exists ref : Fixture.Ref,
    Fixture.parse "busybox" = inr ref
    /\ (false = true -> Fixture.isNameOnly ref = true)
    /\ ("" = "" \/ Fixture.platformsParse "" = None).
Proof.
  apply (runPull_validates_first Fixture.Ref unit unit Fixture.parse
           Fixture.isNameOnly Fixture.tagNameOnly Fixture.tag Fixture.isCanonical
           Fixture.refString Fixture.familiarString Fixture.platformsParse
           Fixture.getImageReferencesAndAuth Fixture.trustedPull
           (fun _ => inr "e30=") (fun _ _ _ _ => inr tt)
           (fun _ => ("Status: Downloaded newer image for busybox:latest", None))
           {| remote := "busybox"; all := false; platform := "";
              quiet := false; untrusted := true |}
           (Resolved "docker.io/library/busybox:latest")).
  - vm_compute. right. left. reflexivity.
  - reflexivity.
Defined.

Lemma runPull_panic_witness :
  untrusted {| remote := "busybox"; all := false; platform := "";
               quiet := false; untrusted := false |} = false
  /\ exists (imgRefAndAuth : Fixture.Ref * unit) (events : list Event),
       Fixture.panickingPull imgRefAndAuth
         {| remote := "busybox"; all := false; platform := "";
            quiet := false; untrusted := false |} = (events, Panicked).
Proof.
  apply (runPull_panic Fixture.Ref unit unit Fixture.parse Fixture.isNameOnly
           Fixture.tagNameOnly Fixture.tag Fixture.isCanonical Fixture.refString
           Fixture.familiarString Fixture.platformsParse
           Fixture.getImageReferencesAndAuth Fixture.panickingPull
           (fun _ => inr "e30=") (fun _ _ _ _ => inr tt)
           (fun _ => ("", None))).
  reflexivity.
Defined.

Lemma runPull_quiet_same_calls_witness :
  (Fixture.pull
     (views.withQuiet true
        {| remote := "busybox"; all := false; platform := "";
           quiet := false; untrusted := true |})).2
  = Done
  /\ views.calls
       (Fixture.pull
          (views.withQuiet true
             {| remote := "busybox"; all := false; platform := "";
                quiet := false; untrusted := true |})).1
     = [Resolved "docker.io/library/busybox:latest";
        Pulled "busybox:latest" "e30=" false []].
Proof.
  destruct (runPull_quiet_same_calls Fixture.Ref unit unit Fixture.parse
              Fixture.isNameOnly Fixture.tagNameOnly Fixture.tag Fixture.isCanonical
              Fixture.refString Fixture.familiarString Fixture.platformsParse
              Fixture.getImageReferencesAndAuth Fixture.trustedPull
              (fun _ => inr "e30=") (fun _ _ _ _ => inr tt)
              (fun _ => ("Status: Downloaded newer image for busybox:latest", None))
              {| remote := "busybox"; all := false; platform := "";
                 quiet := false; untrusted := true |} true eq_refl)
    as [Hout Hcalls].
  split.
  - unfold Fixture.pull. rewrite Hout. reflexivity.
  - unfold Fixture.pull. rewrite Hcalls. reflexivity.
Defined.

End PullExamples.
